(** * WiFi Tracker front end: session layer and live channel

    A shallow embedding of [frontend/js/api.js]: the [ApiClient] class
    (token storage, [request], [handleResponse], [refreshToken], [login])
    and the WebSocket part of the [App] class ([connectWebSocket],
    [handleWebSocketMessage]).

    JavaScript [async] functions are written in a small free monad whose
    constructors are the places where the source suspends ([await]); the
    code between two suspensions runs as one block, as it does on the
    single JavaScript thread. *)

From stdpp Require Import base strings gmap list pretty.

Local Open Scope string_scope.
Local Open Scope Z_scope.

(** ** JavaScript values *)

#[local] Set Warnings "-register-all".

(** What [JSON.parse] / [response.json()] can produce.  Numbers are the
    integer ones; an object keeps one entry per key. *)
Inductive json : Type :=
| JNull
| JBool (b : bool)
| JNum (n : Z)
| JStr (s : string)
| JArr (items : list json)
| JObj (fields : list (string * json)).

(** A JavaScript value of the kinds this code handles: [None] is
    [undefined]. *)
Abbreviation value := (option json).
Abbreviation undefined := (@None json).
Abbreviation null := (Some JNull).

(** ToString, as applied by template literals, [localStorage.setItem]
    and [new Error(msg)]. *)
Fixpoint json_to_string (j : json) : string :=
  match j with
  | JNull => "null"
  | JBool true => "true"
  | JBool false => "false"
  | JNum n => pretty n
  | JStr s => s
  | JArr items =>
      (fix join (l : list json) : string :=
         match l with
         | [] => ""
         | x :: rest =>
             let sx := match x with JNull => "" | _ => json_to_string x end in
             match rest with
             | [] => sx
             | _ :: _ => sx ++ "," ++ join rest
             end
         end) items
  | JObj _ => "[object Object]"
  end.

Definition to_string (v : value) : string :=
  match v with
  | None => "undefined"
  | Some j => json_to_string j
  end.

(** ToBoolean: what [if (x)], [!x] and [x || y] test. *)
Definition truthy (v : value) : bool :=
  match v with
  | None => false
  | Some JNull => false
  | Some (JBool b) => b
  | Some (JNum n) => negb (n =? 0)
  | Some (JStr s) => negb (String.eqb s "")
  | Some (JArr _) => true
  | Some (JObj _) => true
  end.

(** Thrown values. *)
Inductive exn : Type :=
| Error (msg : string)
| TypeError (msg : string)
| SyntaxError (msg : string).

Fixpoint assoc (k : string) (fields : list (string * json)) : value :=
  match fields with
  | [] => None
  | (k', v) :: rest => if String.eqb k k' then Some v else assoc k rest
  end.

(** [data.k] for a parsed JSON value [data] and one of the keys this code
    reads ([detail], [access_token], [refresh_token], [type], [data],
    [event]); none of them is a property of a primitive or of an array. *)
Definition get_prop (data : json) (k : string) : exn + value :=
  match data with
  | JNull => inl (TypeError ("Cannot read properties of null (reading '" ++ k ++ "')"))
  | JObj fields => inr (assoc k fields)
  | _ => inr undefined
  end.

(** [s.includes(sub)] *)
Fixpoint includes (sub s : string) : bool :=
  String.prefix sub s ||
  match s with
  | EmptyString => false
  | String _ s' => includes sub s'
  end.

(** ** HTTP *)

Inductive Body : Type :=
| BText (s : string)
| BForm (fields : list (string * string)).   (* URLSearchParams *)

(** The [options] argument of [request]. *)
Record Options : Type := mkOptions {
  opt_method : option string;
  opt_headers : gmap string string;
  opt_body : option Body
}.

(** One call of [fetch(url, init)]. *)
Record FetchCall : Type := mkFetchCall {
  url : string;
  method : option string;
  headers : gmap string string;
  body : option Body
}.

(** A [Response].  [json_body] is what [response.json()] resolves to
    ([None]: it rejects), [text_body] what [response.text()] resolves to. *)
Record Response : Type := mkResponse {
  status : Z;
  content_type : option string;      (* response.headers.get('content-type') *)
  json_body : option json;
  text_body : string
}.

(** [response.ok] *)
Definition ok (r : Response) : bool := (200 <=? status r) && (status r <=? 299).

(** [contentType && contentType.includes('application/json')] *)
Definition is_json (response : Response) : bool :=
  match content_type response with
  | Some ct => negb (String.eqb ct "") && includes "application/json" ct
  | None => false
  end.

(** How a [fetch] promise settles. *)
Inductive FetchResult : Type :=
| Resolved (r : Response)
| Rejected (e : exn).                 (* network-layer failure *)

(** ** Browser state seen by the client *)

(** The token field of the shared [api] object and the store.  Storage
    that refuses a write (quota, storage switched off) is left out. *)
Record State : Type := mkState {
  token : value;                          (* api.token *)
  localStorage : gmap string string;
  reloads : nat                           (* calls of window.location.reload() *)
}.

Definition set_token (v : value) (s : State) : State :=
  mkState v (localStorage s) (reloads s).
Definition setItem (k v : string) (s : State) : State :=
  mkState (token s) (<[k := v]> (localStorage s)) (reloads s).
Definition removeItem (k : string) (s : State) : State :=
  mkState (token s) (delete k (localStorage s)) (reloads s).
Definition reload (s : State) : State :=
  mkState (token s) (localStorage s) (S (reloads s)).

(** [localStorage.getItem(k)]: a string or [null]. *)
Definition getItem (k : string) (s : State) : value :=
  match localStorage s !! k with
  | Some v => Some (JStr v)
  | None => null
  end.

(** ** Asynchronous computations *)

Inductive outcome (A : Type) : Type :=
| Returned (a : A)
| Threw (e : exn).
Arguments Returned {A} a.
Arguments Threw {A} e.

Inductive async (A : Type) : Type :=
| Return (a : A)
| Throw (e : exn)
| GetState (k : State → async A)
| SetState (s : State) (k : async A)
| Fetch (c : FetchCall) (k : FetchResult → async A)   (* fetch(...) called, then awaited *)
| Await (k : async A).                                 (* await of a promise that needs no input *)
Arguments Return {A} a.
Arguments Throw {A} e.
Arguments GetState {A} k.
Arguments SetState {A} s k.
Arguments Fetch {A} c k.
Arguments Await {A} k.

Fixpoint bind {A B : Type} (p : async A) (f : A → async B) : async B :=
  match p with
  | Return a => f a
  | Throw e => Throw e
  | GetState k => GetState (λ s, bind (k s) f)
  | SetState s k => SetState s (bind k f)
  | Fetch c k => Fetch c (λ r, bind (k r) f)
  | Await k => Await (bind k f)
  end.

#[export] Instance async_ret : MRet async := @Return.
#[export] Instance async_bind : MBind async := λ A B f p, bind p f.

(** [try { p } catch (e) { h e }] *)
Fixpoint try_catch {A : Type} (p : async A) (h : exn → async A) : async A :=
  match p with
  | Return a => Return a
  | Throw e => h e
  | GetState k => GetState (λ s, try_catch (k s) h)
  | SetState s k => SetState s (try_catch k h)
  | Fetch c k => Fetch c (λ r, try_catch (k r) h)
  | Await k => Await (try_catch k h)
  end.

Definition get : async State := GetState Return.
Definition modify (f : State → State) : async unit :=
  GetState (λ s, SetState (f s) (Return tt)).
Definition lift {A : Type} (x : exn + A) : async A :=
  match x with
  | inl e => Throw e
  | inr a => Return a
  end.

(** [await fetch(url, init)] *)
Definition fetch (c : FetchCall) : async Response :=
  Fetch c (λ r, match r with
                | Resolved x => Return x
                | Rejected e => Throw e
                end).

(** [await response.json()] *)
Definition await_json (r : Response) : async json :=
  Await (match json_body r with
         | Some d => Return d
         | None => Throw (SyntaxError "Unexpected end of JSON input")
         end).

(** [await response.text()] *)
Definition await_text (r : Response) : async string :=
  Await (Return (text_body r)).

(** [await p] for the promise of an async call [p], and the adoption of
    a promise returned from an async function: [p] runs up to its end,
    the waiting side resumes in a later microtask. *)
Definition await_call {A : Type} (p : async A) : async A :=
  try_catch (x ← p; Await (Return x)) (λ e, Await (Throw e)).

(** ** ApiClient *)

Definition API_BASE_URL : string := "http://localhost:8000/api".

Module ApiClient.

Definition baseUrl : string := API_BASE_URL.

(** [constructor()] *)
Definition constructor : async unit :=
  s ← get;
  modify (set_token (getItem "access_token" s)).

Definition setToken (tok : value) : async unit :=
  modify (set_token tok);;
  modify (setItem "access_token" (to_string tok)).

Definition clearToken : async unit :=
  modify (set_token null);;
  modify (removeItem "access_token");;
  modify (removeItem "refresh_token").

Definition handleResponse (response : Response) : async value :=
  if status response =? 204 then
    Return null
  else if is_json response then
    data ← await_json response;
    if negb (ok response) then
      detail ← lift (get_prop data "detail");
      Throw (Error (if truthy detail then to_string detail else "Request failed"))
    else
      Return (Some data)
  else if negb (ok response) then
    Throw (Error "Request failed")
  else
    txt ← await_text response;
    Return (Some (JStr txt)).

Definition refresh_call (refreshToken : string) : FetchCall :=
  {| url := baseUrl ++ "/auth/refresh?refresh_token=" ++ refreshToken;
     method := Some "POST";
     headers := ∅;
     body := None |}.

Definition refreshToken : async bool :=
  s ← get;
  let refreshToken := getItem "refresh_token" s in
  if negb (truthy refreshToken) then
    Return false
  else
    try_catch
      (response ← fetch (refresh_call (to_string refreshToken));
       if ok response then
         data ← await_json response;
         access ← lift (get_prop data "access_token");
         setToken access;;
         refresh ← lift (get_prop data "refresh_token");
         modify (setItem "refresh_token" (to_string refresh));;
         Return true
       else
         Return false)
      (λ error, (* console.error *) Return false).

Definition login_call (username password : string) : FetchCall :=
  {| url := baseUrl ++ "/auth/login";
     method := Some "POST";
     headers := {[ "Content-Type" := "application/x-www-form-urlencoded" ]};
     body := Some (BForm [("username", username); ("password", password)]) |}.

Definition login (username password : string) : async value :=
  response ← fetch (login_call username password);
  data ← await_json response;
  if negb (ok response) then
    detail ← lift (get_prop data "detail");
    Throw (Error (if truthy detail then to_string detail else "Login failed"))
  else
    access ← lift (get_prop data "access_token");
    setToken access;;
    refresh ← lift (get_prop data "refresh_token");
    modify (setItem "refresh_token" (to_string refresh));;
    Return (Some data).

(** [fetch(url, { ...options, headers })] *)
Definition request_call (url : string) (options : Options)
    (headers : gmap string string) : FetchCall :=
  {| url := url;
     method := opt_method options;
     headers := headers;
     body := opt_body options |}.

Definition bearer (tok : value) : string := "Bearer " ++ to_string tok.

(** The [headers] object built at the top of [request]. *)
Definition request_headers (options : Options) (tok : value) : gmap string string :=
  let headers := opt_headers options ∪ {[ "Content-Type" := "application/json" ]} in
  if truthy tok then <[ "Authorization" := bearer tok ]> headers else headers.

(** [request(endpoint, options)].  A [return this.handleResponse(...)]
    inside the [try] hands the promise back without awaiting it, so the
    [try] block yields that promise and it is adopted afterwards. *)
Definition request (endpoint : string) (options : Options) : async value :=
  let url := baseUrl ++ endpoint in
  s ← get;
  let headers := request_headers options (token s) in
  result ← try_catch
    (response ← fetch (request_call url options headers);
     if status response =? 401 then
       refreshed ← await_call refreshToken;
       if refreshed : bool then
         s' ← get;
         let headers := <[ "Authorization" := bearer (token s') ]> headers in
         retryResponse ← fetch (request_call url options headers);
         Return (handleResponse retryResponse)
       else
         clearToken;;
         modify reload;;
         Throw (Error "Session expired")
     else
       Return (handleResponse response))
    (λ error, (* console.error *) Throw error);
  await_call result.

End ApiClient.

(** ** Running asynchronous code *)

(** A call that has started is parked at a suspension point or settled. *)
Inductive task (A : Type) : Type :=
| Settled (o : outcome A)
| Fetching (c : FetchCall) (k : FetchResult → async A)
| Suspended (k : async A).
Arguments Settled {A} o.
Arguments Fetching {A} c k.
Arguments Suspended {A} k.

(** Run to the next suspension point: nothing else runs in between. *)
Fixpoint run_block {A : Type} (p : async A) (s : State) : task A * State :=
  match p with
  | Return a => (Settled (Returned a), s)
  | Throw e => (Settled (Threw e), s)
  | GetState k => run_block (k s) s
  | SetState s' k => run_block k s'
  | Fetch c k => (Fetching c k, s)
  | Await k => (Suspended k, s)
  end.

(** The calls of [fetch] a block ends with. *)
Definition issued {A : Type} (t : task A) : list FetchCall :=
  match t with
  | Fetching c _ => [c]
  | _ => []
  end.

(** How a call that ran alone ended. *)
Record Run (A : Type) : Type := mkRun {
  result : outcome A;
  final : State;
  calls : list FetchCall;          (* the calls of fetch, in order *)
  unused : list FetchResult        (* what is left of [rs] *)
}.
Arguments mkRun {A} result final calls unused.
Arguments result {A} r.
Arguments final {A} r.
Arguments calls {A} r.
Arguments unused {A} r.

Definition after_call {A : Type} (c : FetchCall) (r : Run A) : Run A :=
  mkRun (result r) (final r) (c :: calls r) (unused r).

(** One call running alone: every [fetch] settles with the next entry of
    [rs], every other suspension resumes at once.  [None] when [rs] runs
    out before the call settles. *)
Fixpoint run_alone {A : Type} (p : async A) (rs : list FetchResult) (s : State)
    : option (Run A) :=
  match p with
  | Return a => Some (mkRun (Returned a) s [] rs)
  | Throw e => Some (mkRun (Threw e) s [] rs)
  | GetState k => run_alone (k s) rs s
  | SetState s' k => run_alone k rs s'
  | Fetch c k =>
      match rs with
      | [] => None
      | r :: rs' => after_call c <$> run_alone (k r) rs' s
      end
  | Await k => run_alone k rs s
  end.

(** ** Logically concurrent calls *)

(** The methods of the shared [api] object. *)
Inductive op : Type :=
| Construct
| SetToken (tok : value)
| ClearToken
| Login (username password : string)
| RefreshToken
| Request (endpoint : string) (options : Options).

Definition program (o : op) : async value :=
  match o with
  | Construct => ApiClient.constructor;; Return undefined
  | SetToken tok => ApiClient.setToken tok;; Return undefined
  | ClearToken => ApiClient.clearToken;; Return undefined
  | Login u p => ApiClient.login u p
  | RefreshToken => b ← ApiClient.refreshToken; Return (Some (JBool b))
  | Request endpoint options => ApiClient.request endpoint options
  end.

Record System : Type := mkSystem {
  state : State;
  tasks : list (task value);                       (* calls started so far *)
  network : list FetchCall;                        (* calls of fetch, in order *)
  delivered : list (FetchCall * FetchResult)       (* settled fetches, in order *)
}.

Definition boot (s : State) : System := mkSystem s [] [] [].

Inductive event : Type :=
| Call (o : op)                          (* a method of [api] is called *)
| Respond (i : nat) (r : FetchResult)    (* the fetch awaited by call [i] settles *)
| Resume (i : nat).                      (* suspended call [i] gets its turn *)

Definition step (ev : event) (σ : System) : System :=
  match ev with
  | Call o =>
      let '(t, s') := run_block (program o) (state σ) in
      mkSystem s' (tasks σ ++ [t]) (network σ ++ issued t) (delivered σ)
  | Respond i r =>
      match tasks σ !! i with
      | Some (Fetching c k) =>
          let '(t, s') := run_block (k r) (state σ) in
          mkSystem s' (<[i := t]> (tasks σ)) (network σ ++ issued t)
                   (delivered σ ++ [(c, r)])
      | _ => σ
      end
  | Resume i =>
      match tasks σ !! i with
      | Some (Suspended k) =>
          let '(t, s') := run_block k (state σ) in
          mkSystem s' (<[i := t]> (tasks σ)) (network σ ++ issued t) (delivered σ)
      | _ => σ
      end
  end.

Definition exec (evs : list event) (σ : System) : System :=
  foldl (λ σ ev, step ev σ) σ evs.

(** ** Outcomes of a request *)

Definition prepend {A : Type} (cs : list FetchCall) (r : Run A) : Run A :=
  mkRun (result r) (final r) (cs ++ calls r) (unused r).

(** The credential pair a login or renewal response carries: the
    response is [ok], its body parses, and the body is not [null]. *)
Definition credentials (response : Response) : option (value * value) :=
  if ok response then
    match json_body response with
    | Some data =>
        match get_prop data "access_token", get_prop data "refresh_token" with
        | inr access, inr refresh => Some (access, refresh)
        | _, _ => None
        end
    | None => None
    end
  else None.

(** The state after [setToken(access)] and
    [localStorage.setItem('refresh_token', refresh)]. *)
Definition store_credentials (access refresh : value) (s : State) : State :=
  setItem "refresh_token" (to_string refresh)
    (setItem "access_token" (to_string access) (set_token access s)).

(** The state after [clearToken()]. *)
Definition cleared (s : State) : State :=
  removeItem "refresh_token" (removeItem "access_token" (set_token null s)).

Definition first_call (endpoint : string) (options : Options) (s : State) : FetchCall :=
  ApiClient.request_call (ApiClient.baseUrl ++ endpoint) options
    (ApiClient.request_headers options (token s)).

(** The replay: the headers of the first attempt with [Authorization]
    overwritten from the token field as it is after the renewal. *)
Definition replay_call (endpoint : string) (options : Options) (s s' : State) : FetchCall :=
  ApiClient.request_call (ApiClient.baseUrl ++ endpoint) options
    (<[ "Authorization" := ApiClient.bearer (token s') ]>
       (ApiClient.request_headers options (token s))).

(** The state after [clearToken(); window.location.reload()]. *)
Definition expired (s : State) : State := reload (cleared s).

(** What [handleResponse] throws for a response that is not [ok]. *)
Definition rejection (response : Response) : exn :=
  if is_json response then
    match json_body response with
    | Some data =>
        match get_prop data "detail" with
        | inr detail => Error (if truthy detail then to_string detail else "Request failed")
        | inl e => e
        end
    | None => SyntaxError "Unexpected end of JSON input"
    end
  else Error "Request failed".

(** ** The session-expired outcome

    The one place where the client gives a session up:
    [this.clearToken(); window.location.reload(); throw new Error('Session expired')]. *)
Definition session_expired (run : Run value) : Prop :=
  result run = Threw (Error "Session expired") ∧
  token (final run) = null ∧
  localStorage (final run) !! "access_token" = None ∧
  localStorage (final run) !! "refresh_token" = None.

(** ** Sample session used by the examples *)

Module Sample.
Definition unauthorized : Response :=
  mkResponse 401 (Some "application/json")
    (Some (JObj [("detail", JStr "Could not validate credentials")])) "".
Definition token_pair (access refresh : string) : Response :=
  mkResponse 200 (Some "application/json")
    (Some (JObj [("access_token", JStr access); ("refresh_token", JStr refresh);
                 ("token_type", JStr "bearer")])) "".
Definition no_content : Response := mkResponse 204 None None "".
Definition empty_record : Response :=
  mkResponse 200 (Some "application/json") (Some (JObj [])) "{}".
Definition logged_in : State :=
  mkState (Some (JStr "A0")) {[ "access_token" := "A0"; "refresh_token" := "R0" ]} 0.
Definition logged_out : State := mkState null ∅ 0.
Definition plain : Options := mkOptions None ∅ None.
Definition offline : exn := TypeError "Failed to fetch".
End Sample.

(** ** Invariants of logically concurrent calls *)

Section Safety.

(** [I h s]: the property of the state [s], given the fetches [h]
    settled so far; [good c r]: what is assumed of the result [r] of the
    call [c]; [allowed o]: the calls considered. *)
Variable I : list (FetchCall * FetchResult) → State → Prop.
Variable good : FetchCall → FetchResult → Prop.
Variable allowed : op → Prop.

(** [keeps Q p h s]: started in state [s], [p] reaches each of its
    suspension points in a state with [I], provided [I] holds again
    whenever it is resumed, and it ends in a state with [Q]. *)
Fixpoint keeps {A : Type}
    (Q : outcome A → list (FetchCall * FetchResult) → State → Prop)
    (p : async A) (h : list (FetchCall * FetchResult)) (s : State) : Prop :=
  match p with
  | Return a => Q (Returned a) h s
  | Throw e => Q (Threw e) h s
  | GetState k => keeps Q (k s) h s
  | SetState s' k => keeps Q k h s'
  | Fetch c k =>
      I h s ∧
      ∀ r h' s', good c r → h ⊆ h' → (c, r) ∈ h' → I h' s' → keeps Q (k r) h' s'
  | Await k =>
      I h s ∧ ∀ h' s', h ⊆ h' → I h' s' → keeps Q k h' s'
  end.

Definition ends_safe {A : Type}
    : outcome A → list (FetchCall * FetchResult) → State → Prop :=
  λ _ h s, I h s.

Definition task_keeps (h : list (FetchCall * FetchResult)) (t : task value) : Prop :=
  match t with
  | Settled _ => True
  | Fetching c k =>
      ∀ r h' s', good c r → h ⊆ h' → (c, r) ∈ h' → I h' s' → keeps ends_safe (k r) h' s'
  | Suspended k => ∀ h' s', h ⊆ h' → I h' s' → keeps ends_safe k h' s'
  end.

Definition system_keeps (σ : System) : Prop :=
  I (delivered σ) (state σ) ∧ Forall (task_keeps (delivered σ)) (tasks σ).

(** The calls made are among the ones considered. *)
Definition fair_event (ev : event) : Prop :=
  match ev with
  | Call o => allowed o
  | Respond _ _ | Resume _ => True
  end.

(** The fetches settled in an execution are as assumed. *)
Definition fair_results (σ : System) : Prop :=
  ∀ c r, (c, r) ∈ delivered σ → good c r.

End Safety.

(** ** Properties of the stored credentials *)

(** The token field and the [access_token] entry of the store hold the
    same string, or the field is null and the store has no entry. *)
Definition synced (s : State) : Prop :=
  match localStorage s !! "access_token" with
  | Some v => token s = Some (JStr v)
  | None => token s = null
  end.

Definition is_string (v : value) : Prop :=
  match v with
  | Some (JStr _) => True
  | _ => False
  end.

(** [setToken] is called with a string. *)
Definition string_argument (o : op) : Prop :=
  match o with
  | SetToken tok => is_string tok
  | _ => True
  end.

(** What a reader of the store sees. *)
Definition stored_pair (s : State) : option string * option string :=
  (localStorage s !! "access_token", localStorage s !! "refresh_token").

Definition pair_of (access refresh : value) : option string * option string :=
  (Some (to_string access), Some (to_string refresh)).

(** A call of the renewal or of the login endpoint. *)
Definition credential_call (c : FetchCall) : Prop :=
  (∃ refreshToken, c = ApiClient.refresh_call refreshToken) ∨
  (∃ username password, c = ApiClient.login_call username password).

(** The access token of a credential-bearing response to a login or
    renewal call is a string; nothing is asked of the response to any
    other call. *)
Definition string_tokens (c : FetchCall) (r : FetchResult) : Prop :=
  credential_call c →
  match r with
  | Resolved response =>
      match credentials response with
      | Some (access, _) => is_string access
      | None => True
      end
  | Rejected _ => True
  end.

(** [access] and the pair [p] are the credentials carried by one
    response to a renewal or login call among the settled fetches [h]:
    its [access_token] as the token field gets it, and its two tokens
    as the store gets them. *)
Definition carried (h : list (FetchCall * FetchResult))
    (access : value) (p : option string * option string) : Prop :=
  ∃ c response refresh,
    (c, Resolved response) ∈ h ∧ credential_call c ∧
    credentials response = Some (access, refresh) ∧
    p = pair_of access refresh.

(** What the readers of the session get comes from one source.  The
    stored pair is the initial one [p0], the cleared one, or the pair of
    one single response: never the access credential of one and the
    refresh credential of another.  And the token field, from which
    [request] takes the access credential it sends, is the access
    credential of that same source ([t0], [null], the [access_token] of
    that response), or that credential as the constructor reads it back
    from the store. *)
Definition matched (t0 : value) (p0 : option string * option string)
    (h : list (FetchCall * FetchResult)) (s : State) : Prop :=
  ∃ t,
    (token s = t ∨ token s = getItem "access_token" s) ∧
    ((t = t0 ∧ stored_pair s = p0) ∨
     (t = null ∧ stored_pair s = (None, None)) ∨
     carried h t (stored_pair s)).

(** What a request sends as [Authorization] is the stored access
    credential. *)
Definition sends_stored (s : State) : Prop :=
  ∀ access, localStorage s !! "access_token" = Some access →
            ApiClient.bearer (token s) = "Bearer " ++ access.

(** The calls the pages make on the session: all but a bare [setToken],
    which only [login] and [refreshToken] call. *)
Definition session_op (o : op) : Prop :=
  match o with
  | SetToken _ => False
  | _ => True
  end.

Definition any_result (c : FetchCall) (r : FetchResult) : Prop := True.

Definition call_all (reqs : list (string * Options)) : list event :=
  map (λ eo, Call (Request eo.1 eo.2)) reqs.

(** The first attempts of the calls [first], [first + 1], ... are
    answered, in this order, with the responses [rs]. *)
Definition respond_all (first : nat) (rs : list Response) : list event :=
  imap (λ i r, Respond (first + i) (Resolved r)) rs.

(** A request parked at its first [fetch]. *)
Definition started (s : State) (eo : string * Options) : task value :=
  (run_block (ApiClient.request eo.1 eo.2) s).1.

(** A call parked at the [fetch] of a renewal. *)
Definition awaiting_renewal (refreshToken : string) (t : task value) : Prop :=
  ∃ k, t = Fetching (ApiClient.refresh_call refreshToken) k.

Definition is_renewal_call (c : FetchCall) : bool :=
  String.prefix (ApiClient.baseUrl ++ "/auth/refresh") (url c).

(** * The live channel of [App] *)

Module App.

Definition wsUrl : string := "ws://localhost:8000/ws/live".

Inductive readyState : Type := CONNECTING | OPEN | CLOSED.

(** What a pending [setTimeout] will call. *)
Inductive callback : Type :=
| Reconnect.                         (* () => this.connectWebSocket() *)

(** A call of one of the three message handlers. *)
Inductive invocation : Type :=
| NewAlert (alert : value)                    (* this.handleNewAlert(message.data) *)
| DeviceUpdate (device event : value)         (* this.handleDeviceUpdate(message.data, message.event) *)
| ScanUpdate (data : value).                  (* this.handleScanUpdate(message.data) *)

(** What the browser delivers to the page. *)
Inductive input : Type :=
| SocketOpen (i : nat)
| SocketError (i : nat)
| SocketClose (i : nat)
| SocketMessage (i : nat) (frame : option json)   (* event.data parsed; None: not JSON *)
| Timeout (j : nat).                              (* pending timer j fires *)

Section Channel.

(** The rest of the page (DOM with its toasts and their timers, the
    managers, [isScanning], [currentPage]) and the methods that work on
    it alone; each may throw. *)
Variable Page : Type.
Variable updateConnectionStatus : string → Page → Page * option exn.
Variable handleNewAlert : value → Page → Page * option exn.
Variable handleDeviceUpdate : value → value → Page → Page * option exn.
Variable handleScanUpdate : value → Page → Page * option exn.

Record Browser : Type := mkBrowser {
  websocket : option nat;                  (* this.websocket, an index into [sockets] *)
  page : Page;
  sockets : list (string * readyState);    (* the WebSocket objects made so far *)
  timers : list (nat * callback);          (* pending setTimeout(callback, delay) of the channel *)
  handled : list invocation;               (* handler calls so far, in order *)
  ws_blocked : bool                        (* new WebSocket(wsUrl) throws on this page *)
}.

(** Synchronous code of the page. *)
Definition js (A : Type) : Type := Browser → Browser * outcome A.

Definition ret {A : Type} (a : A) : js A := λ b, (b, Returned a).
Definition throw {A : Type} (e : exn) : js A := λ b, (b, Threw e).
Definition seq {A B : Type} (m : js A) (f : A → js B) : js B :=
  λ b, match m b with
       | (b', Returned a) => f a b'
       | (b', Threw e) => (b', Threw e)
       end.
Definition try_ {A : Type} (m : js A) (handler : exn → js A) : js A :=
  λ b, match m b with
       | (b', Returned a) => (b', Returned a)
       | (b', Threw e) => handler e b'
       end.

Definition on_page (f : Page → Page * option exn) : js unit :=
  λ b, let '(p, e) := f (page b) in
       (mkBrowser (websocket b) p (sockets b) (timers b) (handled b) (ws_blocked b),
        match e with
        | Some e => Threw e
        | None => Returned tt
        end).

Definition new_WebSocket (url : string) : js nat :=
  λ b, if ws_blocked b then (b, Threw (Error "SecurityError"))
       else (mkBrowser (websocket b) (page b) (sockets b ++ [(url, CONNECTING)])
               (timers b) (handled b) (ws_blocked b),
             Returned (length (sockets b))).

Definition set_websocket (ws : nat) : js unit :=
  λ b, (mkBrowser (Some ws) (page b) (sockets b) (timers b) (handled b) (ws_blocked b),
        Returned tt).

Definition setTimeout (cb : callback) (delay : nat) : js unit :=
  λ b, (mkBrowser (websocket b) (page b) (sockets b) (timers b ++ [(delay, cb)])
          (handled b) (ws_blocked b),
        Returned tt).

Definition invoke (call : invocation) : js unit :=
  seq (λ b, (mkBrowser (websocket b) (page b) (sockets b) (timers b)
               (handled b ++ [call]) (ws_blocked b), Returned tt))
      (λ _, on_page match call with
                    | NewAlert alert => handleNewAlert alert
                    | DeviceUpdate device event => handleDeviceUpdate device event
                    | ScanUpdate data => handleScanUpdate data
                    end).

(** [connectWebSocket()]; the four handlers it installs on the new
    socket follow. *)
Definition connectWebSocket : js unit :=
  try_ (seq (new_WebSocket wsUrl) set_websocket)
       (λ error, on_page (updateConnectionStatus "disconnected")).

Definition onopen : js unit :=
  on_page (updateConnectionStatus "connected").

Definition onclose : js unit :=
  seq (on_page (updateConnectionStatus "disconnected"))
      (λ _, setTimeout Reconnect 5000).

Definition onerror : js unit :=
  on_page (updateConnectionStatus "disconnected").

Definition handleWebSocketMessage (message : json) : js unit :=
  match get_prop message "type" with
  | inl e => throw e
  | inr type =>
      match type with
      | Some (JStr t) =>
          if String.eqb t "alert" then
            match get_prop message "data" with
            | inr data => invoke (NewAlert data)
            | inl e => throw e
            end
          else if String.eqb t "device_update" then
            match get_prop message "data", get_prop message "event" with
            | inr data, inr event => invoke (DeviceUpdate data event)
            | inl e, _ => throw e
            | _, inl e => throw e
            end
          else if String.eqb t "scan_update" then
            match get_prop message "data" with
            | inr data => invoke (ScanUpdate data)
            | inl e => throw e
            end
          else ret tt
      | _ => ret tt
      end
  end.

Definition onmessage (frame : option json) : js unit :=
  match frame with
  | Some message => handleWebSocketMessage message    (* JSON.parse(event.data) *)
  | None => throw (SyntaxError "Unexpected token")
  end.

(** The browser runs a handler; an exception that leaves it is
    reported on the console and ends this handler only. *)
Definition dispatch (handler : js unit) (b : Browser) : Browser := (handler b).1.

Definition set_readyState (i : nat) (st : readyState) (b : Browser) : Browser :=
  mkBrowser (websocket b) (page b)
    (alter (λ s, (s.1, st)) i (sockets b))
    (timers b) (handled b) (ws_blocked b).

Definition clear_timer (j : nat) (b : Browser) : Browser :=
  mkBrowser (websocket b) (page b) (sockets b) (delete j (timers b))
    (handled b) (ws_blocked b).

Definition handle (ev : input) (b : Browser) : Browser :=
  match ev with
  | SocketOpen i =>
      match sockets b !! i with
      | Some (_, CONNECTING) => dispatch onopen (set_readyState i OPEN b)
      | _ => b
      end
  | SocketError i =>
      match sockets b !! i with
      | Some (_, (CONNECTING | OPEN)) => dispatch onerror b
      | _ => b
      end
  | SocketClose i =>
      match sockets b !! i with
      | Some (_, (CONNECTING | OPEN)) => dispatch onclose (set_readyState i CLOSED b)
      | _ => b
      end
  | SocketMessage i frame =>
      match sockets b !! i with
      | Some (_, OPEN) => dispatch (onmessage frame) b
      | _ => b
      end
  | Timeout j =>
      match timers b !! j with
      | Some (_, Reconnect) => dispatch connectWebSocket (clear_timer j b)
      | None => b
      end
  end.

Definition run (evs : list input) (b : Browser) : Browser :=
  foldl (λ b ev, handle ev b) b evs.

(** The newest socket is not closed, nothing is pending, and sockets
    can be made. *)
Definition attached (b : Browser) : Prop :=
  timers b = [] ∧ ws_blocked b = false ∧
  ∃ u st, sockets b !! (length (sockets b) - 1)%nat = Some (u, st) ∧ st ≠ CLOSED.

(** The newest socket closes, then the timer this set fires. *)
Definition round (b : Browser) : Browser :=
  handle (Timeout 0) (handle (SocketClose (length (sockets b) - 1)) b).

(** What the handler of a call does to the page, whether it returns or
    throws on the way. *)
Definition effect (call : invocation) (p : Page) : Page :=
  match call with
  | NewAlert alert => (handleNewAlert alert p).1
  | DeviceUpdate device event => (handleDeviceUpdate device event p).1
  | ScanUpdate data => (handleScanUpdate data p).1
  end.

End Channel.

(** The handler call a frame has to cause: by the [type] of the
    decoded message. *)
Definition expected (frame : option json) : option invocation :=
  match frame with
  | Some (JObj fields) =>
      match assoc "type" fields with
      | Some (JStr t) =>
          if String.eqb t "alert" then Some (NewAlert (assoc "data" fields))
          else if String.eqb t "device_update" then
            Some (DeviceUpdate (assoc "data" fields) (assoc "event" fields))
          else if String.eqb t "scan_update" then Some (ScanUpdate (assoc "data" fields))
          else None
      | _ => None
      end
  | _ => None
  end.

(** A page for the examples: the page state counts the handler runs
    that completed; [handleNewAlert] always throws. *)
Definition status_shown (st : string) (p : nat) : nat * option exn := (p, None).
Definition alert_throws (alert : value) (p : nat) : nat * option exn :=
  (p, Some (TypeError "Cannot read properties of null (reading 'appendChild')")).
Definition device_counted (device event : value) (p : nat) : nat * option exn :=
  (S p, None).
Definition scan_counted (data : value) (p : nat) : nat * option exn := (S p, None).

Definition sample_handle : input → Browser nat → Browser nat :=
  handle nat status_shown alert_throws device_counted scan_counted.
Definition sample_run : list input → Browser nat → Browser nat :=
  run nat status_shown alert_throws device_counted scan_counted.

Definition alert_frame : option json :=
  Some (JObj [("type", JStr "alert");
              ("data", JObj [("message", JStr "New device detected: AA:BB:CC:DD:EE:FF")])]).
Definition device_frame : option json :=
  Some (JObj [("type", JStr "device_update"); ("event", JStr "discovered");
              ("data", JObj [("mac_address", JStr "AA:BB:CC:DD:EE:FF")])]).

(** A page with one open socket. *)
Definition online : Browser nat :=
  mkBrowser nat (Some 0%nat) 0%nat [(wsUrl, OPEN)] [] [] false.

(** A page on which [new WebSocket(wsUrl)] throws, after its first
    [connectWebSocket()]. *)
Definition blocked : Browser nat :=
  dispatch nat (connectWebSocket nat status_shown)
    (mkBrowser nat None 0%nat [] [] [] true).

(** ** The handler of alerts

    [handleNewAlert] as the page has it, on the part of the page it
    works on. *)
Module Alerts.

Record t : Type := mk {
  toastContainer : bool;            (* the element [toastContainer] is in the document *)
  shown : list (string * string);   (* the toasts appended so far: message and type *)
  alertCount : option Z;            (* what [parseInt] makes of the text of the badge
                                       [alertCount]; [None]: not a number *)
  currentPage : string;             (* this.currentPage *)
  alert_loads : nat                 (* calls of alertsManager.loadAlerts() *)
}.

(** [showToast(message, type)]: without the container, [appendChild]
    is read from [null]. *)
Definition showToast (message : value) (type : string) (p : t) : t * option exn :=
  if toastContainer p then
    (mk true (shown p ++ [(to_string message, type)]) (alertCount p) (currentPage p)
       (alert_loads p), None)
  else (p, Some (TypeError "Cannot read properties of null (reading 'appendChild')")).

(** [alertsManager.updateAlertCount(count)] *)
Definition updateAlertCount (count : option Z) (p : t) : t :=
  mk (toastContainer p) (shown p) count (currentPage p) (alert_loads p).

(** [alertsManager.loadAlerts()], as a call made *)
Definition loadAlerts (p : t) : t :=
  mk (toastContainer p) (shown p) (alertCount p) (currentPage p) (S (alert_loads p)).

(** [handleNewAlert(alert)] *)
Definition handleNewAlert (alert : value) (p : t) : t * option exn :=
  match alert with
  | None => (p, Some (TypeError "Cannot read properties of undefined (reading 'message')"))
  | Some a =>
      match get_prop a "message" with
      | inl e => (p, Some e)
      | inr message =>
          match showToast message "warning" p with
          | (p, Some e) => (p, Some e)
          | (p, None) =>
              let count := (λ n, n + 1) <$> alertCount p in
              let p := updateAlertCount count p in
              if String.eqb (currentPage p) "alerts" then (loadAlerts p, None)
              else (p, None)
          end
      end
  end.

(** The other methods of the page, which the runs below do not reach. *)
Definition unchanged (p : t) : t * option exn := (p, None).

(** The alerts page with an open socket, 2 in the badge, and the toast
    container in the document or not. *)
Definition alerts_page (container : bool) : Browser t :=
  mkBrowser t (Some 0%nat) (mk container [] (Some 2) "alerts" 0) [(wsUrl, OPEN)] [] [] false.

Definition receive (frames : list (option json)) (b : Browser t) : Browser t :=
  run t (λ _, unchanged) handleNewAlert (λ _ _, unchanged) (λ _, unchanged)
    (map (SocketMessage 0) frames) b.

End Alerts.

End App.

(** * More of the client *)

(** ** What a response decodes to *)

(** The outcome of [handleResponse] for a response. *)
Definition decode (response : Response) : outcome value :=
  if status response =? 204 then Returned null
  else if ok response then
    if is_json response then
      match json_body response with
      | Some data => Returned (Some data)
      | None => Threw (SyntaxError "Unexpected end of JSON input")
      end
    else Returned (Some (JStr (text_body response)))
  else Threw (rejection response).

(** ** The network range of [App.startScan] *)

(** The character written [c]. *)
Definition char (c : string) : Ascii.ascii :=
  match c with
  | String a _ => a
  | EmptyString => Ascii.zero
  end.

(** The regular expressions [startScan] uses. *)
Inductive regex : Type :=
| Digit                                (* \d *)
| Lit (c : Ascii.ascii)                      (* an escaped character: \. and \/ *)
| Cat (r1 r2 : regex)
| Repeat (min max : nat) (r : regex).  (* r{min,max} *)

(** [\d]: one of 0 to 9. *)
Definition is_digit (c : Ascii.ascii) : bool :=
  (48 <=? Ascii.nat_of_ascii c)%nat && (Ascii.nat_of_ascii c <=? 57)%nat.

(** Between [min] and [max] matches of [m] in a row: all the ways to go
    on after them. *)
Fixpoint times (m : string → list string) (min max : nat) (s : string) : list string :=
  match max with
  | O => match min with O => [s] | S _ => [] end
  | S max' =>
      (match min with O => [s] | S _ => [] end ++ (m s ≫= times m (pred min) max'))%list
  end.

(** What can be left of [s] after a match of [r] at its start. *)
Fixpoint remainders (r : regex) (s : string) : list string :=
  match r with
  | Digit =>
      match s with
      | String c s' => if is_digit c then [s'] else []
      | EmptyString => []
      end
  | Lit c =>
      match s with
      | String c' s' => if Ascii.eqb c' c then [s'] else []
      | EmptyString => []
      end
  | Cat r1 r2 => remainders r1 s ≫= remainders r2
  | Repeat min max r' => times (remainders r') min max s
  end.

(** [/^r$/.test(s)] *)
Definition regex_test (r : regex) (s : string) : bool :=
  bool_decide ("" ∈ remainders r s).

(** [(\d{1,3}\.){3}] *)
Definition three_octets : regex := Repeat 3 3 (Cat (Repeat 1 3 Digit) (Lit (char "."))).

(** [/^(\d{1,3}\.){3}\d{1,3}\/\d{1,2}$/] *)
Definition cidrPattern : regex :=
  Cat three_octets (Cat (Repeat 1 3 Digit) (Cat (Lit (char "/")) (Repeat 1 2 Digit))).

(** [/^(\d{1,3}\.){3}\d{1,3}$/] *)
Definition ipPattern : regex := Cat three_octets (Repeat 1 3 Digit).

(** [s.split(sep)] for a separator of one character. *)
Fixpoint split (sep : Ascii.ascii) (s : string) : list string :=
  match s with
  | EmptyString => [""]
  | String c s' =>
      if Ascii.eqb c sep then "" :: split sep s'
      else match split sep s' with
           | w :: ws => String c w :: ws
           | [] => [String c ""]
           end
  end.

(** [`${parts[i]}`] *)
Definition part (i : nat) (parts : list string) : string :=
  match parts !! i with
  | Some p => p
  | None => "undefined"
  end.

Module ScanPage.

(** What [startScan] goes on to do, in order. *)
Inductive action : Type :=
| ShowToast (message type : string)                        (* this.showToast(message, type) *)
| PerformScan (networkRange : option string) (scanType : string).
                                      (* this.performScan({ networkRange, scanType }) *)

(** [startScan()], from [range], the trimmed value of the range field,
    and the value of the type field. *)
Definition startScan (range scanType : string) : list action :=
  if String.eqb range "" then
    [PerformScan None scanType]                             (* '' || null *)
  else if regex_test cidrPattern range then
    [PerformScan (Some range) scanType]
  else if regex_test ipPattern range then
    let parts := split (char ".") range in
    let networkRange :=
      part 0 parts ++ "." ++ part 1 parts ++ "." ++ part 2 parts ++ ".0/24" in
    [ShowToast ("Using network range: " ++ networkRange) "info";
     PerformScan (Some networkRange) scanType]
  else
    [ShowToast "Invalid network range format. Use format: 192.168.1.0/24" "error"].

End ScanPage.

(** A string of digits. *)
Fixpoint all_digits (s : string) : bool :=
  match s with
  | EmptyString => true
  | String c s' => is_digit c && all_digits s'
  end.

(** Between [min] and [max] digits. *)
Definition digit_run (min max : nat) (x : string) : Prop :=
  all_digits x = true ∧ (min ≤ String.length x ≤ max)%nat.

(** [a.b.c.d] *)
Definition dotted (a b c d : string) : string := a ++ "." ++ b ++ "." ++ c ++ "." ++ d.

(** An action that starts a scan. *)
Definition is_scan (a : ScanPage.action) : bool :=
  match a with
  | ScanPage.PerformScan _ _ => true
  | ScanPage.ShowToast _ _ => false
  end.

(** ** Query strings *)

(** [parts.join(sep)] *)
Fixpoint join (sep : string) (parts : list string) : string :=
  match parts with
  | [] => ""
  | [p] => p
  | p :: rest => p ++ sep ++ join sep rest
  end.

(** The characters the form serializer of [URLSearchParams] leaves as
    they are: ASCII letters and digits, and [*], [-], [.], [_]. *)
Definition is_unreserved (c : Ascii.ascii) : bool :=
  let n := Ascii.nat_of_ascii c in
  ((48 <=? n) && (n <=? 57) || (65 <=? n) && (n <=? 90) || (97 <=? n) && (n <=? 122)
   || (n =? 42) || (n =? 45) || (n =? 46) || (n =? 95))%nat.

(** An upper-case hexadecimal digit. *)
Definition hex_digit (n : nat) : Ascii.ascii :=
  Ascii.ascii_of_nat (if (n <? 10)%nat then 48 + n else 55 + n).

(** One byte in the serialization: itself, [+] for a space, or [%XX]. *)
Definition urlencode_byte (c : Ascii.ascii) : string :=
  if is_unreserved c then String c ""
  else if Ascii.eqb c (char " ") then "+"
  else let n := Ascii.nat_of_ascii c in
       String (char "%") (String (hex_digit (n / 16)) (String (hex_digit (n mod 16)) "")).

(** The serialization of a name or value, byte by byte of its UTF-8 text. *)
Fixpoint urlencode (s : string) : string :=
  match s with
  | EmptyString => ""
  | String c s' => urlencode_byte c ++ urlencode s'
  end.

(** [name=value] *)
Definition query_pair (p : string * string) : string :=
  urlencode p.1 ++ "=" ++ urlencode p.2.

(** [params.toString()]: what a template literal makes of a
    [URLSearchParams] with the entries [params]. *)
Definition query (params : list (string * string)) : string :=
  join "&" (query_pair <$> params).

(** The value of a hexadecimal digit. *)
Definition hex_value (c : Ascii.ascii) : option nat :=
  let n := Ascii.nat_of_ascii c in
  if (48 <=? n)%nat && (n <=? 57)%nat then Some (n - 48)%nat
  else if (65 <=? n)%nat && (n <=? 70)%nat then Some (n - 55)%nat
  else if (97 <=? n)%nat && (n <=? 102)%nat then Some (n - 87)%nat
  else None.

(** How a server reads a serialized name or value. *)
Fixpoint urldecode (s : string) : string :=
  match s with
  | EmptyString => ""
  | String c s' =>
      if Ascii.eqb c (char "+") then String (char " ") (urldecode s')
      else if Ascii.eqb c (char "%") then
        match s' with
        | String h (String l s'') =>
            match hex_value h, hex_value l with
            | Some x, Some y => String (Ascii.ascii_of_nat (16 * x + y)) (urldecode s'')
            | _, _ => String c (urldecode s')
            end
        | _ => String c (urldecode s')
        end
      else String c (urldecode s')
  end.

(** How a server reads a query string: the sequences between [&] that
    are not empty, each cut at its first [=]. *)
Definition parse_pair (t : string) : string * string :=
  match split (char "=") t with
  | [] => ("", "")
  | name :: rest => (urldecode name, urldecode (join "=" rest))
  end.

Definition parse_query (q : string) : list (string * string) :=
  parse_pair <$> filter (λ t, t ≠ "") (split (char "&") q).

(** [params.get(name)]: the first value under [name]. *)
Fixpoint param (name : string) (params : list (string * string)) : option string :=
  match params with
  | [] => None
  | (k, v) :: rest => if String.eqb k name then Some v else param name rest
  end.

(** The characters of a serialized name or value. *)
Definition is_query_char (c : Ascii.ascii) : bool :=
  is_unreserved c || Ascii.eqb c (char "%") || Ascii.eqb c (char "+").

Fixpoint all_chars (P : Ascii.ascii → bool) (s : string) : bool :=
  match s with
  | EmptyString => true
  | String c s' => P c && all_chars P s'
  end.

(** The characters of a serialized query. *)
Definition is_query_text (c : Ascii.ascii) : bool :=
  is_query_char c || Ascii.eqb c (char "&") || Ascii.eqb c (char "=").

(** No character [c] in [s]. *)
Fixpoint free_of (c : Ascii.ascii) (s : string) : bool :=
  match s with
  | EmptyString => true
  | String c' s' => negb (Ascii.eqb c' c) && free_of c s'
  end.

Module Endpoints.

(** A parameter with a default value: [name = d] in the parameter list. *)
Definition or_default (d : json) (v : value) : value :=
  match v with
  | None => Some d
  | Some _ => v
  end.

(** [getDevices(page, pageSize, filters)]: the entries of its
    [URLSearchParams], in order.  [filters] holds the properties of the
    object that are set. *)
Definition getDevices_params (page pageSize : value) (filters : gmap string json)
    : list (string * string) :=
  [("page", to_string (or_default (JNum 1) page));
   ("page_size", to_string (or_default (JNum 20) pageSize))]
  ++ (if truthy (filters !! "search")
      then [("search", to_string (filters !! "search"))] else [])
  ++ (match filters !! "is_trusted" with
      | Some v => [("is_trusted", to_string (Some v))] | None => [] end)
  ++ (match filters !! "is_suspicious" with
      | Some v => [("is_suspicious", to_string (Some v))] | None => [] end)
  ++ (match filters !! "is_online" with
      | Some v => [("is_online", to_string (Some v))] | None => [] end).

Definition getDevices (page pageSize : value) (filters : gmap string json) : async value :=
  await_call $ ApiClient.request ("/devices?" ++ query (getDevices_params page pageSize filters))
    (mkOptions None ∅ None).

(** [getAlerts(page, pageSize, filters)] *)
Definition getAlerts_params (page pageSize : value) (filters : gmap string json)
    : list (string * string) :=
  [("page", to_string (or_default (JNum 1) page));
   ("page_size", to_string (or_default (JNum 20) pageSize))]
  ++ (if truthy (filters !! "alert_type")
      then [("alert_type", to_string (filters !! "alert_type"))] else [])
  ++ (if truthy (filters !! "severity")
      then [("severity", to_string (filters !! "severity"))] else [])
  ++ (match filters !! "is_acknowledged" with
      | Some v => [("is_acknowledged", to_string (Some v))] | None => [] end).

Definition getAlerts (page pageSize : value) (filters : gmap string json) : async value :=
  await_call $ ApiClient.request ("/alerts?" ++ query (getAlerts_params page pageSize filters))
    (mkOptions None ∅ None).

End Endpoints.

(** ** The device list *)

Module DevicesManager.

(** The fields of the manager that decide what is asked for
    ([devices], the list shown, is left out). *)
Record t : Type := mk {
  currentPage : value;
  pageSize : value;
  filters : gmap string json
}.

Definition constructor : t := mk (Some (JNum 1)) (Some (JNum 20)) ∅.

(** The call of [api.getDevices] that [loadDevices] makes, once the grid
    shows the spinner. *)
Definition loadDevices_call (m : t) : async value :=
  Endpoints.getDevices (currentPage m) (pageSize m) (filters m).

(** [setFilter(key, value)], up to its call of [loadDevices]. *)
Definition setFilter (key : string) (v : value) (m : t) : t :=
  let filters :=
    match v with
    | None => delete key (filters m)
    | Some (JStr "") => delete key (filters m)
    | Some j => <[ key := j ]> (filters m)
    end in
  mk (Some (JNum 1)) (pageSize m) filters.

Definition search (query : string) (m : t) : t :=
  setFilter "search" (Some (JStr query)) m.

(** The two controls above the list, as [setupEventListeners] wires
    them: text typed into the search box, and a choice of the filter
    menu. *)
Inductive event : Type :=
| Input (text : string)
| Change (choice : string).

(** The listener of the event, up to its call of [loadDevices]. *)
Definition handle (m : t) (ev : event) : t :=
  match ev with
  | Input text => search text m
  | Change choice =>
      let m := mk (currentPage m) (pageSize m) ∅ in
      if String.eqb choice "online" then setFilter "is_online" (Some (JBool true)) m
      else if String.eqb choice "trusted" then setFilter "is_trusted" (Some (JBool true)) m
      else if String.eqb choice "suspicious" then setFilter "is_suspicious" (Some (JBool true)) m
      else m
  end.

(** The manager after the events [evs], from a fresh page. *)
Definition after (evs : list event) : t := foldl handle constructor evs.

(** The filter a choice of the menu stands for. *)
Definition flag_of (choice : string) : list (string * string) :=
  if String.eqb choice "online" then [("is_online", "true")]
  else if String.eqb choice "trusted" then [("is_trusted", "true")]
  else if String.eqb choice "suspicious" then [("is_suspicious", "true")]
  else [].

End DevicesManager.

(** ** The endpoint methods of the client *)

Module Methods.

(** The argument at position [i] of a call; [undefined] when the call
    gives fewer. *)
Definition arg (i : nat) (args : list value) : value := default undefined (args !! i).

(** [this.request(endpoint)] and [this.request(endpoint, { method })], as
    the body of an async method. *)
Definition read (endpoint : string) : async value :=
  await_call $ ApiClient.request endpoint (mkOptions None ∅ None).
Definition send (method endpoint : string) : async value :=
  await_call $ ApiClient.request endpoint (mkOptions (Some method) ∅ None).

Definition getCurrentUser : async value := read "/auth/me".

(** The methods of [ApiClient] whose body only fills in an endpoint, in
    the order of the class body.  ([getDevices] and [getAlerts] are in
    [Endpoints]; [updateDevice] and [startScan], which send a JSON body,
    are not modelled here; all four names are declared once.) *)
Definition declared : list (string * (list value → async value)) :=
  [ ("getCurrentUser", λ _, getCurrentUser);
    ("getDashboardStats", λ _, read "/dashboard/stats");
    ("getActivityTimeline", λ args,
       read ("/dashboard/activity?hours="
             ++ to_string (Endpoints.or_default (JNum 24) (arg 0 args))));
    ("getDeviceHistory", λ args,
       read ("/dashboard/device-history?days="
             ++ to_string (Endpoints.or_default (JNum 7) (arg 0 args))));
    ("getNetworkInfo", λ _, read "/dashboard/network-info");
    ("getSignalInfo", λ _, read "/dashboard/signal-info");
    ("getMlStatus", λ _, read "/dashboard/ml/status");
    ("trainModels", λ _, send "POST" "/dashboard/ml/train");
    ("getDevice", λ args, read ("/devices/" ++ to_string (arg 0 args)));
    ("deleteDevice", λ args, send "DELETE" ("/devices/" ++ to_string (arg 0 args)));
    ("getDeviceHistory", λ args,
       read ("/devices/" ++ to_string (arg 0 args) ++ "/history?days="
             ++ to_string (Endpoints.or_default (JNum 7) (arg 1 args))));
    ("analyzeDevice", λ args,
       send "POST" ("/devices/" ++ to_string (arg 0 args) ++ "/analyze"));
    ("getScanStatus", λ _, read "/scans/status");
    ("getScanHistory", λ args,
       read ("/scans/history?page=" ++ to_string (Endpoints.or_default (JNum 1) (arg 0 args))
             ++ "&page_size=" ++ to_string (Endpoints.or_default (JNum 20) (arg 1 args))));
    ("getScanResults", λ args, read ("/scans/results/" ++ to_string (arg 0 args)));
    ("getAlertStats", λ _, read "/alerts/stats");
    ("acknowledgeAlert", λ args,
       send "PUT" ("/alerts/" ++ to_string (arg 0 args) ++ "/acknowledge"));
    ("acknowledgeAllAlerts", λ _, send "POST" "/alerts/acknowledge-all");
    ("deleteAlert", λ args, send "DELETE" ("/alerts/" ++ to_string (arg 0 args))) ].

(** [api.name]: of the methods declared under one name, a class keeps
    the last. *)
Definition method (name : string) : option (list value → async value) :=
  last (snd <$> filter (λ d, d.1 = name) declared).

(** [api.name(...args)] *)
Definition call (name : string) (args : list value) : option (async value) :=
  (λ m, m args) <$> method name.

End Methods.

(** [initActivityChart] of the dashboard: its call
    [api.getDeviceHistory(7)], made when the canvas exists. *)
Definition initActivityChart_call : option (async value) :=
  Methods.call "getDeviceHistory" [Some (JNum 7)].

(** ** Signing in *)

(** [error.message] *)
Definition message (error : exn) : string :=
  match error with
  | Error msg | TypeError msg | SyntaxError msg => msg
  end.

Module AuthManager.

(** What a handler of the login page goes on to do with the page. *)
Inductive page : Type :=
| ShowApp (user : value)       (* this.user = user; this.showApp() *)
| ShowLogin                    (* this.showLogin() *)
| LoginError (text : string).  (* this.loginError.textContent = text *)


(** [handleLogin(e)], with the values of the two fields. *)
Definition handleLogin (username password : string) : async page :=
  try_catch
    (_ ← await_call (ApiClient.login username password);
     user ← await_call Methods.getCurrentUser;
     Return (ShowApp user))
    (λ error,
       Return (LoginError (if String.eqb (message error) ""
                           then "Login failed. Please try again."
                           else message error))).

(** [logout()] *)
Definition logout : async page :=
  ApiClient.clearToken;;
  Return ShowLogin.


End AuthManager.

(** ** Scanning *)

Module Scanner.

(** [options.name || fallback] *)
Definition or_else (v : value) (fallback : json) : json :=
  match v with
  | Some j => if truthy v then j else fallback
  | None => fallback
  end.

(** The object [api.startScan(options)] sends as its JSON body. *)
Definition startScan_payload (options : gmap string json) : json :=
  JObj [("network_range", or_else (options !! "networkRange") JNull);
        ("scan_type", or_else (options !! "scanType") (JStr "arp"));
        ("timeout", or_else (options !! "timeout") (JNum 3))].

(** The part of the page that scanning works on: the field
    [isScanning], the toasts shown so far, the [hidden] class of
    [scanProgress], the text and the [badge-warning] class of
    [scanStatusBadge], and the calls of [loadDashboard].  The elements
    looked up by id are taken to be in the document. *)
Record t : Type := mk {
  isScanning : bool;
  toasts : list (string * string);
  scanProgress_hidden : bool;
  badge_text : string;
  badge_warning : bool;
  dashboard_loads : nat
}.

Definition set_isScanning (b : bool) (p : t) : t :=
  mk b (toasts p) (scanProgress_hidden p) (badge_text p) (badge_warning p) (dashboard_loads p).

(** [showToast(message, type)] *)
Definition showToast (message type : string) (p : t) : t :=
  mk (isScanning p) (toasts p ++ [(message, type)]) (scanProgress_hidden p) (badge_text p)
    (badge_warning p) (dashboard_loads p).

(** [x === s] for a string [s] *)
Definition is_str (s : string) (x : value) : bool :=
  match x with
  | Some (JStr x) => String.eqb x s
  | _ => false
  end.

(** [performScan(options)] up to its [await]: the page, and the call
    [api.startScan(options)] when it makes one. *)
Definition performScan_begin (options : gmap string json) (p : t)
    : t * option (gmap string json) :=
  if isScanning p then
    (showToast "Scan already in progress" "warning" p, None)
  else
    (showToast "Starting network scan..." "info" (set_isScanning true p), Some options).

(** [performScan] from its [await] on, once [api.startScan] has
    settled.  A thrown value is an error object: its message, or the
    text [JSON.stringify] gives for it when the message is empty. *)
Definition performScan_end (o : outcome value) (p : t) : t :=
  match o with
  | Returned session =>
      mk (isScanning p) (toasts p) false "Scanning..." true (dashboard_loads p)
  | Threw error =>
      let errorMessage := if String.eqb (message error) "" then "{}" else message error in
      set_isScanning false (showToast errorMessage "error" p)
  end.

(** [handleScanUpdate(data)] *)
Definition handleScanUpdate (data : value) (p : t) : t * option exn :=
  match data with
  | None => (p, Some (TypeError "Cannot read properties of undefined (reading 'status')"))
  | Some d =>
      match get_prop d "status" with
      | inl e => (p, Some e)
      | inr status =>
          if is_str "completed" status || is_str "failed" status then
            let p := mk false (toasts p) true "Idle" false (dashboard_loads p) in
            if is_str "completed" status then
              match get_prop d "total_devices" with
              | inl e => (p, Some e)
              | inr total_devices =>
                  match get_prop d "new_devices" with
                  | inl e => (p, Some e)
                  | inr new_devices =>
                      let p := showToast ("Scan complete: " ++ to_string total_devices
                                          ++ " devices found, " ++ to_string new_devices
                                          ++ " new") "success" p in
                      (mk (isScanning p) (toasts p) (scanProgress_hidden p) (badge_text p)
                         (badge_warning p) (S (dashboard_loads p)), None)
                  end
              end
            else
              match get_prop d "error" with
              | inl e => (p, Some e)
              | inr error => (showToast ("Scan failed: " ++ to_string error) "error" p, None)
              end
          else (p, None)
      end
  end.

(** The options objects [performScan] is called with. *)
Definition startQuickScan_options : gmap string json := {[ "scanType" := JStr "arp" ]}.
Definition startScan_options (networkRange : option string) (scanType : string)
    : gmap string json :=
  {[ "networkRange" := match networkRange with Some r => JStr r | None => JNull end;
     "scanType" := JStr scanType ]}.

(** What happens to the page: a click on one of the two scan buttons
    (with the trimmed range field and the type field for the second), the
    settling of a call of [api.startScan] that a [performScan] awaits,
    and a [scan_update] message. *)
Inductive event : Type :=
| QuickScan
| Scan (range scanType : string)
| StartSettled (o : outcome value)
| Update (data : value).

Record session : Type := mkSession {
  page : t;
  started : list (gmap string json);   (* the calls api.startScan(options), in order *)
  pending : nat                        (* those not settled yet *)
}.

Definition perform (options : gmap string json) (σ : session) : session :=
  match performScan_begin options (page σ) with
  | (p, Some call) => mkSession p (started σ ++ [call]) (S (pending σ))
  | (p, None) => mkSession p (started σ) (pending σ)
  end.

Definition act (σ : session) (a : ScanPage.action) : session :=
  match a with
  | ScanPage.ShowToast message type =>
      mkSession (showToast message type (page σ)) (started σ) (pending σ)
  | ScanPage.PerformScan networkRange scanType =>
      perform (startScan_options networkRange scanType) σ
  end.

Definition step (σ : session) (ev : event) : session :=
  match ev with
  | QuickScan => perform startQuickScan_options σ
  | Scan range scanType => foldl act σ (ScanPage.startScan range scanType)
  | StartSettled o =>
      match pending σ with
      | O => σ
      | S n => mkSession (performScan_end o (page σ)) (started σ) n
      end
  | Update data => mkSession (handleScanUpdate data (page σ)).1 (started σ) (pending σ)
  end.

Definition run (σ : session) (evs : list event) : session := foldl step σ evs.

(** A message that ends a scan. *)
Definition terminal (data : value) : bool :=
  match data with
  | Some d =>
      match get_prop d "status" with
      | inr status => is_str "completed" status || is_str "failed" status
      | inl _ => false
      end
  | None => false
  end.

(** An event that is neither the failure of a start nor the end of a scan. *)
Definition quiet (ev : event) : bool :=
  match ev with
  | StartSettled (Threw _) => false
  | Update data => negb (terminal data)
  | _ => true
  end.

(** A body the scan endpoint is meant to get: a range that is [null] or
    accepted by the range pattern, a scan type, and the timeout 3. *)
Definition validated (payload : json) : Prop :=
  ∃ range scanType,
    payload = JObj [("network_range", range); ("scan_type", JStr scanType);
                    ("timeout", JNum 3)] ∧
    scanType ≠ "" ∧
    (range = JNull ∨ ∃ r, range = JStr r ∧ regex_test cidrPattern r = true).

End Scanner.


(** ** Relative times *)

(** The clock and the [Date] functions that [formatTime] uses:
    [date_of x] is the time value of [new Date(x)] in milliseconds
    ([None] for an invalid date), [now] that of [new Date()], and
    [locale] stands for [toLocaleDateString] or [toLocaleString]. *)
Record Clock : Type := mkClock {
  date_of : json → option Z;
  now : Z;
  locale : option Z → string
}.

(** The three classes with a [formatTime] method. *)
Inductive formatter : Type := OfApp | OfDevicesManager | OfAlertsManager.

(** The texts in which the three methods differ. *)
Definition missing_text (f : formatter) : string :=
  match f with
  | OfDevicesManager => "Never"
  | OfApp | OfAlertsManager => ""
  end.
Definition minutes_text (f : formatter) : string :=
  match f with
  | OfAlertsManager => " minutes ago"
  | OfApp | OfDevicesManager => "m ago"
  end.
Definition hours_text (f : formatter) : string :=
  match f with
  | OfAlertsManager => " hours ago"
  | OfApp | OfDevicesManager => "h ago"
  end.

(** [formatTime(isoString)] of the class [f]. *)
Definition formatTime (f : formatter) (clock : Clock) (isoString : value) : string :=
  match isoString with
  | Some iso =>
      if negb (truthy isoString) then missing_text f
      else
        let date := date_of clock iso in
        match date with
        | Some t =>
            let diff := now clock - t in
            if diff <? 60000 then "Just now"
            else if diff <? 3600000 then pretty (diff / 60000) ++ minutes_text f
            else if diff <? 86400000 then pretty (diff / 3600000) ++ hours_text f
            else locale clock date
        | None => locale clock date      (* every comparison with NaN fails *)
        end
  | None => missing_text f
  end.

(** * Properties *)

(** ** Sequential composition of runs *)

Lemma prepend_nil {A : Type} (r : Run A) : prepend [] r = r.
Proof. by destruct r. Qed.

Lemma run_alone_bind {A B : Type} (p : async A) (f : A → async B) rs s :
  run_alone (p ≫= f) rs s =
  r ← run_alone p rs s;
  match result r with
  | Returned a => prepend (calls r) <$> run_alone (f a) (unused r) (final r)
  | Threw e => Some (mkRun (Threw e) (final r) (calls r) (unused r))
  end.
Proof.
  revert rs s. induction p as [a|e|k IH|s' k IH|c k IH|k IH]; intros rs s; cbn.
  - change (run_alone (f a) rs s = prepend [] <$> run_alone (f a) rs s).
    destruct (run_alone (f a) rs s) as [r|]; cbn; [by rewrite prepend_nil|done].
  - done.
  - apply IH.
  - apply IH.
  - destruct rs as [|r rs']; [done|].
    change (bind (k r) f) with (k r ≫= f). rewrite IH. destruct (run_alone (k r) rs' s) as [[o s1 cs u]|]; cbn; [|done].
    destruct o as [a|e]; cbn; [|done].
    destruct (run_alone (f a) u s1) as [r2|]; cbn; done.
  - apply IH.
Qed.

Lemma run_alone_try_catch {A : Type} (p : async A) (h : exn → async A) rs s :
  run_alone (try_catch p h) rs s =
  r ← run_alone p rs s;
  match result r with
  | Returned a => Some r
  | Threw e => prepend (calls r) <$> run_alone (h e) (unused r) (final r)
  end.
Proof.
  revert rs s. induction p as [a|e|k IH|s' k IH|c k IH|k IH]; intros rs s; cbn.
  - done.
  - destruct (run_alone (h e) rs s) as [r|]; cbn; [by rewrite prepend_nil|done].
  - apply IH.
  - apply IH.
  - destruct rs as [|r rs']; [done|].
    rewrite IH. destruct (run_alone (k r) rs' s) as [[o s1 cs u]|]; cbn; [|done].
    destruct o as [a|e]; cbn; [done|].
    destruct (run_alone (h e) u s1) as [r2|]; cbn; done.
  - apply IH.
Qed.

(** Awaiting a call that runs alone changes nothing but the moment at
    which the caller goes on. *)
Lemma run_alone_await_call {A : Type} (p : async A) rs s :
  run_alone (await_call p) rs s = run_alone p rs s.
Proof.
  unfold await_call. rewrite run_alone_try_catch, run_alone_bind.
  destruct (run_alone p rs s) as [[[a|e] s1 cs u]|]; cbn.
  all: unfold prepend; cbn; rewrite ?app_nil_r; done.
Qed.

(** ** What a renewal does *)

Lemma refreshToken_absent rs s :
  truthy (getItem "refresh_token" s) = false →
  run_alone ApiClient.refreshToken rs s = Some (mkRun (Returned false) s [] rs).
Proof.
  intros H. unfold ApiClient.refreshToken. cbn. rewrite H. done.
Qed.

Lemma refreshToken_run r rest s :
  truthy (getItem "refresh_token" s) = true →
  run_alone ApiClient.refreshToken (r :: rest) s =
  Some (match r with
        | Resolved response =>
            match credentials response with
            | Some (access, refresh) =>
                mkRun (Returned true) (store_credentials access refresh s)
                  [ApiClient.refresh_call (to_string (getItem "refresh_token" s))] rest
            | None =>
                mkRun (Returned false) s
                  [ApiClient.refresh_call (to_string (getItem "refresh_token" s))] rest
            end
        | Rejected _ =>
            mkRun (Returned false) s
              [ApiClient.refresh_call (to_string (getItem "refresh_token" s))] rest
        end).
Proof.
  intros H. unfold ApiClient.refreshToken, credentials. cbn. rewrite H. cbn.
  destruct r as [response|e]; cbn; [|done].
  destruct (ok response); cbn; [|done].
  destruct (json_body response) as [data|]; cbn; [|done].
  destruct data; cbn; done.
Qed.

(** A renewal makes at most one call of [fetch], and never throws. *)
Lemma refreshToken_calls rs s run :
  run_alone ApiClient.refreshToken rs s = Some run →
  (∃ b, result run = Returned b) ∧
  (calls run = [] ∨
   calls run = [ApiClient.refresh_call (to_string (getItem "refresh_token" s))]) ∧
  (result run = Returned false → final run = s).
Proof.
  destruct (truthy (getItem "refresh_token" s)) eqn:Ht.
  - destruct rs as [|r rest].
    + unfold ApiClient.refreshToken. cbn. rewrite Ht. done.
    + rewrite refreshToken_run by done. intros [= <-].
      destruct r as [response|e]; [destruct (credentials response) as [[a rf]|]|];
        cbn; eauto 6.
      split; [eauto|]. split; [eauto|]. done.
  - rewrite refreshToken_absent by done. intros [= <-]. cbn. eauto 6.
Qed.

(** ** What a request does *)

#[local] Arguments ApiClient.handleResponse : simpl never.
#[local] Arguments ApiClient.refreshToken : simpl never.
#[local] Arguments await_call : simpl never.

Lemma request_rejected endpoint options s e rest :
  run_alone (ApiClient.request endpoint options) (Rejected e :: rest) s =
  Some (mkRun (Threw e) s [first_call endpoint options s] rest).
Proof. reflexivity. Qed.

Lemma request_not_401 endpoint options s r1 rs :
  status r1 ≠ 401 →
  run_alone (ApiClient.request endpoint options) (Resolved r1 :: rs) s =
  after_call (first_call endpoint options s)
    <$> run_alone (ApiClient.handleResponse r1) rs s.
Proof.
  intros H. apply Z.eqb_neq in H.
  unfold ApiClient.request. rewrite run_alone_bind. cbn [run_alone get mbind option_bind result final calls unused].
  rewrite run_alone_bind, run_alone_try_catch, run_alone_bind.
  cbn [run_alone fetch fmap option_fmap option_map mbind option_bind after_call result final calls unused].
  rewrite H.
  cbn [run_alone fmap option_fmap option_map mbind option_bind after_call prepend result final calls unused app].
  rewrite run_alone_await_call.
  destruct (run_alone (ApiClient.handleResponse r1) rs s) as [[o s1 cs u]|]; done.
Qed.

Lemma request_401 endpoint options s r1 rs :
  status r1 = 401 →
  run_alone (ApiClient.request endpoint options) (Resolved r1 :: rs) s =
  run ← run_alone ApiClient.refreshToken rs s;
  match result run with
  | Returned true =>
      match unused run with
      | [] => None
      | Resolved r2 :: rest =>
          prepend (first_call endpoint options s :: calls run ++
                   [replay_call endpoint options s (final run)])
            <$> run_alone (ApiClient.handleResponse r2) rest (final run)
      | Rejected e :: rest =>
          Some (mkRun (Threw e) (final run)
                  (first_call endpoint options s :: calls run ++
                   [replay_call endpoint options s (final run)]) rest)
      end
  | Returned false =>
      Some (mkRun (Threw (Error "Session expired")) (expired (final run))
              (first_call endpoint options s :: calls run) (unused run))
  | Threw e =>
      Some (mkRun (Threw e) (final run)
              (first_call endpoint options s :: calls run) (unused run))
  end.
Proof.
  intros H. apply Z.eqb_eq in H.
  unfold ApiClient.request. rewrite run_alone_bind. cbn [run_alone get mbind option_bind result final calls unused].
  rewrite run_alone_bind, run_alone_try_catch, run_alone_bind.
  cbn [run_alone fetch fmap option_fmap option_map mbind option_bind after_call result final calls unused].
  rewrite H.
  rewrite run_alone_bind, run_alone_await_call.
  destruct (run_alone ApiClient.refreshToken rs s) as [[[[|]|e] s1 cs u]|];
    [| | |done].
  - destruct u as [|[r2|e] rest]; cbn; [done| |].
    + rewrite run_alone_await_call.
      destruct (run_alone (ApiClient.handleResponse r2) rest s1) as [[o s2 cs2 u2]|];
        cbn; [|done].
      unfold prepend, first_call, replay_call; cbn.
      by rewrite ?app_nil_r, <- ?app_assoc.
    + unfold prepend, first_call, replay_call; cbn. by rewrite ?app_nil_r.
  - cbn. unfold prepend, first_call; cbn. by rewrite ?app_nil_r.
  - cbn. unfold prepend, first_call; cbn. by rewrite ?app_nil_r.
Qed.

(** ** What [handleResponse] does *)

Lemma handleResponse_204 response rs s :
  status response = 204 →
  run_alone (ApiClient.handleResponse response) rs s =
  Some (mkRun (Returned null) s [] rs).
Proof.
  intros H. unfold ApiClient.handleResponse. rewrite H. done.
Qed.

Lemma handleResponse_rejects response rs s :
  status response ≠ 204 → ok response = false →
  run_alone (ApiClient.handleResponse response) rs s =
  Some (mkRun (Threw (rejection response)) s [] rs).
Proof.
  intros H Hok. apply Z.eqb_neq in H.
  unfold ApiClient.handleResponse, rejection. rewrite H, Hok.
  destruct (is_json response); cbn; [|done].
  destruct (json_body response) as [data|]; cbn; [|done].
  destruct (get_prop data "detail") as [e|detail]; done.
Qed.

Lemma status_401_not_ok response :
  status response = 401 → status response ≠ 204 ∧ ok response = false.
Proof. intros H. unfold ok. rewrite H. done. Qed.

Lemma expired_cleared s :
  token (expired s) = null ∧
  localStorage (expired s) !! "access_token" = None ∧
  localStorage (expired s) !! "refresh_token" = None.
Proof.
  unfold expired, cleared; cbn. split; [done|].
  split; by simplify_map_eq.
Qed.

(** ** One request *)

(** C2 (as amended).  A request whose first attempt gets a 401, whose
    renewal succeeds and whose replay gets a 401 again ends after exactly
    one renewal call and one replay: it throws what [handleResponse]
    throws for the replayed response (the server's [detail], else
    "Request failed"), and the renewed credentials stay in place: nothing
    is cleared and the page is not reloaded. *)
Theorem replay_unauthorized_fails_once endpoint options s r1 rr r2 rest access refresh :
  status r1 = 401 →
  truthy (getItem "refresh_token" s) = true →
  credentials rr = Some (access, refresh) →
  status r2 = 401 →
  let s' := store_credentials access refresh s in
  run_alone (ApiClient.request endpoint options)
    (Resolved r1 :: Resolved rr :: Resolved r2 :: rest) s =
  Some (mkRun (Threw (rejection r2)) s'
          [first_call endpoint options s;
           ApiClient.refresh_call (to_string (getItem "refresh_token" s));
           replay_call endpoint options s s']
          rest) ∧
  token s' = access ∧
  localStorage s' !! "access_token" = Some (to_string access) ∧
  localStorage s' !! "refresh_token" = Some (to_string refresh) ∧
  reloads s' = reloads s.
Proof.
  intros H1 Hrt Hrr H2 s'.
  destruct (status_401_not_ok r2 H2) as [H204 Hok].
  split.
  - rewrite request_401 by done. rewrite refreshToken_run by done.
    rewrite Hrr. cbn. rewrite handleResponse_rejects by done. done.
  - subst s'. unfold store_credentials; cbn.
    repeat split; by simplify_map_eq.
Qed.

Lemma replay_unauthorized_fails_once_witness :
  run_alone (ApiClient.request "/devices" Sample.plain)
    [Resolved Sample.unauthorized; Resolved (Sample.token_pair "A1" "R1");
     Resolved Sample.unauthorized] Sample.logged_in =
  Some (mkRun (Threw (Error "Could not validate credentials"))
          (store_credentials (Some (JStr "A1")) (Some (JStr "R1")) Sample.logged_in)
          [first_call "/devices" Sample.plain Sample.logged_in;
           ApiClient.refresh_call "R0";
           replay_call "/devices" Sample.plain Sample.logged_in
             (store_credentials (Some (JStr "A1")) (Some (JStr "R1")) Sample.logged_in)]
          []).
Proof.
  apply (replay_unauthorized_fails_once "/devices" Sample.plain Sample.logged_in
           Sample.unauthorized (Sample.token_pair "A1" "R1") Sample.unauthorized []
           (Some (JStr "A1")) (Some (JStr "R1")));
    reflexivity.
Defined.

(** C2 as the spec words it fails: after a successful renewal and a
    second 401 the request does not end in the session-expired outcome. *)
Lemma replay_unauthorized_not_session_expired :
  ∃ run,
    run_alone (ApiClient.request "/devices" Sample.plain)
      [Resolved Sample.unauthorized; Resolved (Sample.token_pair "A1" "R1");
       Resolved Sample.unauthorized] Sample.logged_in = Some run ∧
    result run = Threw (Error "Could not validate credentials") ∧
    localStorage (final run) !! "refresh_token" = Some "R1" ∧
    ¬ session_expired run.
Proof.
  eexists. split; [reflexivity|]. split; [reflexivity|]. split; [reflexivity|].
  intros [H _]. discriminate H.
Qed.

(** C3.  When the renewal of a request fails ([refreshToken] returns
    false: no refresh credential stored, or the renewal call not
    answered with a usable pair), the request throws "Session expired",
    both credentials are removed from the store and the token field is
    null; reading the access credential afterwards gives null, also
    after the reload has built a new client. *)
Theorem renewal_failure_expires_session endpoint options s r1 rs run :
  status r1 = 401 →
  run_alone ApiClient.refreshToken rs s = Some run →
  result run = Returned false →
  ∃ out,
    run_alone (ApiClient.request endpoint options) (Resolved r1 :: rs) s = Some out ∧
    session_expired out ∧
    final out = expired s ∧
    calls out = first_call endpoint options s :: calls run ∧
    getItem "access_token" (final out) = null ∧
    (final <$> run_alone ApiClient.constructor [] (final out)) = Some (final out).
Proof.
  intros H1 Hrun Hres.
  destruct (refreshToken_calls _ _ _ Hrun) as (_ & _ & Hs). specialize (Hs Hres).
  eexists. split.
  { rewrite request_401 by done. rewrite Hrun. cbn. rewrite Hres. reflexivity. }
  cbn. rewrite Hs.
  destruct (expired_cleared s) as (Ht & Ha & Hr).
  split; [done|]. split; [done|]. split; [done|].
  unfold getItem. rewrite Ha. split; [done|].
  unfold expired, cleared, set_token; cbn.
  replace (delete "refresh_token" (delete "access_token" (localStorage s)) !! "access_token")
    with (@None string) by (by simplify_map_eq).
  done.
Qed.

Lemma renewal_failure_expires_session_witness :
  ∃ out,
    run_alone (ApiClient.request "/devices" Sample.plain)
      [Resolved Sample.unauthorized; Resolved Sample.unauthorized] Sample.logged_in
      = Some out ∧
    session_expired out ∧
    final out = expired Sample.logged_in ∧
    calls out = [first_call "/devices" Sample.plain Sample.logged_in;
                 ApiClient.refresh_call "R0"] ∧
    getItem "access_token" (final out) = null ∧
    (final <$> run_alone ApiClient.constructor [] (final out)) = Some (final out).
Proof.
  apply (renewal_failure_expires_session "/devices" Sample.plain Sample.logged_in
           Sample.unauthorized [Resolved Sample.unauthorized]
           (mkRun (Returned false) Sample.logged_in [ApiClient.refresh_call "R0"] []));
    reflexivity.
Defined.

(** When the renewal call fails at the network layer the renewal has
    failed, and the request gives the session up. *)
Lemma renewal_network_failure_expires endpoint options s r1 e rest :
  status r1 = 401 →
  truthy (getItem "refresh_token" s) = true →
  run_alone (ApiClient.request endpoint options)
    (Resolved r1 :: Rejected e :: rest) s =
  Some (mkRun (Threw (Error "Session expired")) (expired s)
          [first_call endpoint options s;
           ApiClient.refresh_call (to_string (getItem "refresh_token" s))] rest).
Proof.
  intros H1 Ht. rewrite request_401 by done. by rewrite refreshToken_run.
Qed.

(** C7 (as amended).  A request whose own call of [fetch] fails at the
    network layer throws that very failure to the caller, makes no
    further call, and leaves token field, store and page as they were
    when the call failed.  This holds for the first attempt and for the
    replay after a renewal (where the state is the one the renewal
    left).  A network failure of the renewal call is not surfaced:
    [refreshToken] catches it and reports a failed renewal, after which
    the request, without another call, clears both credentials, reloads
    the page and throws "Session expired". *)
Theorem network_failure_surfaces endpoint options s e rest :
  run_alone (ApiClient.request endpoint options) (Rejected e :: rest) s =
    Some (mkRun (Threw e) s [first_call endpoint options s] rest) ∧
  (∀ r1 rs run,
     status r1 = 401 →
     run_alone ApiClient.refreshToken rs s = Some run →
     result run = Returned true →
     unused run = Rejected e :: rest →
     run_alone (ApiClient.request endpoint options) (Resolved r1 :: rs) s =
     Some (mkRun (Threw e) (final run)
             (first_call endpoint options s :: calls run ++
              [replay_call endpoint options s (final run)]) rest)) ∧
  (∀ r1,
     status r1 = 401 →
     truthy (getItem "refresh_token" s) = true →
     let renewal := ApiClient.refresh_call (to_string (getItem "refresh_token" s)) in
     run_alone ApiClient.refreshToken (Rejected e :: rest) s =
       Some (mkRun (Returned false) s [renewal] rest) ∧
     run_alone (ApiClient.request endpoint options)
       (Resolved r1 :: Rejected e :: rest) s =
       Some (mkRun (Threw (Error "Session expired")) (expired s)
               [first_call endpoint options s; renewal] rest) ∧
     token (expired s) = null ∧
     stored_pair (expired s) = (None, None) ∧
     reloads (expired s) = S (reloads s)).
Proof.
  split; [apply request_rejected|]. split.
  - intros r1 rs run H1 Hrun Hres Hun.
    rewrite request_401 by done. rewrite Hrun. cbn. by rewrite Hres, Hun.
  - intros r1 H1 Ht renewal.
    split; [by rewrite refreshToken_run|].
    split; [by apply renewal_network_failure_expires|].
    split; [done|]. split; [|done].
    unfold stored_pair; cbn. by simplify_map_eq.
Qed.

(** C8.  A 204 response makes [handleResponse], and so [request], return
    [null] whatever its headers and body are; [null] is not the empty
    object that an empty JSON record decodes to. *)
Theorem no_content_returns_null endpoint options response rs s :
  status response = 204 →
  run_alone (ApiClient.handleResponse response) rs s =
    Some (mkRun (Returned null) s [] rs) ∧
  run_alone (ApiClient.request endpoint options) (Resolved response :: rs) s =
    Some (mkRun (Returned null) s [first_call endpoint options s] rs) ∧
  (∀ r1 rs1 run,
     status r1 = 401 →
     run_alone ApiClient.refreshToken rs1 s = Some run →
     result run = Returned true →
     unused run = Resolved response :: rs →
     result <$> run_alone (ApiClient.request endpoint options) (Resolved r1 :: rs1) s =
     Some (Returned null)) ∧
  null ≠ Some (JObj []) ∧
  run_alone (ApiClient.handleResponse Sample.empty_record) rs s =
    Some (mkRun (Returned (Some (JObj []))) s [] rs).
Proof.
  intros H. split; [by apply handleResponse_204|]. split; [|split; [|done]].
  - rewrite request_not_401 by (rewrite H; done).
    by rewrite handleResponse_204.
  - intros r1 rs1 run H1 Hrun Hres Hun.
    rewrite request_401 by done. rewrite Hrun. cbn. rewrite Hres, Hun.
    by rewrite handleResponse_204.
Qed.

Lemma no_content_returns_null_witness :
  run_alone (ApiClient.request "/devices/7" (mkOptions (Some "DELETE") ∅ None))
    [Resolved Sample.no_content] Sample.logged_in =
  Some (mkRun (Returned null) Sample.logged_in
          [first_call "/devices/7" (mkOptions (Some "DELETE") ∅ None) Sample.logged_in] []).
Proof.
  apply (no_content_returns_null "/devices/7" (mkOptions (Some "DELETE") ∅ None)
           Sample.no_content [] Sample.logged_in).
  reflexivity.
Defined.

(** C10.  With no access credential in the token field the request goes
    out without an [Authorization] header of the client's; a 401 answer
    still starts a renewal, which, with no refresh credential stored,
    reports failure without any call; the store is cleared and the
    caller gets "Session expired", whatever the 401 response carried. *)
Theorem unauthenticated_401_expires endpoint options s r1 rest :
  truthy (token s) = false →
  truthy (getItem "refresh_token" s) = false →
  status r1 = 401 →
  headers (first_call endpoint options s) =
    opt_headers options ∪ {[ "Content-Type" := "application/json" ]} ∧
  run_alone ApiClient.refreshToken rest s = Some (mkRun (Returned false) s [] rest) ∧
  run_alone (ApiClient.request endpoint options) (Resolved r1 :: rest) s =
    Some (mkRun (Threw (Error "Session expired")) (expired s)
            [first_call endpoint options s] rest) ∧
  token (expired s) = null ∧
  localStorage (expired s) !! "access_token" = None ∧
  localStorage (expired s) !! "refresh_token" = None.
Proof.
  intros Ht Hrt H1.
  split. { unfold first_call, ApiClient.request_headers; cbn. by rewrite Ht. }
  split. { by apply refreshToken_absent. }
  split. { rewrite request_401 by done. by rewrite refreshToken_absent. }
  apply expired_cleared.
Qed.

Lemma unauthenticated_401_expires_witness :
  run_alone (ApiClient.request "/auth/me" Sample.plain)
    [Resolved Sample.unauthorized] Sample.logged_out =
  Some (mkRun (Threw (Error "Session expired")) (expired Sample.logged_out)
          [first_call "/auth/me" Sample.plain Sample.logged_out] []).
Proof.
  apply (unauthenticated_401_expires "/auth/me" Sample.plain Sample.logged_out
           Sample.unauthorized []); reflexivity.
Defined.

Lemma network_failure_surfaces_witness :
  run_alone (ApiClient.request "/devices" Sample.plain)
    [Resolved Sample.unauthorized; Resolved (Sample.token_pair "A1" "R1");
     Rejected Sample.offline] Sample.logged_in =
  Some (mkRun (Threw Sample.offline)
          (store_credentials (Some (JStr "A1")) (Some (JStr "R1")) Sample.logged_in)
          [first_call "/devices" Sample.plain Sample.logged_in;
           ApiClient.refresh_call "R0";
           replay_call "/devices" Sample.plain Sample.logged_in
             (store_credentials (Some (JStr "A1")) (Some (JStr "R1")) Sample.logged_in)]
          []).
Proof.
  apply (proj1 (proj2 (network_failure_surfaces "/devices" Sample.plain Sample.logged_in
                         Sample.offline []))
           Sample.unauthorized
           [Resolved (Sample.token_pair "A1" "R1"); Rejected Sample.offline]
           (mkRun (Returned true)
              (store_credentials (Some (JStr "A1")) (Some (JStr "R1")) Sample.logged_in)
              [ApiClient.refresh_call "R0"] [Rejected Sample.offline]));
    reflexivity.
Defined.

(** C7 as the spec words it fails: the first attempt gets a 401 and the
    renewal call then fails at the network layer.  The caller gets
    "Session expired" and not the network failure, and the session state
    is not unchanged: both credentials are gone and the page reloads. *)
Lemma renewal_network_failure_clears_session :
  let run := mkRun (Threw (Error "Session expired")) (expired Sample.logged_in)
               [first_call "/devices" Sample.plain Sample.logged_in;
                ApiClient.refresh_call "R0"] [] in
  run_alone (ApiClient.request "/devices" Sample.plain)
    [Resolved Sample.unauthorized; Rejected Sample.offline] Sample.logged_in = Some run ∧
  result run ≠ Threw Sample.offline ∧
  stored_pair Sample.logged_in = (Some "A0", Some "R0") ∧
  stored_pair (final run) = (None, None) ∧
  token (final run) = null ∧
  reloads (final run) = 1%nat.
Proof.
  split; [reflexivity|]. split; [discriminate|]. done.
Qed.

(** ** Invariants of logically concurrent calls *)

(** The settled fetches are only added to. *)
Lemma delivered_step ev σ : delivered σ ⊆ delivered (step ev σ).
Proof.
  destruct ev as [o|i r|i]; cbn.
  - by destruct (run_block (program o) (state σ)).
  - destruct (tasks σ !! i) as [[o|c k|k]|]; try done.
    destruct (run_block (k r) (state σ)). cbn. set_solver.
  - destruct (tasks σ !! i) as [[o|c k|k]|]; try done.
    by destruct (run_block k (state σ)).
Qed.

Lemma delivered_exec evs σ : delivered σ ⊆ delivered (exec evs σ).
Proof.
  revert σ. induction evs as [|ev evs IH]; intros σ; [done|].
  cbn. etrans; [apply (delivered_step ev)|apply IH].
Qed.

Lemma delivered_respond i r c k σ :
  tasks σ !! i = Some (Fetching c k) → (c, r) ∈ delivered (step (Respond i r) σ).
Proof.
  intros Hi. cbn. rewrite Hi. destruct (run_block (k r) (state σ)). cbn. set_solver.
Qed.

Section Invariant.

Variable I : list (FetchCall * FetchResult) → State → Prop.
Variable good : FetchCall → FetchResult → Prop.
Variable allowed : op → Prop.
Hypothesis I_mono : ∀ h h' s, h ⊆ h' → I h s → I h' s.

Lemma keeps_weaken {A : Type} (Q Q' : outcome A → _ → State → Prop) p h s :
  (∀ o h' s', Q o h' s' → Q' o h' s') → keeps I good Q p h s → keeps I good Q' p h s.
Proof.
  intros HQ. revert h s.
  induction p as [a|e|k IH|s' k IH|c k IH|k IH]; intros h s; cbn; eauto.
  - intros [HI H]. split; [done|]. eauto.
  - intros [HI H]. split; [done|]. eauto.
Qed.

Lemma keeps_bind {A B : Type} (Q : outcome B → _ → State → Prop)
    (p : async A) (f : A → async B) h s :
  keeps I good (λ o h' s', match o with
                    | Returned a => keeps I good Q (f a) h' s'
                    | Threw e => Q (Threw e) h' s'
                    end) p h s →
  keeps I good Q (p ≫= f) h s.
Proof.
  revert h s.
  induction p as [a|e|k IH|s' k IH|c k IH|k IH]; intros h s; cbn; eauto.
  - intros [HI H]. split; [done|]. intros. apply IH. eauto.
  - intros [HI H]. split; [done|]. intros. apply IH. eauto.
Qed.

Lemma keeps_try_catch {A : Type} (Q : outcome A → _ → State → Prop)
    (p : async A) (handler : exn → async A) h s :
  keeps I good (λ o h' s', match o with
                    | Returned a => Q (Returned a) h' s'
                    | Threw e => keeps I good Q (handler e) h' s'
                    end) p h s →
  keeps I good Q (try_catch p handler) h s.
Proof.
  revert h s.
  induction p as [a|e|k IH|s' k IH|c k IH|k IH]; intros h s; cbn; eauto.
  - intros [HI H]. split; [done|]. intros. apply IH. eauto.
  - intros [HI H]. split; [done|]. intros. apply IH. eauto.
Qed.

(** The caller of [await p] is suspended when [p] ends. *)
Lemma keeps_await_call {A : Type} (Q : outcome A → _ → State → Prop)
    (p : async A) h s :
  keeps I good (λ o h' s', I h' s' ∧ ∀ h2 s2, h' ⊆ h2 → I h2 s2 → Q o h2 s2) p h s →
  keeps I good Q (await_call p) h s.
Proof.
  intros H. unfold await_call. apply keeps_try_catch, keeps_bind.
  eapply keeps_weaken; [|exact H]. intros [a|e] h' s' [HI HQ]; cbn; eauto.
Qed.

(** [handleResponse] writes nothing. *)
Lemma handleResponse_keeps response h s :
  I h s → keeps I good (ends_safe I) (ApiClient.handleResponse response) h s.
Proof.
  intros HI. unfold ApiClient.handleResponse, ends_safe.
  destruct (status response =? 204); [done|].
  destruct (is_json response).
  - cbn. split; [done|]. intros h' s' _ HI'.
    destruct (json_body response) as [data|]; cbn; [|done].
    destruct (negb (ok response)); cbn; [|done].
    destruct (get_prop data "detail"); done.
  - destruct (negb (ok response)); cbn; [done|]. split; [done|]. eauto.
Qed.

Lemma run_block_keeps (p : async value) h s :
  keeps I good (ends_safe I) p h s → I h (run_block p s).2 ∧ task_keeps I good h (run_block p s).1.
Proof.
  revert s. induction p as [a|e|k IH|s' k IH|c k IH|k IH]; intros s; cbn; try done.
  - apply IH.
  - apply IH.
Qed.

Lemma task_keeps_mono h h' t :
  h ⊆ h' → task_keeps I good h t → task_keeps I good h' t.
Proof.
  intros Hh. destruct t as [o|c k|k]; cbn; [done| |].
  - intros H r h2 s2 Hg Hh2. apply H; [done|]. by etrans.
  - intros H h2 s2 Hh2. apply H. by etrans.
Qed.

Hypothesis programs_keep :
  ∀ o h s, allowed o → I h s → keeps I good (ends_safe I) (program o) h s.

Lemma step_keeps ev σ :
  fair_event allowed ev → fair_results good (step ev σ) →
  system_keeps I good σ → system_keeps I good (step ev σ).
Proof.
  intros Hev Hgood [HI Ht]. destruct ev as [o|i r|i].
  2: { destruct (tasks σ !! i) as [[o|c k|k]|] eqn:Hi;
         try (cbn; rewrite Hi; by split).
       pose proof (Hgood c r (delivered_respond i r c k σ Hi)) as Hr.
       clear Hgood. cbn. rewrite Hi.
       pose proof (Forall_lookup_1 _ _ _ _ Ht Hi) as Hk. cbn in Hk.
       assert (Hsub : delivered σ ⊆ (delivered σ ++ [(c, r)])%list) by set_solver.
       assert (Hin : (c, r) ∈ (delivered σ ++ [(c, r)])%list) by set_solver.
       pose proof (run_block_keeps (k r) _ (state σ)
                     (Hk r _ (state σ) Hr Hsub Hin (I_mono _ _ _ Hsub HI))) as [H1 H2].
       destruct (run_block (k r) (state σ)) as [t s']; cbn in *.
       split; [done|]. apply Forall_insert; [|done].
       eapply Forall_impl; [exact Ht|]. intros t'. by apply task_keeps_mono. }
  all: clear Hgood; cbn in *.
  - pose proof (run_block_keeps (program o) (delivered σ) (state σ)
                  (programs_keep _ _ _ Hev HI)) as [H1 H2].
    destruct (run_block (program o) (state σ)) as [t s']; cbn in *.
    split; [done|]. apply Forall_app. split; [done|]. by constructor.
  - destruct (tasks σ !! i) as [[o|c k|k]|] eqn:Hi; try done.
    pose proof (Forall_lookup_1 _ _ _ _ Ht Hi) as Hk. cbn in Hk.
    pose proof (run_block_keeps k _ (state σ)
                  (Hk _ (state σ) (reflexivity _) HI)) as [H1 H2].
    destruct (run_block k (state σ)) as [t s']; cbn in *.
    split; [done|]. by apply Forall_insert.
Qed.

Lemma exec_keeps evs σ :
  Forall (fair_event allowed) evs → fair_results good (exec evs σ) →
  system_keeps I good σ → system_keeps I good (exec evs σ).
Proof.
  revert σ. induction evs as [|ev evs IH]; intros σ Hevs Hgood Hσ; [done|].
  inversion Hevs; subst. cbn. apply IH; [done|done|].
  apply step_keeps; [done| |done].
  intros c r Hin. apply Hgood. by apply (delivered_exec evs (step ev σ)).
Qed.

Hypothesis I_expired : ∀ h s, I h s → I h (expired s).
Hypothesis refreshToken_keeps :
  ∀ h s, I h s → keeps I good (ends_safe I) ApiClient.refreshToken h s.

Lemma request_keeps endpoint options h s :
  I h s → keeps I good (ends_safe I) (ApiClient.request endpoint options) h s.
Proof.
  intros HI. unfold ApiClient.request. apply keeps_bind. cbn [keeps get].
  apply keeps_bind, keeps_try_catch, keeps_bind. cbn [keeps fetch]. split; [done|].
  intros r h1 s1 _ Hh1 _ HI1.
  assert (Hadopt : ∀ resp h' s', I h' s' →
            keeps I good (ends_safe I) (await_call (ApiClient.handleResponse resp)) h' s').
  { intros resp h' s' HI'. apply keeps_await_call.
    eapply keeps_weaken; [|by apply handleResponse_keeps].
    intros o h2 s2 H2. split; [done|]. by intros. }
  destruct r as [response|e]; cbn [keeps]; [|done].
  destruct (status response =? 401); cbn [keeps]; [|by apply Hadopt].
  apply keeps_bind, keeps_await_call.
  eapply keeps_weaken; [|by apply refreshToken_keeps].
  intros o h2 s2 HI2. split; [done|]. intros h3 s3 Hh3 HI3.
  destruct o as [[|]|e]; [| |done].
  - apply keeps_bind. cbn [keeps get]. apply keeps_bind. cbn [keeps fetch].
    split; [done|]. intros r2 h4 s4 _ Hh4 _ HI4.
    destruct r2 as [retryResponse|e]; cbn [keeps]; [|done]. by apply Hadopt.
  - cbn. by apply I_expired.
Qed.

End Invariant.

(** ** Token field and store (C9) *)

Lemma synced_store_credentials access refresh s :
  is_string access → synced (store_credentials access refresh s).
Proof.
  destruct access as [[]|]; try done. intros _.
  unfold synced, store_credentials; cbn. by simplify_map_eq.
Qed.

Lemma synced_setToken tok s :
  is_string tok → synced (setItem "access_token" (to_string tok) (set_token tok s)).
Proof.
  destruct tok as [[]|]; try done. intros _. unfold synced; cbn. by simplify_map_eq.
Qed.

Lemma synced_cleared s : synced (cleared s).
Proof. unfold synced; cbn. by simplify_map_eq. Qed.

Lemma synced_expired s : synced (expired s).
Proof. unfold synced; cbn. by simplify_map_eq. Qed.

Lemma synced_constructed s : synced (set_token (getItem "access_token" s) s).
Proof. unfold synced, getItem; cbn. by destruct (localStorage s !! "access_token"). Qed.

Lemma synced_refreshToken h s :
  synced s →
  keeps (λ _, synced) string_tokens (ends_safe (λ _, synced)) ApiClient.refreshToken h s.
Proof.
  intros Hs. unfold ApiClient.refreshToken, ends_safe. cbn.
  destruct (truthy (getItem "refresh_token" s)); cbn; [|done].
  split; [done|]. intros r h1 s1 Hgood _ _ Hs1.
  assert (Hr : credential_call
                 (ApiClient.refresh_call (to_string (getItem "refresh_token" s))))
    by (left; eauto).
  specialize (Hgood Hr).
  destruct r as [response|e]; cbn; [|done].
  unfold credentials in Hgood.
  destruct (ok response); cbn; [|done]. split; [done|].
  intros h2 s2 _ Hs2.
  destruct (json_body response) as [data|]; cbn; [|done].
  destruct data; cbn in *; try done.
  by apply (synced_store_credentials (assoc "access_token" fields)).
Qed.

Lemma synced_login username password h s :
  synced s →
  keeps (λ _, synced) string_tokens (ends_safe (λ _, synced))
    (ApiClient.login username password) h s.
Proof.
  intros Hs. unfold ApiClient.login, ends_safe. cbn.
  split; [done|]. intros r h1 s1 Hgood _ _ Hs1.
  assert (Hr : credential_call (ApiClient.login_call username password))
    by (right; eauto).
  specialize (Hgood Hr).
  destruct r as [response|e]; cbn; [|done]. split; [done|].
  intros h2 s2 _ Hs2.
  unfold credentials in Hgood.
  destruct (json_body response) as [data|]; cbn; [|done].
  destruct (ok response); cbn.
  - destruct data; cbn in *; try done.
    by apply (synced_store_credentials (assoc "access_token" fields)).
  - destruct data; cbn in *; done.
Qed.

Lemma synced_programs o h s :
  string_argument o → synced s →
  keeps (λ _, synced) string_tokens (ends_safe (λ _, synced)) (program o) h s.
Proof.
  intros Ho Hs. destruct o as [|tok| |u p| |endpoint options]; cbn [program].
  - apply synced_constructed.
  - by apply synced_setToken.
  - apply synced_cleared.
  - by apply synced_login.
  - apply keeps_bind. eapply keeps_weaken; [|by apply synced_refreshToken].
    by intros [b|e].
  - apply request_keeps; [intros; apply synced_expired|apply synced_refreshToken|done].
Qed.

(** C9 (as amended).  After the construction of the client and any
    sequence of its calls, interleaved in any way, in which every access
    token supplied is a string (the argument of every [setToken], and
    the [access_token] of every credential-bearing response to a login
    or renewal call; the responses to all other calls are arbitrary),
    the token field equals the [access_token] entry of the store at
    every suspension point: the same string, or null and no entry. *)
Theorem token_field_matches_store s evs :
  let σ := exec (Call Construct :: evs) (boot s) in
  Forall (fair_event string_argument) evs →
  (∀ c response access refresh,
     (c, Resolved response) ∈ delivered σ → credential_call c →
     credentials response = Some (access, refresh) → is_string access) →
  synced (state σ).
Proof.
  intros σ Hevs Hres.
  apply (exec_keeps (λ _, synced) string_tokens string_argument
           (λ _ _ _ _ H, H)
           (λ o h s' Ho Hs, synced_programs o h s' Ho Hs)
           evs (step (Call Construct) (boot s)) Hevs).
  - intros c r Hin Hc. destruct r as [response|e]; [|done].
    destruct (credentials response) as [[access refresh]|] eqn:Hcr; [|done].
    by apply (Hres c response access refresh).
  - split; cbn; [apply synced_constructed|by repeat constructor].
Qed.

Lemma token_field_matches_store_witness :
  synced (state (exec
    [Call Construct;
     Call (Request "/devices" Sample.plain);
     Respond 1 (Resolved Sample.empty_record);
     Resume 1; Resume 1;
     Call (Request "/alerts" Sample.plain);
     Respond 2 (Resolved Sample.unauthorized);
     Respond 2 (Resolved (Sample.token_pair "A1" "R1"));
     Resume 2; Resume 2;
     Respond 2 (Resolved Sample.empty_record);
     Resume 2; Resume 2]
    (boot Sample.logged_in))).
Proof.
  apply (token_field_matches_store Sample.logged_in).
  - repeat constructor.
  - intros c response access refresh Hin Hc Hcr.
    assert (E : delivered (exec
                  [Call Construct;
                   Call (Request "/devices" Sample.plain);
                   Respond 1 (Resolved Sample.empty_record);
                   Resume 1; Resume 1;
                   Call (Request "/alerts" Sample.plain);
                   Respond 2 (Resolved Sample.unauthorized);
                   Respond 2 (Resolved (Sample.token_pair "A1" "R1"));
                   Resume 2; Resume 2;
                   Respond 2 (Resolved Sample.empty_record);
                   Resume 2; Resume 2]
                  (boot Sample.logged_in)) =
                [(first_call "/devices" Sample.plain Sample.logged_in,
                  Resolved Sample.empty_record);
                 (first_call "/alerts" Sample.plain Sample.logged_in,
                  Resolved Sample.unauthorized);
                 (ApiClient.refresh_call "R0", Resolved (Sample.token_pair "A1" "R1"));
                 (replay_call "/alerts" Sample.plain Sample.logged_in
                    (store_credentials (Some (JStr "A1")) (Some (JStr "R1"))
                       Sample.logged_in),
                  Resolved Sample.empty_record)]) by reflexivity.
    rewrite E in Hin. clear E.
    assert (Hreq : ∀ c', method c' = None → ¬ credential_call c').
    { intros c' Hm [[rt ->]|(u & p & ->)]; discriminate Hm. }
    repeat (apply elem_of_cons in Hin as [Hin|Hin];
            [injection Hin as -> ->;
             first [ exfalso; revert Hc; apply Hreq; reflexivity
                   | injection Hcr as <- _; exact I
                   | discriminate Hcr ]|]).
    by apply elem_of_nil in Hin.
Defined.

(** C9 as the spec words it fails: a login answered with a JSON object
    that has no [access_token] leaves the field [undefined] and the
    store entry "undefined". *)
Lemma token_field_differs_from_store :
  let σ := exec [Call Construct;
                 Call (Login "admin" "secret");
                 Respond 1 (Resolved Sample.empty_record);
                 Resume 1]
                (boot Sample.logged_out) in
  token (state σ) = undefined ∧
  localStorage (state σ) !! "access_token" = Some "undefined" ∧
  ¬ synced (state σ).
Proof.
  split; [reflexivity|]. split; [reflexivity|].
  unfold synced.
  replace (localStorage _ !! "access_token") with (Some "undefined") by reflexivity.
  discriminate.
Qed.

(** ** The stored pair and the token field (C4) *)

Lemma matched_mono t0 p0 h h' s : h ⊆ h' → matched t0 p0 h s → matched t0 p0 h' s.
Proof.
  intros Hh (t & Ht & [H|[H|(c & r & rf & Hin & H)]]); exists t; (split; [done|]);
    [by left|by right; left|].
  right; right. exists c, r, rf. split; [by apply Hh|done].
Qed.

Lemma stored_pair_store_credentials access refresh s :
  stored_pair (store_credentials access refresh s) = pair_of access refresh.
Proof. unfold stored_pair, store_credentials, pair_of; cbn. by simplify_map_eq. Qed.

Lemma stored_pair_expired s : stored_pair (expired s) = (None, None).
Proof. unfold stored_pair; cbn. by simplify_map_eq. Qed.

Lemma matched_carried t0 p0 h c response access refresh s :
  (c, Resolved response) ∈ h → credential_call c →
  credentials response = Some (access, refresh) →
  matched t0 p0 h (store_credentials access refresh s).
Proof.
  intros Hin Hc Hcr. exists access. split; [by left|].
  right; right. exists c, response, refresh.
  by rewrite stored_pair_store_credentials.
Qed.

Lemma matched_cleared t0 p0 h s : matched t0 p0 h (cleared s).
Proof.
  exists null. split; [by left|]. right; left. split; [done|].
  unfold stored_pair; cbn. by simplify_map_eq.
Qed.

Lemma matched_expired t0 p0 h s : matched t0 p0 h (expired s).
Proof.
  exists null. split; [by left|]. right; left. split; [done|].
  apply stored_pair_expired.
Qed.

Lemma matched_constructed t0 p0 h s :
  matched t0 p0 h s → matched t0 p0 h (set_token (getItem "access_token" s) s).
Proof. intros (t & _ & H). exists t. split; [by right|done]. Qed.

Lemma matched_refreshToken t0 p0 h s :
  matched t0 p0 h s →
  keeps (matched t0 p0) any_result (ends_safe (matched t0 p0)) ApiClient.refreshToken h s.
Proof.
  intros Hs. unfold ApiClient.refreshToken, ends_safe. cbn.
  destruct (truthy (getItem "refresh_token" s)); cbn; [|done].
  split; [done|]. intros r h1 s1 _ _ Hin Hs1.
  destruct r as [response|e]; cbn; [|done].
  destruct (ok response) eqn:Hok; cbn; [|done]. split; [done|].
  intros h2 s2 Hh2 Hs2.
  destruct (json_body response) as [data|] eqn:Hbody; cbn; [|done].
  destruct (get_prop data "access_token") as [e|access] eqn:Ha; cbn; [done|].
  destruct (get_prop data "refresh_token") as [e|refresh] eqn:Hr; cbn;
    [by destruct data|].
  eapply (matched_carried t0 p0 h2 _ response access refresh s2).
  - apply Hh2, Hin.
  - left. eauto.
  - unfold credentials. by rewrite Hok, Hbody, Ha, Hr.
Qed.

Lemma matched_login t0 p0 username password h s :
  matched t0 p0 h s →
  keeps (matched t0 p0) any_result (ends_safe (matched t0 p0))
    (ApiClient.login username password) h s.
Proof.
  intros Hs. unfold ApiClient.login, ends_safe. cbn.
  split; [done|]. intros r h1 s1 _ _ Hin Hs1.
  destruct r as [response|e]; cbn; [|done]. split; [done|].
  intros h2 s2 Hh2 Hs2.
  destruct (json_body response) as [data|] eqn:Hbody; cbn; [|done].
  destruct (ok response) eqn:Hok; cbn.
  - destruct (get_prop data "access_token") as [e|access] eqn:Ha; cbn; [done|].
    destruct (get_prop data "refresh_token") as [e|refresh] eqn:Hr; cbn;
      [by destruct data|].
    eapply (matched_carried t0 p0 h2 _ response access refresh s2).
    + apply Hh2, Hin.
    + right. eauto.
    + unfold credentials. by rewrite Hok, Hbody, Ha, Hr.
  - by destruct (get_prop data "detail").
Qed.

Lemma matched_programs t0 p0 o h s :
  session_op o → matched t0 p0 h s →
  keeps (matched t0 p0) any_result (ends_safe (matched t0 p0)) (program o) h s.
Proof.
  intros Ho Hs. destruct o as [|tok| |u p| |endpoint options]; cbn [program].
  - by apply matched_constructed.
  - done.
  - apply matched_cleared.
  - by apply matched_login.
  - apply keeps_bind. eapply keeps_weaken; [|by apply matched_refreshToken].
    by intros [b|e].
  - apply request_keeps; [|apply matched_refreshToken|done].
    intros h' s' _. apply matched_expired.
Qed.

(** With the field and the pair from one source, a request sends the
    stored access credential, unless field and pair are still the ones
    the page started with. *)
Lemma matched_sends_stored t0 p0 h s :
  matched t0 p0 h s →
  (token s = t0 ∧ stored_pair s = p0) ∨ sends_stored s.
Proof.
  intros (t & [Ht|Ht] & Hsrc).
  - destruct Hsrc as [[-> Hp]|[[-> Hp]|(c & r & rf & _ & _ & _ & Hp)]].
    + by left.
    + right. intros a Ha. unfold stored_pair in Hp. congruence.
    + right. intros a Ha. unfold stored_pair, pair_of in Hp.
      rewrite Ht. unfold ApiClient.bearer. congruence.
  - right. intros a Ha. rewrite Ht. unfold getItem. by rewrite Ha.
Qed.

(** C4.  At every suspension point of every interleaving of calls on the
    session, what the readers of the credentials get comes from one
    source: the stored access and refresh credentials are the pair the
    store started with, no pair at all, or the pair of one single login
    or renewal response, and the token field, from which [request]
    takes the access credential it sends, is the access credential of
    that same source.  So unless field and pair are still the initial
    ones, the [Authorization] value of a request is made of the stored
    access credential.  And a successful renewal leaves exactly the pair
    of its response, in the store and in the field. *)
Theorem credentials_replaced_together s evs :
  Forall (fair_event session_op) evs →
  let σ := exec evs (boot s) in
  matched (token s) (stored_pair s) (delivered σ) (state σ) ∧
  ((token (state σ) = token s ∧ stored_pair (state σ) = stored_pair s) ∨
   sends_stored (state σ)) ∧
  ∀ response rest s' access refresh,
    truthy (getItem "refresh_token" s') = true →
    credentials response = Some (access, refresh) →
    ∃ run,
      run_alone ApiClient.refreshToken (Resolved response :: rest) s' = Some run ∧
      result run = Returned true ∧
      stored_pair (final run) = pair_of access refresh ∧
      token (final run) = access.
Proof.
  intros Hevs σ.
  assert (Hm : matched (token s) (stored_pair s) (delivered σ) (state σ)).
  { apply (exec_keeps (matched (token s) (stored_pair s)) any_result session_op
             (matched_mono (token s) (stored_pair s))
             (λ o h s' Ho Hs, matched_programs (token s) (stored_pair s) o h s' Ho Hs)
             evs (boot s) Hevs).
    - by intros c r _.
    - split; cbn; [|constructor]. exists (token s). split; by left. }
  split; [done|]. split; [by apply (matched_sends_stored _ _ _ _ Hm)|].
  intros response rest s' access refresh Ht Hc.
  rewrite refreshToken_run by done. rewrite Hc.
  eexists. split; [done|]. split; [done|].
  split; [apply stored_pair_store_credentials|done].
Qed.

Lemma credentials_replaced_together_witness :
  let evs := [Call Construct;
              Call (Request "/devices" Sample.plain);
              Call (Request "/alerts" Sample.plain);
              Respond 1 (Resolved Sample.unauthorized);
              Respond 2 (Resolved Sample.unauthorized);
              Respond 1 (Resolved (Sample.token_pair "A1" "R1"));
              Respond 2 (Resolved (Sample.token_pair "A2" "R2"));
              Resume 2; Resume 1] in
  let σ := exec evs (boot Sample.logged_in) in
  matched (token Sample.logged_in) (stored_pair Sample.logged_in) (delivered σ) (state σ) ∧
  ((token (state σ) = token Sample.logged_in ∧
    stored_pair (state σ) = stored_pair Sample.logged_in) ∨
   sends_stored (state σ)).
Proof.
  intros evs σ.
  destruct (credentials_replaced_together Sample.logged_in evs) as (Hm & Hs & _).
  - repeat constructor.
  - split; [exact Hm|exact Hs].
Defined.

(** ** A call running alone is one of the interleavings *)

Lemma run_alone_exec (p : async value) : ∀ rs s run ts n i σ,
  run_alone p rs s = Some run →
  (i < length ts)%nat →
  state σ = (run_block p s).2 →
  tasks σ = <[i := (run_block p s).1]> ts →
  network σ = (n ++ issued (run_block p s).1)%list →
  ∃ evs,
    state (exec evs σ) = final run ∧
    tasks (exec evs σ) = <[i := Settled (result run)]> ts ∧
    network (exec evs σ) = (n ++ calls run)%list.
Proof.
  induction p as [a|e|k IH|s' k IH|c k IH|k IH]; intros rs s run ts n i σ Hrun Hi Hs Ht Hn.
  - injection Hrun as <-. by exists [].
  - injection Hrun as <-. by exists [].
  - by apply (IH s rs s run ts n i σ).
  - by apply (IH rs s' run ts n i σ).
  - cbn in Hrun, Hs, Ht, Hn. destruct rs as [|r rs]; [done|].
    destruct (run_alone (k r) rs s) as [run'|] eqn:Hrun'; [|done].
    injection Hrun as <-.
    set (σ1 := step (Respond i r) σ).
    destruct (IH r rs s run' ts (n ++ [c])%list i σ1 Hrun' Hi) as (evs & H1 & H2 & H3).
    + subst σ1. cbn. rewrite Ht, list_lookup_insert_eq by done. rewrite Hs.
      by destruct (run_block (k r) s).
    + subst σ1. cbn. rewrite Ht, list_lookup_insert_eq by done. rewrite Hs.
      destruct (run_block (k r) s). cbn. by rewrite list_insert_insert_eq.
    + subst σ1. cbn. rewrite Ht, list_lookup_insert_eq by done. rewrite Hs.
      destruct (run_block (k r) s). cbn. by rewrite Hn.
    + exists (Respond i r :: evs).
      change (exec (Respond i r :: evs) σ) with (exec evs σ1).
      rewrite H1, H2, H3. cbn. by rewrite <- app_assoc.
  - cbn in Hrun, Hs, Ht, Hn.
    set (σ1 := step (Resume i) σ).
    destruct (IH rs s run ts n i σ1 Hrun Hi) as (evs & H1 & H2 & H3).
    + subst σ1. cbn. rewrite Ht, list_lookup_insert_eq by done. rewrite Hs.
      by destruct (run_block k s).
    + subst σ1. cbn. rewrite Ht, list_lookup_insert_eq by done. rewrite Hs.
      destruct (run_block k s). cbn. by rewrite list_insert_insert_eq.
    + subst σ1. cbn. rewrite Ht, list_lookup_insert_eq by done. rewrite Hs.
      destruct (run_block k s). cbn. by rewrite Hn, app_nil_r.
    + exists (Resume i :: evs).
      change (exec (Resume i :: evs) σ) with (exec evs σ1).
      by rewrite H1, H2, H3.
Qed.

(** What a call does when it runs alone, it does in the schedule that
    answers its fetches in turn while no other call is in flight. *)
Lemma run_alone_is_an_execution o rs s run :
  run_alone (program o) rs s = Some run →
  ∃ evs,
    state (exec (Call o :: evs) (boot s)) = final run ∧
    tasks (exec (Call o :: evs) (boot s)) = [Settled (result run)] ∧
    network (exec (Call o :: evs) (boot s)) = calls run.
Proof.
  intros Hrun.
  destruct (run_alone_exec (program o) rs s run [Settled (Returned undefined)] [] 0
              (step (Call o) (boot s)) Hrun) as (evs & H); cbn; try done.
  - lia.
  - by destruct (run_block (program o) s).
  - by destruct (run_block (program o) s).
  - by destruct (run_block (program o) s).
  - by exists evs.
Qed.

(** ** Concurrent requests and renewal (C1) *)

Lemma exec_app evs1 evs2 σ : exec (evs1 ++ evs2) σ = exec evs2 (exec evs1 σ).
Proof. apply foldl_app. Qed.

Lemma exec_call_all reqs σ :
  exec (call_all reqs) σ =
  mkSystem (state σ) (tasks σ ++ map (started (state σ)) reqs)
    (network σ ++ map (λ eo, first_call eo.1 eo.2 (state σ)) reqs) (delivered σ).
Proof.
  revert σ. induction reqs as [|[e o] reqs IH]; intros σ.
  - cbn. rewrite !app_nil_r. by destruct σ.
  - change (exec (call_all ((e, o) :: reqs)) σ)
      with (exec (call_all reqs) (step (Call (Request e o)) σ)).
    rewrite IH. cbn. by rewrite <- !app_assoc.
Qed.

Lemma started_unauthorized s0 eo r s :
  status r = 401 →
  truthy (getItem "refresh_token" s) = true →
  ∃ c k, started s0 eo = Fetching c k ∧
    ∃ k', run_block (k (Resolved r)) s =
          (Fetching (ApiClient.refresh_call (to_string (getItem "refresh_token" s))) k', s).
Proof.
  intros H Ht. apply Z.eqb_eq in H.
  eexists _, _. split; [reflexivity|].
  cbn. rewrite H. unfold await_call, ApiClient.refreshToken. cbn. rewrite Ht. cbn.
  eauto.
Qed.

Lemma exec_respond_all s rt reqs : ∀ rs σ done,
  truthy (getItem "refresh_token" s) = true →
  rt = to_string (getItem "refresh_token" s) →
  length rs = length reqs →
  Forall (λ r, status r = 401) rs →
  state σ = s →
  tasks σ = (done ++ map (started s) reqs)%list →
  let σ' := exec (respond_all (length done) rs) σ in
  state σ' = s ∧
  network σ' = (network σ ++ replicate (length reqs) (ApiClient.refresh_call rt))%list ∧
  ∃ renewing, tasks σ' = (done ++ renewing)%list ∧
    Forall (awaiting_renewal rt) renewing ∧ length renewing = length reqs.
Proof.
  induction reqs as [|eo reqs IH]; intros rs σ done Ht Hrt Hlen H401 Hs Htasks.
  - destruct rs; [|done]. cbn. rewrite app_nil_r. split; [done|]. split; [done|].
    exists []. rewrite app_nil_r in Htasks |- *. by repeat split.
  - destruct rs as [|r rs]; [done|]. cbn in Hlen. injection Hlen as Hlen.
    inversion H401 as [|? ? Hr H401']; subst.
    destruct (started_unauthorized (state σ) eo r (state σ) Hr Ht)
      as (c & k & Hst & k' & Hrun).
    unfold respond_all. rewrite imap_cons.
    change (exec (?ev :: ?evs) σ) with (exec evs (step ev σ)).
    set (σ1 := step (Respond (length done + 0) (Resolved r)) σ).
    assert (Hσ1 : state σ1 = state σ ∧
              network σ1 = (network σ ++ [ApiClient.refresh_call
                 (to_string (getItem "refresh_token" (state σ)))])%list ∧
              tasks σ1 = ((done ++ [Fetching (ApiClient.refresh_call
                 (to_string (getItem "refresh_token" (state σ)))) k'])
                 ++ map (started (state σ)) reqs)%list).
    { subst σ1. cbn [step]. rewrite Htasks, Nat.add_0_r.
      rewrite lookup_app_r by done. rewrite Nat.sub_diag. cbn [map lookup list_lookup].
      rewrite Hst, Hrun. cbn. split; [done|]. split; [done|].
      rewrite insert_app_r_alt by done. rewrite Nat.sub_diag. cbn.
      by rewrite <- app_assoc. }
    destruct Hσ1 as (Hs1 & Hn1 & Ht1).
    assert (Hidx : imap ((λ i r0, Respond (length done + i) (Resolved r0)) ∘ S) rs =
                   respond_all (length (done ++ [Fetching (ApiClient.refresh_call
                     (to_string (getItem "refresh_token" (state σ)))) k'])) rs).
    { unfold respond_all. apply imap_ext. intros i x _. cbn.
      rewrite length_app. cbn. f_equal. lia. }
    rewrite Hidx.
    destruct (IH rs σ1 _ Ht eq_refl Hlen H401' Hs1 Ht1) as (Hs' & Hn' & ren & Hren & Hall & Hl).
    split; [done|]. split.
    + rewrite Hn', Hn1. cbn. by rewrite <- app_assoc.
    + eexists (_ :: ren). split; [by rewrite Hren, <- app_assoc|].
      split; [constructor; [by eexists|done]|]. cbn. by rewrite Hl.
Qed.

(** C1 (as amended).  When N requests are in flight and each first
    attempt is answered with a 401 before any renewal is answered, the
    client makes one renewal call per request, N in all, every one with
    the refresh credential stored at that time; all N calls are then
    parked at their own renewal, and the state is untouched. *)
Theorem one_renewal_per_request s (reqs : list (string * Options)) (rs : list Response) :
  truthy (getItem "refresh_token" s) = true →
  length rs = length reqs →
  Forall (λ r, status r = 401) rs →
  let rt := to_string (getItem "refresh_token" s) in
  let σ := exec (call_all reqs ++ respond_all 0 rs) (boot s) in
  network σ = (map (λ eo, first_call eo.1 eo.2 s) reqs ++
               replicate (length reqs) (ApiClient.refresh_call rt))%list ∧
  state σ = s ∧
  Forall (awaiting_renewal rt) (tasks σ) ∧
  length (tasks σ) = length reqs.
Proof.
  intros Ht Hlen H401 rt σ. subst σ. rewrite exec_app, exec_call_all. cbn [boot state tasks network delivered app].
  destruct (exec_respond_all s rt reqs rs
              (mkSystem s (map (started s) reqs)
                 (map (λ eo, first_call eo.1 eo.2 s) reqs) []) []
              Ht eq_refl Hlen H401 eq_refl eq_refl)
    as (Hs & Hn & ren & Hren & Hall & Hl).
  cbn in Hs, Hn, Hren. rewrite Hren. done.
Qed.

Lemma one_renewal_per_request_witness :
  let σ := exec (call_all [("/devices", Sample.plain); ("/alerts", Sample.plain);
                           ("/dashboard/stats", Sample.plain)] ++
                 respond_all 0 [Sample.unauthorized; Sample.unauthorized;
                                Sample.unauthorized])
                (boot Sample.logged_in) in
  network σ = [first_call "/devices" Sample.plain Sample.logged_in;
               first_call "/alerts" Sample.plain Sample.logged_in;
               first_call "/dashboard/stats" Sample.plain Sample.logged_in;
               ApiClient.refresh_call "R0"; ApiClient.refresh_call "R0";
               ApiClient.refresh_call "R0"].
Proof.
  apply (one_renewal_per_request Sample.logged_in
           [("/devices", Sample.plain); ("/alerts", Sample.plain);
            ("/dashboard/stats", Sample.plain)]
           [Sample.unauthorized; Sample.unauthorized; Sample.unauthorized]);
    [reflexivity|reflexivity|repeat constructor].
Defined.

(** C1 as the spec words it fails: two requests that get a 401 make two
    renewal calls, and when both renewals are answered each request
    replays with the credential of its own renewal. *)
Lemma two_requests_two_renewals :
  let σ := exec [Call (Request "/devices" Sample.plain);
                 Call (Request "/alerts" Sample.plain);
                 Respond 0 (Resolved Sample.unauthorized);
                 Respond 1 (Resolved Sample.unauthorized);
                 Respond 0 (Resolved (Sample.token_pair "A1" "R1"));
                 Resume 0; Resume 0;
                 Respond 1 (Resolved (Sample.token_pair "A2" "R2"));
                 Resume 1; Resume 1]
                (boot Sample.logged_in) in
  length (filter is_renewal_call (network σ)) = 2%nat ∧
  length (filter is_renewal_call (network σ)) ≠ 1%nat ∧
  map (λ c, (url c, headers c !! "Authorization")) (network σ) =
    [("http://localhost:8000/api/devices", Some "Bearer A0");
     ("http://localhost:8000/api/alerts", Some "Bearer A0");
     ("http://localhost:8000/api/auth/refresh?refresh_token=R0", None);
     ("http://localhost:8000/api/auth/refresh?refresh_token=R0", None);
     ("http://localhost:8000/api/devices", Some "Bearer A1");
     ("http://localhost:8000/api/alerts", Some "Bearer A2")].
Proof.
  split; [reflexivity|]. split; [by vm_compute|reflexivity].
Qed.

(** ** Properties of the live channel *)

Module Channel.
Import App.

Section Facts.

Variable Page : Type.
Variable updateConnectionStatus : string → Page → Page * option exn.
Variable handleNewAlert : value → Page → Page * option exn.
Variable handleDeviceUpdate : value → value → Page → Page * option exn.
Variable handleScanUpdate : value → Page → Page * option exn.

Local Abbreviation handle :=
  (App.handle Page updateConnectionStatus handleNewAlert handleDeviceUpdate handleScanUpdate).
Local Abbreviation run :=
  (App.run Page updateConnectionStatus handleNewAlert handleDeviceUpdate handleScanUpdate).
Local Abbreviation Browser := (App.Browser Page).
Local Abbreviation attached := (App.attached Page).
Local Abbreviation round :=
  (App.round Page updateConnectionStatus handleNewAlert handleDeviceUpdate handleScanUpdate).
Local Abbreviation effect :=
  (App.effect Page handleNewAlert handleDeviceUpdate handleScanUpdate).

Lemma invoke_handled call b :
  let b' := dispatch Page (invoke Page handleNewAlert handleDeviceUpdate handleScanUpdate call) b in
  handled Page b' = (handled Page b ++ [call])%list ∧
  sockets Page b' = sockets Page b ∧ timers Page b' = timers Page b ∧
  websocket Page b' = websocket Page b ∧ ws_blocked Page b' = ws_blocked Page b.
Proof.
  unfold dispatch, invoke, seq, on_page. cbn.
  destruct call as [alert|device ev|data]; cbn;
    [destruct (handleNewAlert alert (page Page b))
    |destruct (handleDeviceUpdate device ev (page Page b))
    |destruct (handleScanUpdate data (page Page b))]; done.
Qed.

Lemma message_handled i frame u b :
  sockets Page b !! i = Some (u, OPEN) →
  let b' := handle (SocketMessage i frame) b in
  handled Page b' = (handled Page b ++ option_list (expected frame))%list ∧
  sockets Page b' = sockets Page b ∧ timers Page b' = timers Page b ∧
  websocket Page b' = websocket Page b ∧ ws_blocked Page b' = ws_blocked Page b.
Proof.
  intros Hi. cbn. rewrite Hi.
  assert (Hsame : ∀ b0 : Browser,
            handled Page b0 = (handled Page b0 ++ option_list None)%list ∧
            sockets Page b0 = sockets Page b0 ∧ timers Page b0 = timers Page b0 ∧
            websocket Page b0 = websocket Page b0 ∧ ws_blocked Page b0 = ws_blocked Page b0).
  { intros b0. cbn. by rewrite app_nil_r. }
  destruct frame as [message|]; [|apply Hsame].
  unfold onmessage, handleWebSocketMessage.
  destruct message as [|x|n|x|items|fields]; try apply Hsame.
  cbn [get_prop expected].
  destruct (assoc "type" fields) as [[|x|n|t|items|fs]|]; try apply Hsame.
  destruct (String.eqb t "alert"); [apply invoke_handled|].
  destruct (String.eqb t "device_update"); [apply invoke_handled|].
  destruct (String.eqb t "scan_update"); [apply invoke_handled|].
  apply Hsame.
Qed.

(** The handler runs on the page, and what it did stays when it throws. *)
Lemma invoke_effect call b :
  page Page (dispatch Page
               (invoke Page handleNewAlert handleDeviceUpdate handleScanUpdate call) b) =
  effect call (page Page b).
Proof.
  unfold dispatch, invoke, seq, on_page, App.effect. cbn.
  destruct call as [alert|device ev|data]; cbn;
    [destruct (handleNewAlert alert (page Page b))
    |destruct (handleDeviceUpdate device ev (page Page b))
    |destruct (handleScanUpdate data (page Page b))]; done.
Qed.

Lemma message_effect i frame u b :
  sockets Page b !! i = Some (u, OPEN) →
  page Page (handle (SocketMessage i frame) b) =
  foldl (λ p call, effect call p) (page Page b) (option_list (expected frame)).
Proof.
  intros Hi. cbn [App.handle]. rewrite Hi.
  destruct frame as [message|]; [|done].
  unfold onmessage, handleWebSocketMessage.
  destruct message as [|x|n|x|items|fields]; try done.
  cbn [get_prop expected].
  destruct (assoc "type" fields) as [[|x|n|t|items|fs]|]; try done.
  destruct (String.eqb t "alert"); [apply invoke_effect|].
  destruct (String.eqb t "device_update"); [apply invoke_effect|].
  destruct (String.eqb t "scan_update"); [apply invoke_effect|].
  done.
Qed.

(** C6 (as amended).  Whatever the handlers do, throwing included, every
    frame that arrives on an open socket is given to the handler of its
    type, in arrival order, and that handler runs on the page as the
    earlier ones left it: the page after the frames is the page the
    handlers asked for make of it one after the other, each up to its
    return or to the point where it threw; the handler calls made are
    exactly the ones the frames ask for; and the channel is as it was
    (same sockets, still open, no timer set, same [this.websocket]).
    Each frame has one handler, so an exception loses what was left of
    that handler, and nothing of any later frame. *)
Theorem messages_reach_handlers i u frames b :
  sockets Page b !! i = Some (u, OPEN) →
  let b' := run (map (SocketMessage i) frames) b in
  page Page b' = foldl (λ p call, effect call p) (page Page b) (omap expected frames) ∧
  handled Page b' = (handled Page b ++ omap expected frames)%list ∧
  sockets Page b' = sockets Page b ∧ timers Page b' = timers Page b ∧
  websocket Page b' = websocket Page b ∧ ws_blocked Page b' = ws_blocked Page b.
Proof.
  revert b. induction frames as [|frame frames IH]; intros b Hi.
  - cbn. by rewrite app_nil_r.
  - destruct (message_handled i frame u b Hi) as (Hh & Hs & Ht & Hw & Hb).
    pose proof (message_effect i frame u b Hi) as Hp.
    cbn [map]. change (App.run ?P ?a ?b0 ?c ?d (?ev :: ?evs) b)
      with (App.run P a b0 c d evs (App.handle P a b0 c d ev b)).
    destruct (IH (handle (SocketMessage i frame) b)) as (Hp' & Hh' & Hs' & Ht' & Hw' & Hb').
    { by rewrite Hs. }
    cbn zeta. rewrite Hp', Hh', Hs', Ht', Hw', Hb', Hp, Hh, Hs, Ht, Hw, Hb.
    split; [|split; [|done]].
    + cbn [omap list_omap]. by destruct (expected frame).
    + rewrite <- app_assoc. f_equal.
      cbn [omap list_omap]. by destruct (expected frame).
Qed.

Lemma close_sets_timer b i u st :
  (∀ p, (updateConnectionStatus "disconnected" p).2 = None) →
  sockets Page b !! i = Some (u, st) → st ≠ CLOSED →
  let b' := handle (SocketClose i) b in
  timers Page b' = (timers Page b ++ [(5000%nat, Reconnect)])%list ∧
  sockets Page b' = alter (λ s, (s.1, CLOSED)) i (sockets Page b) ∧
  ws_blocked Page b' = ws_blocked Page b.
Proof.
  intros Hok Hi Hst. cbn. rewrite Hi.
  assert (Hgoal :
    let b' := dispatch Page (onclose Page updateConnectionStatus)
                (set_readyState Page i CLOSED b) in
    timers Page b' = (timers Page b ++ [(5000%nat, Reconnect)])%list ∧
    sockets Page b' = alter (λ s, (s.1, CLOSED)) i (sockets Page b) ∧
    ws_blocked Page b' = ws_blocked Page b).
  { unfold dispatch, onclose, seq, on_page, set_readyState. cbn.
    specialize (Hok (page Page b)).
    destruct (updateConnectionStatus "disconnected" (page Page b)) as [p e].
    cbn in Hok. subst e. done. }
  destruct st; done.
Qed.

Lemma round_attached b :
  (∀ p, (updateConnectionStatus "disconnected" p).2 = None) →
  attached b →
  attached (round b) ∧
  sockets Page (round b) =
    (alter (λ s, (s.1, CLOSED)) (length (sockets Page b) - 1)%nat (sockets Page b)
     ++ [(wsUrl, CONNECTING)])%list ∧
  websocket Page (round b) = Some (length (sockets Page b)).
Proof.
  intros Hok (Ht & Hb & u & st & Hi & Hst).
  destruct (close_sets_timer b _ u st Hok Hi Hst) as (Ht1 & Hs1 & Hb1).
  unfold App.round.
  remember (handle (SocketClose (length (sockets Page b) - 1)) b) as b1 eqn:Hb1def.
  clear Hb1def. rewrite Ht in Ht1. cbn in Ht1.
  cbn [App.handle]. rewrite Ht1. cbn [lookup list_lookup].
  unfold dispatch, connectWebSocket, try_, seq, new_WebSocket, set_websocket, clear_timer.
  cbn. rewrite Hb1, Hb. cbn. rewrite Ht1, Hs1. cbn.
  rewrite length_alter.
  split; [|done].
  split; [done|]. split; [done|].
  exists wsUrl, CONNECTING. split; [|done]. cbn [sockets].
  rewrite length_app, length_alter. cbn [length].
  rewrite lookup_app_r by (rewrite length_alter; lia).
  rewrite length_alter.
  replace (length (sockets Page b) + 1 - 1 - length (sockets Page b))%nat with 0%nat by lia.
  done.
Qed.

(** C5 (as amended).  With a status indicator that can be updated, the
    close event of a socket that was not closed sets one timer of 5000
    ms for a new connection attempt; the error handler sets none; and
    from a page whose newest socket is live, any number of rounds (the
    socket closes, the timer fires) each make a new socket: the retries
    have no bound. *)
Theorem close_schedules_reconnect :
  (∀ p, (updateConnectionStatus "disconnected" p).2 = None) →
  (∀ b i u st, sockets Page b !! i = Some (u, st) → st ≠ CLOSED →
     timers Page (handle (SocketClose i) b) =
       (timers Page b ++ [(5000%nat, Reconnect)])%list) ∧
  (∀ b i, timers Page (handle (SocketError i) b) = timers Page b) ∧
  (∀ n b, attached b →
     attached (Nat.iter n round b) ∧
     length (sockets Page (Nat.iter n round b)) = (length (sockets Page b) + n)%nat).
Proof.
  intros Hok. split; [|split].
  - intros b i u st Hi Hst. by apply (close_sets_timer b i u st).
  - intros b i. cbn. destruct (sockets Page b !! i) as [[u [| |]]|]; try done.
    all: unfold dispatch, onerror, on_page; cbn;
      by destruct (updateConnectionStatus "disconnected" (page Page b)).
  - induction n as [|n IH]; intros b Hb.
    + change (Nat.iter 0 round b) with b. split; [done|lia].
    + change (Nat.iter (S n) round b) with (round (Nat.iter n round b)).
      destruct (IH b Hb) as [Hatt Hlen].
      destruct (round_attached _ Hok Hatt) as (Hatt' & Hs & _).
      split; [done|]. rewrite Hs, length_app, length_alter, Hlen. cbn. lia.
Qed.

End Facts.

Lemma messages_reach_handlers_witness :
  let b' := sample_run (map (SocketMessage 0) [alert_frame; device_frame; alert_frame]) online in
  page nat b' = 1%nat ∧
  handled nat b' =
    [NewAlert (Some (JObj [("message", JStr "New device detected: AA:BB:CC:DD:EE:FF")]));
     DeviceUpdate (Some (JObj [("mac_address", JStr "AA:BB:CC:DD:EE:FF")]))
       (Some (JStr "discovered"));
     NewAlert (Some (JObj [("message", JStr "New device detected: AA:BB:CC:DD:EE:FF")]))] ∧
  sockets nat b' = [(wsUrl, OPEN)] ∧ timers nat b' = [] ∧
  websocket nat b' = Some 0%nat ∧ ws_blocked nat b' = false.
Proof.
  apply (messages_reach_handlers nat status_shown alert_throws device_counted
           scan_counted 0 wsUrl [alert_frame; device_frame; alert_frame] online).
  reflexivity.
Defined.

Lemma close_schedules_reconnect_witness :
  attached nat (Nat.iter 3 (round nat status_shown alert_throws device_counted scan_counted)
                  online) ∧
  length (sockets nat
            (Nat.iter 3 (round nat status_shown alert_throws device_counted scan_counted)
               online)) = 4%nat.
Proof.
  apply (close_schedules_reconnect nat status_shown alert_throws device_counted
           scan_counted (λ p, eq_refl)).
  split; [reflexivity|]. split; [reflexivity|].
  exists wsUrl, OPEN. split; [reflexivity|discriminate].
Defined.

Lemma blocked_stays user_input :
  sample_run user_input blocked = blocked.
Proof.
  induction user_input as [|ev evs IH]; [done|].
  change (sample_run (ev :: evs) blocked) with (sample_run evs (sample_handle ev blocked)).
  replace (sample_handle ev blocked) with blocked; [done|].
  destruct ev as [i|i|i|i frame|j]; cbn; by destruct i || by destruct j.
Qed.

(** C5 as the spec words it fails: on a page where the WebSocket
    constructor throws, the first connection attempt leaves the channel
    without socket and without timer, and whatever the browser delivers
    afterwards, no connection attempt is ever scheduled. *)
Lemma blocked_never_reconnects :
  websocket nat blocked = None ∧ page nat blocked = 0%nat ∧
  ∀ evs, timers nat (sample_run evs blocked) = [] ∧
         sockets nat (sample_run evs blocked) = [] ∧
         websocket nat (sample_run evs blocked) = None.
Proof.
  split; [reflexivity|]. split; [reflexivity|].
  intros evs. by rewrite blocked_stays.
Qed.

(** C6 as the spec words it fails: the parts of the page that an alert
    is for are served one after the other by the one handler, with
    nothing between them to catch an exception.  On the alerts page
    without the toast container, the toast of an alert throws, and the
    badge and the list of alerts, which come after it, do not get that
    alert: the count stays at 2 and the list is not reloaded, where the
    same frame on the page with the container gives 3 and a reload.  The
    next alert frame is handled again, to the same end. *)
Lemma toast_failure_skips_alert_count :
  let message := Some (JObj [("message", JStr "New device detected: AA:BB:CC:DD:EE:FF")]) in
  let broken := Alerts.receive [alert_frame] (Alerts.alerts_page false) in
  let sound := Alerts.receive [alert_frame] (Alerts.alerts_page true) in
  let again := Alerts.receive [alert_frame; alert_frame] (Alerts.alerts_page false) in
  handled _ broken = [NewAlert message] ∧
  (Alerts.handleNewAlert message (page _ (Alerts.alerts_page false))).2 =
    Some (TypeError "Cannot read properties of null (reading 'appendChild')") ∧
  Alerts.alertCount (page _ broken) = Some 2 ∧
  Alerts.alert_loads (page _ broken) = 0%nat ∧
  Alerts.alertCount (page _ sound) = Some 3 ∧
  Alerts.alert_loads (page _ sound) = 1%nat ∧
  Alerts.shown (page _ sound) =
    [("New device detected: AA:BB:CC:DD:EE:FF", "warning")] ∧
  handled _ again = [NewAlert message; NewAlert message] ∧
  Alerts.alertCount (page _ again) = Some 2 ∧
  sockets _ again = [(wsUrl, OPEN)].
Proof. cbv zeta. repeat split. Qed.

End Channel.

(** * Further properties of the client *)

(** ** One request, all cases *)

Lemma handleResponse_decode response rs s :
  run_alone (ApiClient.handleResponse response) rs s =
  Some (mkRun (decode response) s [] rs).
Proof.
  unfold ApiClient.handleResponse, decode, rejection.
  destruct (status response =? 204); [done|].
  destruct (is_json response); cbn.
  - destruct (json_body response) as [data|]; cbn; [|by destruct (ok response)].
    destruct (ok response); cbn; [done|].
    by destruct (get_prop data "detail").
  - by destruct (ok response).
Qed.

(** X1.  Transparent renewal: a 401, a renewal answered with a pair and
    a replay answered with an ok JSON body give the caller that body;
    three calls are made, the replay carries the new access credential,
    and the new pair is stored. *)
Theorem renewal_is_transparent endpoint options s r1 rr r2 rest access refresh data :
  status r1 = 401 →
  truthy (getItem "refresh_token" s) = true →
  credentials rr = Some (access, refresh) →
  status r2 ≠ 204 → ok r2 = true → is_json r2 = true → json_body r2 = Some data →
  let s' := store_credentials access refresh s in
  run_alone (ApiClient.request endpoint options)
    (Resolved r1 :: Resolved rr :: Resolved r2 :: rest) s =
  Some (mkRun (Returned (Some data)) s'
          [first_call endpoint options s;
           ApiClient.refresh_call (to_string (getItem "refresh_token" s));
           replay_call endpoint options s s']
          rest) ∧
  headers (replay_call endpoint options s s') !! "Authorization" =
    Some ("Bearer " ++ to_string access) ∧
  stored_pair s' = pair_of access refresh.
Proof.
  intros H1 Ht Hrr H204 Hok Hjson Hbody s'. apply Z.eqb_neq in H204.
  split; [|split].
  - rewrite request_401 by done. rewrite refreshToken_run by done. rewrite Hrr. cbn.
    rewrite handleResponse_decode. unfold decode. by rewrite H204, Hok, Hjson, Hbody.
  - unfold replay_call; cbn. by simplify_map_eq.
  - apply stored_pair_store_credentials.
Qed.

Lemma renewal_is_transparent_witness :
  result <$> run_alone (ApiClient.request "/devices" Sample.plain)
    [Resolved Sample.unauthorized; Resolved (Sample.token_pair "A1" "R1");
     Resolved Sample.empty_record] Sample.logged_in =
  Some (Returned (Some (JObj []))).
Proof.
  rewrite (proj1 (renewal_is_transparent "/devices" Sample.plain Sample.logged_in
             Sample.unauthorized (Sample.token_pair "A1" "R1") Sample.empty_record []
             (Some (JStr "A1")) (Some (JStr "R1")) (JObj [])
             eq_refl eq_refl eq_refl ltac:(discriminate) eq_refl eq_refl eq_refl)).
  reflexivity.
Defined.

(** X2.  A response that is neither ok nor a 401 is thrown to the
    caller after this one call, with no renewal and nothing written:
    with the server's [detail] text as the message when the body is a
    JSON object that has one, with "Request failed" when the response is
    not JSON. *)
Theorem rejection_is_surfaced endpoint options s r rest :
  status r ≠ 401 → ok r = false →
  run_alone (ApiClient.request endpoint options) (Resolved r :: rest) s =
    Some (mkRun (Threw (rejection r)) s [first_call endpoint options s] rest) ∧
  (∀ fields d, is_json r = true → json_body r = Some (JObj fields) →
     assoc "detail" fields = Some (JStr d) → d ≠ "" → rejection r = Error d) ∧
  (is_json r = false → rejection r = Error "Request failed").
Proof.
  intros H401 Hok. split; [|split].
  - rewrite request_not_401 by done. rewrite handleResponse_rejects; [done| |done].
    intros H. unfold ok in Hok. rewrite H in Hok. done.
  - intros fields d Hj Hb Hd Hne. unfold rejection. rewrite Hj, Hb. cbn. rewrite Hd. cbn.
    destruct (String.eqb_spec d ""); done.
  - intros Hj. unfold rejection. by rewrite Hj.
Qed.

Lemma rejection_is_surfaced_witness :
  run_alone (ApiClient.request "/scans/start" (mkOptions (Some "POST") ∅ None))
    [Resolved (mkResponse 409 (Some "application/json")
                 (Some (JObj [("detail", JStr "Scan already in progress")])) "")]
    Sample.logged_in =
  Some (mkRun (Threw (Error "Scan already in progress")) Sample.logged_in
          [first_call "/scans/start" (mkOptions (Some "POST") ∅ None) Sample.logged_in] []).
Proof.
  apply (rejection_is_surfaced "/scans/start" (mkOptions (Some "POST") ∅ None)
           Sample.logged_in
           (mkResponse 409 (Some "application/json")
              (Some (JObj [("detail", JStr "Scan already in progress")])) "") []);
    [discriminate|reflexivity].
Defined.

(** X3.  The retry cap: whatever the three next fetches bring, a
    request settles, and its calls are the first attempt alone, the
    first attempt and one renewal, or these and one replay. *)
Theorem request_settles_within_three_calls endpoint options s r1 r2 r3 rest :
  ∃ run,
    run_alone (ApiClient.request endpoint options) (r1 :: r2 :: r3 :: rest) s = Some run ∧
    let renewal := ApiClient.refresh_call (to_string (getItem "refresh_token" s)) in
    (calls run = [first_call endpoint options s] ∨
     calls run = [first_call endpoint options s; renewal] ∨
     ∃ s', calls run = [first_call endpoint options s; renewal;
                        replay_call endpoint options s s']).
Proof.
  destruct r1 as [r1|e].
  2: { rewrite request_rejected. eexists. split; [done|]. cbn. by left. }
  destruct (decide (status r1 = 401)) as [H401|H401].
  2: { rewrite request_not_401 by done. rewrite handleResponse_decode.
       eexists. split; [done|]. cbn. by left. }
  rewrite request_401 by done.
  destruct (truthy (getItem "refresh_token" s)) eqn:Ht.
  2: { rewrite refreshToken_absent by done. eexists. split; [done|]. cbn. by left. }
  rewrite refreshToken_run by done.
  destruct r2 as [rr|e]; [destruct (credentials rr) as [[access refresh]|]|]; cbn.
  - destruct r3 as [r3|e].
    + rewrite handleResponse_decode. eexists. split; [done|]. cbn. right; right. eauto.
    + eexists. split; [done|]. cbn. right; right. eauto.
  - eexists. split; [done|]. cbn. right; by left.
  - eexists. split; [done|]. cbn. right; by left.
Qed.

(** ** Renewal and login *)

(** X4.  A renewal never throws and makes at most one call.  It reports
    success exactly when a refresh credential is stored and the call is
    answered with a credential pair, which it then stores; in every
    other case it reports failure and writes nothing. *)
Theorem refreshToken_all_or_nothing r rest s :
  ∃ b run,
    run_alone ApiClient.refreshToken (r :: rest) s = Some run ∧
    result run = Returned b ∧
    (length (calls run) ≤ 1)%nat ∧
    (b = true ↔
       truthy (getItem "refresh_token" s) = true ∧
       ∃ response access refresh,
         r = Resolved response ∧ credentials response = Some (access, refresh) ∧
         final run = store_credentials access refresh s) ∧
    (b = false → final run = s).
Proof.
  destruct (truthy (getItem "refresh_token" s)) eqn:Ht.
  - rewrite refreshToken_run by done.
    destruct r as [response|e]; [destruct (credentials response) as [[a rf]|] eqn:Hc|].
    + exists true. eexists. split; [done|]. cbn. split; [done|]. split; [lia|].
      split; [|done]. split; [|done]. intros _. split; [done|]. eauto 6.
    + exists false. eexists. split; [done|]. cbn. split; [done|]. split; [lia|].
      split; [|done]. split; [done|].
      intros (_ & resp & a & rf & [= <-] & Hc' & _). congruence.
    + exists false. eexists. split; [done|]. cbn. split; [done|]. split; [lia|].
      split; [|done]. split; [done|]. intros (_ & resp & a & rf & [=] & _).
  - rewrite refreshToken_absent by done.
    exists false. eexists. split; [done|]. cbn. split; [done|]. split; [lia|].
    split; [|done]. split; [done|]. intros [[=] _].
Qed.

(** X5.  A login answered with a credential pair stores the pair, sets
    the token field to the access credential and returns the response
    body, after one call that carries the user name and password as
    form fields. *)
Theorem login_stores_pair username password response rest s access refresh data :
  credentials response = Some (access, refresh) →
  json_body response = Some data →
  let s' := store_credentials access refresh s in
  run_alone (ApiClient.login username password) (Resolved response :: rest) s =
    Some (mkRun (Returned (Some data)) s' [ApiClient.login_call username password] rest) ∧
  token s' = access ∧
  stored_pair s' = pair_of access refresh ∧
  body (ApiClient.login_call username password) =
    Some (BForm [("username", username); ("password", password)]).
Proof.
  intros Hc Hb s'. split; [|split; [done|split; [|done]]].
  - unfold ApiClient.login, credentials in *. cbn. rewrite Hb in *. cbn.
    destruct (ok response); [|done]. cbn.
    destruct data; cbn in *; try done; by injection Hc as <- <-.
  - apply stored_pair_store_credentials.
Qed.

Lemma login_stores_pair_witness :
  run_alone (ApiClient.login "admin" "admin123")
    [Resolved (Sample.token_pair "A1" "R1")] Sample.logged_out =
  Some (mkRun
          (Returned (Some (JObj [("access_token", JStr "A1"); ("refresh_token", JStr "R1");
                                 ("token_type", JStr "bearer")])))
          (store_credentials (Some (JStr "A1")) (Some (JStr "R1")) Sample.logged_out)
          [ApiClient.login_call "admin" "admin123"] []).
Proof.
  apply (login_stores_pair "admin" "admin123" (Sample.token_pair "A1" "R1") []
           Sample.logged_out (Some (JStr "A1")) (Some (JStr "R1"))); reflexivity.
Defined.

(** X6.  A login that is not answered with a credential pair (the call
    fails, the answer is not ok, or its body is no JSON or is [null])
    throws and leaves token field and store as they were.  For an answer
    that is not ok, the message is the server's [detail] when the body is
    an object with a non-empty one, "Login failed" when it has none. *)
Theorem login_failure_changes_nothing username password r rest s :
  match r with
  | Resolved response => credentials response = None
  | Rejected _ => True
  end →
  (∃ e, run_alone (ApiClient.login username password) (r :: rest) s =
        Some (mkRun (Threw e) s [ApiClient.login_call username password] rest)) ∧
  ∀ response fields, r = Resolved response → ok response = false →
    json_body response = Some (JObj fields) →
    result <$> run_alone (ApiClient.login username password) (r :: rest) s =
    Some (Threw (Error (if truthy (assoc "detail" fields)
                        then to_string (assoc "detail" fields)
                        else "Login failed"))).
Proof.
  intros Hr. split.
  - destruct r as [response|e]; [|by eexists].
    unfold ApiClient.login, credentials in *. cbn.
    destruct (json_body response) as [data|]; cbn; [|by eexists].
    destruct (ok response); cbn.
    + destruct data; cbn in *; try done; by eexists.
    + destruct (get_prop data "detail"); cbn; by eexists.
  - intros response fields -> Hok Hb. unfold ApiClient.login. cbn.
    rewrite Hb. cbn. rewrite Hok. done.
Qed.

Lemma login_failure_changes_nothing_witness :
  result <$> run_alone (ApiClient.login "admin" "wrong")
    [Resolved (mkResponse 401 (Some "application/json")
                 (Some (JObj [("detail", JStr "Incorrect username or password")])) "")]
    Sample.logged_out =
  Some (Threw (Error "Incorrect username or password")).
Proof.
  apply (proj2 (login_failure_changes_nothing "admin" "wrong"
                  (Resolved (mkResponse 401 (Some "application/json")
                     (Some (JObj [("detail", JStr "Incorrect username or password")])) ""))
                  [] Sample.logged_out eq_refl)
           _ [("detail", JStr "Incorrect username or password")] eq_refl eq_refl eq_refl).
Defined.

(** ** The token across a reload *)

(** The state a new [ApiClient] is built in: the store as it is, the
    token field of the new object not yet set. *)
Lemma constructor_run rs s :
  run_alone ApiClient.constructor rs s =
  Some (mkRun (Returned tt) (set_token (getItem "access_token" s) s) [] rs).
Proof. reflexivity. Qed.

(** X7.  What [setToken] stores survives a reload as its string
    conversion: a client built afterwards has that string as its token,
    which is the token that was set exactly when that was a string; and
    after [clearToken] a client built afterwards has the token null. *)
Theorem token_survives_reload tok s rs :
  (∃ run run',
     run_alone (ApiClient.setToken tok) rs s = Some run ∧
     run_alone ApiClient.constructor rs (final run) = Some run' ∧
     token (final run') = Some (JStr (to_string tok)) ∧
     (token (final run') = tok ↔ ∃ t, tok = Some (JStr t))) ∧
  (∃ run run',
     run_alone ApiClient.clearToken rs s = Some run ∧
     run_alone ApiClient.constructor rs (final run) = Some run' ∧
     token (final run') = null).
Proof.
  split.
  - eexists _, _. split; [reflexivity|]. rewrite constructor_run.
    split; [reflexivity|]. cbn. unfold getItem; cbn.
    rewrite lookup_insert_eq. split; [done|].
    split.
    + intros <-. eauto.
    + intros [t ->]. done.
  - eexists _, _. split; [reflexivity|]. rewrite constructor_run.
    split; [reflexivity|]. cbn. unfold getItem; cbn.
    by rewrite lookup_delete_ne, lookup_delete_eq.
Qed.

(** X8.  [clearToken] removes the two session entries and nothing else
    from the store, does not reload the page, and doing it twice is the
    same as doing it once. *)
Theorem clearToken_only_the_session s rs :
  ∃ run,
    run_alone ApiClient.clearToken rs s = Some run ∧
    result run = Returned tt ∧ calls run = [] ∧
    token (final run) = null ∧
    localStorage (final run) !! "access_token" = None ∧
    localStorage (final run) !! "refresh_token" = None ∧
    (∀ k, k ≠ "access_token" → k ≠ "refresh_token" →
          localStorage (final run) !! k = localStorage s !! k) ∧
    reloads (final run) = reloads s ∧
    (final <$> run_alone ApiClient.clearToken rs (final run)) = Some (final run).
Proof.
  eexists. split; [reflexivity|]. cbn.
  split; [done|]. split; [done|]. split; [done|].
  split; [by simplify_map_eq|]. split; [by simplify_map_eq|].
  split; [intros k H1 H2; by simplify_map_eq|]. split; [done|].
  unfold removeItem, set_token; cbn. do 2 f_equal.
  apply map_eq. intros k.
  destruct (decide (k = "refresh_token")) as [->|]; [by simplify_map_eq|].
  destruct (decide (k = "access_token")) as [->|]; by simplify_map_eq.
Qed.

(** X9.  The headers of a request: a token in the field always gives
    [Authorization: Bearer <token>], also over an [Authorization] header
    of the caller; without a token the caller's header, if any, is sent
    as it is; the caller's [Content-Type] wins over the default
    [application/json]; every other header of the caller is kept. *)
Theorem request_header_precedence options tok :
  let h := ApiClient.request_headers options tok in
  (truthy tok = true → h !! "Authorization" = Some ("Bearer " ++ to_string tok)) ∧
  (truthy tok = false → h !! "Authorization" = opt_headers options !! "Authorization") ∧
  h !! "Content-Type" =
    Some (default "application/json" (opt_headers options !! "Content-Type")) ∧
  (∀ k, k ≠ "Authorization" → k ≠ "Content-Type" → h !! k = opt_headers options !! k).
Proof.
  unfold ApiClient.request_headers. cbn.
  split; [|split; [|split]].
  - intros ->. by simplify_map_eq.
  - intros ->. rewrite lookup_union. rewrite lookup_singleton_ne by done.
    by destruct (opt_headers options !! "Authorization").
  - assert (H : (opt_headers options ∪ {["Content-Type" := "application/json"]})
                !! "Content-Type"
                = Some (default "application/json" (opt_headers options !! "Content-Type"))).
    { rewrite lookup_union, lookup_singleton_eq.
      by destruct (opt_headers options !! "Content-Type"). }
    destruct (truthy tok); [by rewrite lookup_insert_ne|done].
  - intros k H1 H2.
    assert (H : (opt_headers options ∪ {["Content-Type" := "application/json"]}) !! k
                = opt_headers options !! k).
    { rewrite lookup_union, lookup_singleton_ne by done.
      by destruct (opt_headers options !! k). }
    destruct (truthy tok); [by rewrite lookup_insert_ne|done].
Qed.

Lemma request_header_precedence_witness :
  ApiClient.request_headers
    (mkOptions None {[ "Authorization" := "Basic Zm9v"; "Accept" := "text/csv" ]} None)
    (Some (JStr "A0")) !! "Authorization" = Some "Bearer A0".
Proof.
  apply (request_header_precedence
           (mkOptions None {[ "Authorization" := "Basic Zm9v"; "Accept" := "text/csv" ]} None)
           (Some (JStr "A0"))).
  reflexivity.
Defined.

(** ** Two renewals in flight *)

#[local] Arguments setItem : simpl never.
#[local] Arguments removeItem : simpl never.
#[local] Arguments set_token : simpl never.
#[local] Arguments reload : simpl never.
#[local] Arguments getItem : simpl never.
#[local] Arguments to_string : simpl never.
#[local] Arguments truthy : simpl never.
#[local] Arguments ok : simpl never.
#[local] Arguments get_prop : simpl never.
#[local] Arguments ApiClient.request_headers : simpl never.
#[local] Arguments ApiClient.bearer : simpl never.
#[local] Arguments ApiClient.refresh_call : simpl never.
#[local] Arguments ApiClient.request_call : simpl never.
#[local] Arguments ApiClient.handleResponse : simpl never.

(** X10.  Two requests get a 401 and both start a renewal with the same
    stored refresh credential.  The first renewal is answered with a new
    pair, which is stored, and its request starts its replay with the
    new access credential; the second renewal is then refused.  The
    second request gives the session up: the new pair is wiped from the
    store, the token field is null and the page reloads, while the first
    request is still replaying. *)
Theorem refused_renewal_wipes_renewed_session
    e1 o1 e2 o2 s r1 r2 rr rr2 access refresh :
  status r1 = 401 → status r2 = 401 →
  truthy (getItem "refresh_token" s) = true →
  credentials rr = Some (access, refresh) →
  ok rr2 = false →
  let rt := to_string (getItem "refresh_token" s) in
  let σ := exec [Call (Request e1 o1); Call (Request e2 o2);
                 Respond 0 (Resolved r1); Respond 1 (Resolved r2);
                 Respond 0 (Resolved rr); Resume 0; Resume 0;
                 Respond 1 (Resolved rr2); Resume 1]
                (boot s) in
  network σ = [first_call e1 o1 s; first_call e2 o2 s;
               ApiClient.refresh_call rt; ApiClient.refresh_call rt;
               replay_call e1 o1 s (store_credentials access refresh s)] ∧
  (∃ k, tasks σ !! 0%nat =
        Some (Fetching (replay_call e1 o1 s (store_credentials access refresh s)) k)) ∧
  tasks σ !! 1%nat = Some (Settled (Threw (Error "Session expired"))) ∧
  state σ = expired (store_credentials access refresh s) ∧
  stored_pair (state σ) = (None, None) ∧ token (state σ) = null.
Proof.
  intros H1 H2 Ht Hc Hok2 rt σ.
  apply Z.eqb_eq in H1, H2.
  unfold credentials in Hc.
  destruct (ok rr) eqn:Hok; [|done].
  destruct (json_body rr) as [data|] eqn:Hbody; [|done].
  destruct (get_prop data "access_token") as [?|a] eqn:Ha; [done|].
  destruct (get_prop data "refresh_token") as [?|rf] eqn:Hr; [done|].
  injection Hc as <- <-.
  assert (Hσ : ∃ k d,
    σ = mkSystem (expired (store_credentials a rf s))
          [Fetching (replay_call e1 o1 s (store_credentials a rf s)) k;
           Settled (Threw (Error "Session expired"))]
          [first_call e1 o1 s; first_call e2 o2 s;
           ApiClient.refresh_call rt; ApiClient.refresh_call rt;
           replay_call e1 o1 s (store_credentials a rf s)] d).
  { subst σ rt. unfold exec, boot. cbn [foldl].
    unfold await_call, ApiClient.refreshToken, ApiClient.request.
    repeat match goal with
    | |- context [step ?ev (mkSystem ?x ?y ?z ?w)] =>
        let σ' := fresh "σ" in
        let E := fresh "E" in
        remember (step ev (mkSystem x y z w)) as σ' eqn:E;
        cbn in E;
        repeat (first [progress unfold await_call, ApiClient.refreshToken in E
                      | rewrite H1 in E | rewrite H2 in E | rewrite Ht in E
                      | rewrite Hok in E | rewrite Hbody in E | rewrite Ha in E
                      | rewrite Hr in E | rewrite Hok2 in E]; cbn in E);
        subst σ'
    end.
    eexists _, _. reflexivity. }
  destruct Hσ as (k & d & ->). cbn [network tasks state].
  split; [done|]. split; [by exists k|]. split; [done|]. split; [done|].
  split; [apply stored_pair_expired|done].
Qed.

Lemma refused_renewal_wipes_renewed_session_witness :
  let σ := exec [Call (Request "/devices" Sample.plain);
                 Call (Request "/alerts" Sample.plain);
                 Respond 0 (Resolved Sample.unauthorized);
                 Respond 1 (Resolved Sample.unauthorized);
                 Respond 0 (Resolved (Sample.token_pair "A1" "R1")); Resume 0; Resume 0;
                 Respond 1 (Resolved Sample.unauthorized); Resume 1]
                (boot Sample.logged_in) in
  stored_pair (state σ) = (None, None) ∧ token (state σ) = null.
Proof.
  apply (refused_renewal_wipes_renewed_session
           "/devices" Sample.plain "/alerts" Sample.plain Sample.logged_in
           Sample.unauthorized Sample.unauthorized (Sample.token_pair "A1" "R1")
           Sample.unauthorized (Some (JStr "A1")) (Some (JStr "R1")));
    reflexivity.
Defined.

(** * The network range of a scan *)

Lemma string_app_cons x (a b : string) : String x a ++ b = String x (a ++ b).
Proof. reflexivity. Qed.

Lemma string_app_assoc (a b c : string) : (a ++ b) ++ c = a ++ (b ++ c).
Proof. induction a as [|x a IH]; [done|]. rewrite !string_app_cons. by f_equal. Qed.

Lemma remainders_digits min max x s :
  x ∈ times (remainders Digit) min max s ↔ ∃ ds, s = ds ++ x ∧ digit_run min max ds.
Proof.
  revert min s. induction max as [|max IH]; intros min s.
  - cbn. destruct min; split.
    + intros ->%list_elem_of_singleton. exists "". repeat split; cbn; done || lia.
    + intros ([|c ds] & -> & _ & Hl); cbn in *; [apply list_elem_of_singleton; done|lia].
    + by intros ?%elem_of_nil.
    + intros (ds & _ & _ & Hl). lia.
  - cbn [times]. rewrite elem_of_app, list_elem_of_bind. split.
    + intros [H|(s1 & Hx & Hs1)].
      * destruct min; [|by apply elem_of_nil in H].
        apply list_elem_of_singleton in H as ->. exists "". repeat split; cbn; done || lia.
      * destruct s as [|c s]; cbn in Hs1; [by apply elem_of_nil in Hs1|].
        destruct (is_digit c) eqn:Hc; [|by apply elem_of_nil in Hs1].
        apply list_elem_of_singleton in Hs1 as ->.
        apply IH in Hx as (ds & -> & Hd & Hl).
        exists (String c ds). split; [done|]. split; cbn; [by rewrite Hc|lia].
    + intros ([|c ds] & -> & Hd & Hl); cbn in *.
      * left. destruct min; [apply list_elem_of_singleton; done|lia].
      * right. apply andb_prop in Hd as [Hc Hd]. exists (ds ++ x).
        split.
        -- apply IH. exists ds. split; [done|]. split; [done|lia].
        -- rewrite string_app_cons. cbn [remainders]. rewrite Hc.
           by apply list_elem_of_singleton.
Qed.

Lemma remainders_lit c x s : x ∈ remainders (Lit c) s ↔ s = String c x.
Proof.
  destruct s as [|c' s]; cbn.
  - split; [by intros ?%elem_of_nil|done].
  - destruct (Ascii.eqb_spec c' c) as [->|Hne].
    + rewrite list_elem_of_singleton. split; [by intros ->|by intros [= ->]].
    + split; [by intros ?%elem_of_nil|]. intros [= -> _]. done.
Qed.

Lemma remainders_octet_dot x s :
  x ∈ remainders (Cat (Repeat 1 3 Digit) (Lit (char "."))) s ↔
  ∃ a, digit_run 1 3 a ∧ s = a ++ "." ++ x.
Proof.
  cbn [remainders]. rewrite list_elem_of_bind. split.
  - intros (m & Hx & Hm). apply remainders_lit in Hx as ->.
    apply remainders_digits in Hm as (a & -> & Ha). by exists a.
  - intros (a & Ha & ->). exists ("." ++ x). split; [by apply remainders_lit|].
    apply remainders_digits. by exists a.
Qed.

Lemma remainders_three_octets x s :
  x ∈ remainders three_octets s ↔
  ∃ a b c, digit_run 1 3 a ∧ digit_run 1 3 b ∧ digit_run 1 3 c ∧
           s = a ++ "." ++ b ++ "." ++ c ++ "." ++ x.
Proof.
  unfold three_octets. cbn [remainders times pred app].
  set (m := remainders (Cat (Repeat 1 3 Digit) (Lit (char ".")))).
  split.
  - intros (s1 & (s2 & (s3 & H3%list_elem_of_singleton & Hs3)%list_elem_of_bind & Hs2)
              %list_elem_of_bind & Hs1)%list_elem_of_bind.
    subst s3. apply remainders_octet_dot in Hs1 as (a & Ha & ->).
    apply remainders_octet_dot in Hs2 as (b & Hb & ->).
    apply remainders_octet_dot in Hs3 as (c & Hc & ->).
    by exists a, b, c.
  - intros (a & b & c & Ha & Hb & Hc & ->).
    apply list_elem_of_bind. exists (b ++ "." ++ c ++ "." ++ x).
    split; [|apply remainders_octet_dot; by exists a].
    apply list_elem_of_bind. exists (c ++ "." ++ x).
    split; [|apply remainders_octet_dot; by exists b].
    apply list_elem_of_bind. exists x.
    split; [by apply list_elem_of_singleton|apply remainders_octet_dot; by exists c].
Qed.

Lemma string_app_empty_r (a : string) : a ++ "" = a.
Proof. induction a as [|x a IH]; [done|]. rewrite string_app_cons. by f_equal. Qed.

(** What the two patterns accept. *)
Lemma patterns_accept s :
  (regex_test ipPattern s = true ↔
     ∃ a b c d, digit_run 1 3 a ∧ digit_run 1 3 b ∧ digit_run 1 3 c ∧ digit_run 1 3 d ∧
                s = dotted a b c d) ∧
  (regex_test cidrPattern s = true ↔
     ∃ a b c d p, digit_run 1 3 a ∧ digit_run 1 3 b ∧ digit_run 1 3 c ∧ digit_run 1 3 d ∧
                  digit_run 1 2 p ∧ s = dotted a b c d ++ "/" ++ p) ∧
  regex_test cidrPattern "999.999.999.999/99" = true.
Proof.
  unfold regex_test, ipPattern, cidrPattern, dotted.
  split; [|split; [|done]]; rewrite bool_decide_eq_true; cbn [remainders];
    rewrite list_elem_of_bind.
  - split.
    + intros (m & Hd & Hm). apply remainders_three_octets in Hm as (a & b & c & Ha & Hb & Hc & ->).
      apply remainders_digits in Hd as (d & -> & Hd). exists a, b, c, d.
      by rewrite string_app_empty_r.
    + intros (a & b & c & d & Ha & Hb & Hc & Hd & ->). exists d. split.
      * apply remainders_digits. exists d. by rewrite string_app_empty_r.
      * apply remainders_three_octets. by exists a, b, c.
  - split.
    + intros (m & Hd & Hm). apply remainders_three_octets in Hm as (a & b & c & Ha & Hb & Hc & ->).
      apply list_elem_of_bind in Hd as (m2 & Hp & Hd).
      apply remainders_digits in Hd as (d & -> & Hd).
      apply list_elem_of_bind in Hp as (m3 & Hp & Hs).
      apply remainders_lit in Hs as ->.
      apply remainders_digits in Hp as (p & -> & Hp).
      exists a, b, c, d, p. rewrite string_app_empty_r.
      repeat (split; [assumption|]). by rewrite !string_app_assoc.
    + intros (a & b & c & d & p & Ha & Hb & Hc & Hd & Hp & ->).
      exists (d ++ "/" ++ p). split.
      * apply list_elem_of_bind. exists ("/" ++ p). split.
        -- apply list_elem_of_bind. exists p. split.
           ++ apply remainders_digits. exists p. by rewrite string_app_empty_r.
           ++ by apply remainders_lit.
        -- apply remainders_digits. by exists d.
      * apply remainders_three_octets. exists a, b, c.
        repeat (split; [assumption|]). by rewrite !string_app_assoc.
Qed.

(** X11.  The address pattern accepts exactly four runs of one to three
    digits joined by dots, the range pattern exactly such an address
    followed by a slash and one or two digits.  Neither looks at the
    numbers: 999.999.999.999/99 is a range for [startScan]. *)
Theorem range_patterns_accept s :
  (regex_test ipPattern s = true ↔
     ∃ a b c d, digit_run 1 3 a ∧ digit_run 1 3 b ∧ digit_run 1 3 c ∧ digit_run 1 3 d ∧
                s = dotted a b c d) ∧
  (regex_test cidrPattern s = true ↔
     ∃ a b c d p, digit_run 1 3 a ∧ digit_run 1 3 b ∧ digit_run 1 3 c ∧ digit_run 1 3 d ∧
                  digit_run 1 2 p ∧ s = dotted a b c d ++ "/" ++ p) ∧
  regex_test cidrPattern "999.999.999.999/99" = true.
Proof. exact (patterns_accept s). Qed.

Lemma digit_is_no_dot c : is_digit c = true → Ascii.eqb c (char ".") = false.
Proof. destruct c as [[] [] [] [] [] [] [] []]; done. Qed.

Lemma split_dot_after_digits a rest :
  all_digits a = true →
  split (char ".") (a ++ "." ++ rest) = a :: split (char ".") rest.
Proof.
  induction a as [|c a IH]; intros Ha; [done|].
  cbn in Ha. apply andb_prop in Ha as [Hc Ha].
  rewrite string_app_cons. cbn [split]. rewrite (digit_is_no_dot c Hc).
  by rewrite IH.
Qed.

Lemma split_dot_digits_slash d tail :
  all_digits d = true → all_digits tail = true →
  split (char ".") (d ++ tail) = [d ++ tail] ∧
  split (char ".") (d ++ "/" ++ tail) = [d ++ "/" ++ tail].
Proof.
  intros Hd Ht.
  assert (Htail : split (char ".") tail = [tail]).
  { clear Hd. induction tail as [|c t IH]; [done|].
    cbn in Ht. apply andb_prop in Ht as [Hc Ht].
    cbn [split]. rewrite (digit_is_no_dot c Hc). by rewrite IH. }
  induction d as [|c d IH].
  - change ("" +:+ tail) with tail.
    change ("" +:+ "/" +:+ tail) with (String (char "/") tail).
    split; [done|]. cbn [split].
    change (Ascii.eqb (char "/") (char ".")) with false. cbn iota.
    by rewrite Htail.
  - cbn in Hd. apply andb_prop in Hd as [Hc Hd]. destruct (IH Hd) as [IH1 IH2].
    rewrite (string_app_cons c d tail), (string_app_cons c d ("/" ++ tail)).
    cbn [split]. rewrite (digit_is_no_dot c Hc).
    by rewrite IH1, IH2.
Qed.

Lemma split_dotted a b c d :
  all_digits a = true → all_digits b = true → all_digits c = true → all_digits d = true →
  split (char ".") (dotted a b c d) = [a; b; c; d].
Proof.
  intros Ha Hb Hc Hd. unfold dotted.
  rewrite !split_dot_after_digits by done.
  destruct (split_dot_digits_slash d "" Hd eq_refl) as [H _].
  rewrite string_app_empty_r in H. by rewrite H.
Qed.

Lemma all_digits_app a b : all_digits (a ++ b) = all_digits a && all_digits b.
Proof.
  induction a as [|c a IH]; [done|]. rewrite string_app_cons. cbn.
  by rewrite IH, andb_assoc.
Qed.

Lemma address_is_no_range s :
  regex_test ipPattern s = true → regex_test cidrPattern s = false.
Proof.
  intros Hip. destruct (regex_test cidrPattern s) eqn:Hcidr; [|done].
  apply patterns_accept in Hip as (a & b & c & d & [Ha _] & [Hb _] & [Hc _] & [Hd _] & ->).
  apply patterns_accept in Hcidr
    as (a' & b' & c' & d' & p & [Ha' _] & [Hb' _] & [Hc' _] & [Hd' _] & [Hp _] & Heq).
  apply (f_equal (split (char "."))) in Heq.
  rewrite split_dotted in Heq by done.
  unfold dotted in Heq. rewrite !string_app_assoc in Heq.
  rewrite !split_dot_after_digits in Heq by done.
  destruct (split_dot_digits_slash d' p Hd' Hp) as [_ H]. rewrite H in Heq.
  injection Heq as -> -> -> ->.
  rewrite all_digits_app, Hd' in Hd. done.
Qed.

Lemma string_length_app (a b : string) :
  String.length (a ++ b) = (String.length a + String.length b)%nat.
Proof. induction a as [|c a IH]; [done|]. rewrite string_app_cons. cbn. by rewrite IH. Qed.

(** The range made of an address. *)
Lemma address_becomes_range s scanType :
  regex_test ipPattern s = true →
  ∃ a b c d,
    s = dotted a b c d ∧
    let range := dotted a b c "0" ++ "/24" in
    ScanPage.startScan s scanType =
      [ScanPage.ShowToast ("Using network range: " ++ range) "info";
       ScanPage.PerformScan (Some range) scanType] ∧
    regex_test cidrPattern range = true ∧
    ScanPage.startScan range scanType = [ScanPage.PerformScan (Some range) scanType].
Proof.
  intros Hip. pose proof (address_is_no_range s Hip) as Hcidr.
  pose proof Hip as (a & b & c & d & Ha & Hb & Hc & Hd & ->)%patterns_accept.
  exists a, b, c, d. split; [done|]. intros range.
  assert (Hrange : regex_test cidrPattern range = true).
  { apply patterns_accept. exists a, b, c, "0", "24".
    do 3 (split; [assumption|]).
    split; [split; cbn; [done|lia]|]. split; [split; cbn; [done|lia]|]. done. }
  split; [|split; [done|]].
  - unfold ScanPage.startScan. rewrite Hcidr, Hip.
    destruct (String.eqb_spec (dotted a b c d) "") as [Heq|_].
    { apply (f_equal String.length) in Heq. unfold dotted in Heq.
      rewrite !string_length_app in Heq. cbn in Heq. lia. }
    destruct Ha as [Ha _], Hb as [Hb _], Hc as [Hc _], Hd as [Hd _].
    rewrite split_dotted by done. cbn [part lookup list_lookup].
    subst range. unfold dotted. by rewrite !string_app_assoc.
  - unfold ScanPage.startScan. rewrite Hrange.
    destruct (String.eqb_spec range "") as [Heq|_]; [|done].
    apply (f_equal String.length) in Heq. subst range. unfold dotted in Heq.
    rewrite !string_length_app in Heq. cbn in Heq. lia.
Qed.

(** X12.  A single address [a.b.c.d] is turned into the range
    [a.b.c.0/24]: [startScan] announces it in an info toast and scans
    that range, which the range pattern accepts; the last number of the
    address plays no part. *)
Theorem single_address_becomes_slash_24 s scanType :
  regex_test ipPattern s = true →
  ∃ a b c d,
    s = dotted a b c d ∧
    let range := dotted a b c "0" ++ "/24" in
    ScanPage.startScan s scanType =
      [ScanPage.ShowToast ("Using network range: " ++ range) "info";
       ScanPage.PerformScan (Some range) scanType] ∧
    regex_test cidrPattern range = true ∧
    ScanPage.startScan range scanType = [ScanPage.PerformScan (Some range) scanType].
Proof. exact (address_becomes_range s scanType). Qed.

Lemma single_address_becomes_slash_24_witness :
  ∃ a b c d,
    "10.0.12.250" = dotted a b c d ∧
    let range := dotted a b c "0" ++ "/24" in
    ScanPage.startScan "10.0.12.250" "arp" =
      [ScanPage.ShowToast ("Using network range: " ++ range) "info";
       ScanPage.PerformScan (Some range) "arp"] ∧
    regex_test cidrPattern range = true ∧
    ScanPage.startScan range "arp" = [ScanPage.PerformScan (Some range) "arp"].
Proof.
  apply (single_address_becomes_slash_24 "10.0.12.250" "arp"). reflexivity.
Defined.

(** The scans [startScan] goes on to. *)
Lemma startScan_ranges s scanType networkRange ty :
  ScanPage.PerformScan networkRange ty ∈ ScanPage.startScan s scanType →
  ty = scanType ∧
  match networkRange with
  | None => s = ""
  | Some range => regex_test cidrPattern range = true
  end.
Proof.
  intros Hin.
  destruct (regex_test ipPattern s) eqn:Hip.
  - destruct (address_becomes_range s scanType Hip)
      as (a & b & c & d & _ & Hs & Hr & _).
    cbn zeta in Hs. rewrite Hs in Hin.
    apply elem_of_cons in Hin as [[=]|Hin].
    apply list_elem_of_singleton in Hin as [= -> ->]. done.
  - unfold ScanPage.startScan in Hin. rewrite Hip in Hin.
    destruct (String.eqb_spec s "") as [->|_].
    { apply list_elem_of_singleton in Hin as [= -> ->]. done. }
    destruct (regex_test cidrPattern s) eqn:Hc.
    + apply list_elem_of_singleton in Hin as [= -> ->]. done.
    + by apply list_elem_of_singleton in Hin.
Qed.

(** X13.  Whatever is typed, [startScan] starts at most one scan, of
    the type chosen, and the range it hands on is absent (empty field) or
    accepted by the range pattern; text that neither pattern accepts
    starts no scan and only shows the error toast. *)
Theorem startScan_hands_on_valid_ranges s scanType :
  (∀ networkRange ty, ScanPage.PerformScan networkRange ty ∈ ScanPage.startScan s scanType →
     ty = scanType ∧
     match networkRange with
     | None => s = ""
     | Some range => regex_test cidrPattern range = true
     end) ∧
  (length (filter is_scan (ScanPage.startScan s scanType)) ≤ 1)%nat ∧
  (s ≠ "" → regex_test cidrPattern s = false → regex_test ipPattern s = false →
   ScanPage.startScan s scanType =
     [ScanPage.ShowToast "Invalid network range format. Use format: 192.168.1.0/24" "error"]).
Proof.
  split; [|split].
  - apply startScan_ranges.
  - unfold ScanPage.startScan.
    destruct (String.eqb s ""); [|destruct (regex_test cidrPattern s);
      [|destruct (regex_test ipPattern s)]].
    all: vm_compute; lia.
  - intros Hne Hc Hip. unfold ScanPage.startScan. rewrite Hc, Hip.
    by destruct (String.eqb_spec s "").
Qed.

(** * Query strings *)

Example getDevices_query :
  query (Endpoints.getDevices_params None (Some (JNum 50))
           {[ "search" := JStr "tv & radio=on"; "is_online" := JBool false ]}) =
  "page=1&page_size=50&search=tv+%26+radio%3Don&is_online=false".
Proof. reflexivity. Qed.

Lemma urlencode_byte_decode c rest :
  urldecode (urlencode_byte c ++ rest) = String c (urldecode rest).
Proof.
  destruct c as [[] [] [] [] [] [] [] []]; reflexivity.
Qed.

Lemma urlencode_decode s : urldecode (urlencode s) = s.
Proof.
  induction s as [|c s IH]; [done|].
  cbn [urlencode]. by rewrite urlencode_byte_decode, IH.
Qed.

Lemma all_chars_app P a b :
  all_chars P (a ++ b) = all_chars P a && all_chars P b.
Proof.
  induction a as [|c a IH]; [done|].
  rewrite string_app_cons. cbn [all_chars]. by rewrite IH, andb_assoc.
Qed.

Lemma urlencode_byte_chars c : all_chars is_query_char (urlencode_byte c) = true.
Proof.
  destruct c as [[] [] [] [] [] [] [] []]; reflexivity.
Qed.

Lemma urlencode_chars s : all_chars is_query_char (urlencode s) = true.
Proof.
  induction s as [|c s IH]; [done|].
  cbn [urlencode]. by rewrite all_chars_app, urlencode_byte_chars, IH.
Qed.

Lemma query_char_free sep s :
  (∀ c, is_query_char c = true → Ascii.eqb c sep = false) →
  all_chars is_query_char s = true → free_of sep s = true.
Proof.
  intros Hsep. induction s as [|c s IH]; [done|].
  cbn. intros [Hc Hs]%andb_prop. by rewrite (Hsep c Hc), IH.
Qed.

Lemma urlencode_free_amp s : free_of (char "&") (urlencode s) = true.
Proof.
  apply query_char_free; [|apply urlencode_chars].
  intros c. by destruct c as [[] [] [] [] [] [] [] []].
Qed.

Lemma urlencode_free_eq s : free_of (char "=") (urlencode s) = true.
Proof.
  apply query_char_free; [|apply urlencode_chars].
  intros c. by destruct c as [[] [] [] [] [] [] [] []].
Qed.

Lemma free_of_app c a b : free_of c (a ++ b) = free_of c a && free_of c b.
Proof.
  induction a as [|x a IH]; [done|].
  rewrite string_app_cons. cbn [free_of]. by rewrite IH, andb_assoc.
Qed.

Lemma split_free c s : free_of c s = true → split c s = [s].
Proof.
  induction s as [|x s IH]; [done|].
  cbn. intros [Hx Hs]%andb_prop. apply negb_true_iff in Hx.
  by rewrite Hx, IH.
Qed.

Lemma split_app_sep c a rest :
  free_of c a = true → split c (a ++ String c rest) = a :: split c rest.
Proof.
  induction a as [|x a IH].
  - intros _. change ("" +:+ String c rest) with (String c rest).
    cbn [split]. by rewrite Ascii.eqb_refl.
  - cbn [free_of]. intros [Hx Ha]%andb_prop. apply negb_true_iff in Hx.
    rewrite string_app_cons. cbn [split]. by rewrite Hx, IH.
Qed.

(** Cutting a joined text at the separator gives the parts back. *)
Lemma split_join c parts :
  parts ≠ [] → Forall (λ p, free_of c p = true) parts →
  split c (join (String c "") parts) = parts.
Proof.
  induction parts as [|p [|p' rest] IH]; intros Hne Hfree; [done|..].
  - cbn [join]. apply split_free. by inversion Hfree.
  - change (join (String c "") (p :: p' :: rest))
      with (p ++ String c "" ++ join (String c "") (p' :: rest)).
    change (String c "" +:+ join (String c "") (p' :: rest))
      with (String c (join (String c "") (p' :: rest))).
    inversion Hfree as [|? ? Hp Hrest]; subst.
    rewrite split_app_sep by done. by rewrite IH.
Qed.

Lemma query_pair_parse p : parse_pair (query_pair p) = p.
Proof.
  destruct p as [k v]. unfold parse_pair, query_pair. cbn [fst snd].
  change ("=" +:+ urlencode v) with (String (char "=") (urlencode v)).
  rewrite split_app_sep by apply urlencode_free_eq.
  rewrite split_free by apply urlencode_free_eq.
  cbn [join]. by rewrite !urlencode_decode.
Qed.

Lemma query_pair_not_empty p : query_pair p ≠ "".
Proof.
  destruct p as [k v]. unfold query_pair. cbn [fst snd].
  destruct (urlencode k); discriminate.
Qed.

Lemma query_pair_free_amp p : free_of (char "&") (query_pair p) = true.
Proof.
  destruct p as [k v]. unfold query_pair. cbn [fst snd].
  by rewrite !free_of_app, !urlencode_free_amp.
Qed.

(** Reading a serialized query back. *)
Lemma parse_query_of_query (params : list (string * string)) :
  parse_query (query params) = params.
Proof.
  unfold parse_query, query.
  destruct params as [|p params]; [done|].
  change "&" with (String (char "&") "").
  rewrite split_join; [|done|].
  2: { apply Forall_fmap, Forall_forall. intros q _. apply query_pair_free_amp. }
  assert (F : ∀ l : list (string * string),
             filter (λ t, t ≠ "") (query_pair <$> l) = query_pair <$> l).
  { induction l as [|q l IH]; [done|].
    rewrite fmap_cons, filter_cons_True by apply query_pair_not_empty.
    by rewrite IH. }
  rewrite F.
  rewrite <- list_fmap_compose.
  rewrite <- (list_fmap_id (p :: params)) at 2.
  apply list_fmap_ext. intros _ q _. apply query_pair_parse.
Qed.

(** X14.  A query string keeps its entries apart: whatever the names
    and values hold ([&], [=], spaces, any byte), reading the
    serialization back as a server does gives exactly the entries, in
    order. *)
Theorem query_round_trip (params : list (string * string)) :
  parse_query (query params) = params.
Proof. exact (parse_query_of_query params). Qed.

Lemma all_chars_impl (P Q : Ascii.ascii → bool) s :
  (∀ c, P c = true → Q c = true) → all_chars P s = true → all_chars Q s = true.
Proof.
  intros HPQ. induction s as [|c s IH]; [done|].
  cbn. intros [Hc Hs]%andb_prop. by rewrite (HPQ c Hc), IH.
Qed.

(** X15.  A serialized query is made of ASCII letters and digits and of
    [* - . _ % + & =] only: no space, [#], [?] or [/] that would end or
    break the URL it is put in. *)
Theorem query_is_url_safe (params : list (string * string)) :
  all_chars is_query_text (query params) = true.
Proof.
  assert (E : ∀ s, all_chars is_query_text (urlencode s) = true).
  { intros s. apply (all_chars_impl is_query_char); [|apply urlencode_chars].
    intros c Hc. unfold is_query_text. by rewrite Hc. }
  assert (P : ∀ p, all_chars is_query_text (query_pair p) = true).
  { intros [k v]. unfold query_pair. cbn [fst snd].
    by rewrite !all_chars_app, !E. }
  unfold query. induction params as [|p [|p' rest] IH]; [done|apply P|].
  change (join "&" (query_pair <$> p :: p' :: rest))
    with (query_pair p ++ "&" ++ join "&" (query_pair <$> p' :: rest)).
  by rewrite !all_chars_app, P, IH.
Qed.

Lemma request_first_call endpoint options s :
  issued (run_block (await_call (ApiClient.request endpoint options)) s).1 =
  [first_call endpoint options s].
Proof. reflexivity. Qed.

Ltac param_names name :=
  let v := fresh "v" in let Hv := fresh "Hv" in
  intros name [v Hv]; revert Hv; cbn [param];
  repeat match goal with
         | |- context [String.eqb ?k name] =>
             destruct (String.eqb_spec k name) as [<-|_];
             [intros _; rewrite !elem_of_cons; tauto|]
         end;
  done.

Ltac param_cases :=
  cbn [app param];
  repeat match goal with
         | |- context [String.eqb ?k ?name] =>
             let E := fresh "E" in
             destruct (String.eqb_spec k name) as [E|?];
             [first [discriminate E | subst name]|]
         end;
  try done.

(** What [getDevices] sends under each name. *)
Lemma getDevices_param name page pageSize filters :
  param name (Endpoints.getDevices_params page pageSize filters) =
  if String.eqb "page" name then Some (to_string (Endpoints.or_default (JNum 1) page))
  else if String.eqb "page_size" name
  then Some (to_string (Endpoints.or_default (JNum 20) pageSize))
  else if String.eqb "search" name
  then (if truthy (filters !! "search") then Some (to_string (filters !! "search")) else None)
  else if String.eqb "is_trusted" name || String.eqb "is_suspicious" name
          || String.eqb "is_online" name
  then (λ v, to_string (Some v)) <$> filters !! name
  else None.
Proof.
  unfold Endpoints.getDevices_params.
  destruct (truthy (filters !! "search")),
    (filters !! "is_trusted") eqn:E1, (filters !! "is_suspicious") eqn:E2,
    (filters !! "is_online") eqn:E3;
    param_cases; cbn; by rewrite ?E1, ?E2, ?E3.
Qed.

Lemma getDevices_params_lookup page pageSize filters :
  let sent := Endpoints.getDevices_params page pageSize filters in
  param "page" sent = Some (to_string (Endpoints.or_default (JNum 1) page)) ∧
  param "page_size" sent = Some (to_string (Endpoints.or_default (JNum 20) pageSize)) ∧
  param "search" sent =
    (if truthy (filters !! "search") then Some (to_string (filters !! "search")) else None) ∧
  (∀ flag, flag ∈ ["is_trusted"; "is_suspicious"; "is_online"] →
     param flag sent = (λ v, to_string (Some v)) <$> filters !! flag) ∧
  (∀ name, is_Some (param name sent) →
     name ∈ ["page"; "page_size"; "search"; "is_trusted"; "is_suspicious"; "is_online"]).
Proof.
  cbn zeta. split_and!; try by rewrite getDevices_param.
  - intros flag Hflag. rewrite getDevices_param.
    repeat (apply elem_of_cons in Hflag as [->|Hflag]; [done|]).
    by apply elem_of_nil in Hflag.
  - intros name [v Hv]. rewrite getDevices_param in Hv. revert Hv.
    repeat match goal with
           | |- context [String.eqb ?k name] =>
               destruct (String.eqb_spec k name) as [<-|?];
               [intros _; rewrite !elem_of_cons; tauto|]
           end.
    done.
Qed.

Lemma getAlerts_params_lookup page pageSize filters :
  let sent := Endpoints.getAlerts_params page pageSize filters in
  param "page" sent = Some (to_string (Endpoints.or_default (JNum 1) page)) ∧
  param "page_size" sent = Some (to_string (Endpoints.or_default (JNum 20) pageSize)) ∧
  (∀ name, name ∈ ["alert_type"; "severity"] →
     param name sent =
       (if truthy (filters !! name) then Some (to_string (filters !! name)) else None)) ∧
  param "is_acknowledged" sent =
    (λ v, to_string (Some v)) <$> filters !! "is_acknowledged" ∧
  (∀ name, is_Some (param name sent) →
     name ∈ ["page"; "page_size"; "alert_type"; "severity"; "is_acknowledged"]).
Proof.
  unfold Endpoints.getAlerts_params.
  destruct (truthy (filters !! "alert_type")) eqn:E1,
    (truthy (filters !! "severity")) eqn:E2, (filters !! "is_acknowledged");
    cbn [app];
    (split_and!;
     [done..
    | intros name Hname;
      repeat (apply elem_of_cons in Hname as [->|Hname]; [by rewrite ?E1, ?E2|]);
      by apply elem_of_nil in Hname
    | done
    | param_names name ]).
Qed.

(** X16.  The device list is asked for with a GET of [/devices?...]
    without a body.  Read back by the server, its query
    holds the page and page size (1 and 20 when not given), the search
    text exactly as typed when it is not empty, and each of the three
    flags that is set, also when it is [false]; nothing else: no text of
    a filter adds or changes a parameter. *)
Theorem getDevices_sends_filters (page pageSize : value) (filters : gmap string json)
    (s : State) :
  ∃ q,
    issued (run_block (Endpoints.getDevices page pageSize filters) s).1 =
      [first_call ("/devices?" ++ q) (mkOptions None ∅ None) s] ∧
    let sent := parse_query q in
    param "page" sent = Some (to_string (Endpoints.or_default (JNum 1) page)) ∧
    param "page_size" sent = Some (to_string (Endpoints.or_default (JNum 20) pageSize)) ∧
    param "search" sent =
      (if truthy (filters !! "search") then Some (to_string (filters !! "search")) else None) ∧
    (∀ flag, flag ∈ ["is_trusted"; "is_suspicious"; "is_online"] →
       param flag sent = (λ v, to_string (Some v)) <$> filters !! flag) ∧
    (∀ name, is_Some (param name sent) →
       name ∈ ["page"; "page_size"; "search"; "is_trusted"; "is_suspicious"; "is_online"]).
Proof.
  eexists. split; [apply request_first_call|].
  rewrite parse_query_of_query. apply getDevices_params_lookup.
Qed.

(** X17.  The same for the alert list: [alert_type] and [severity] are
    sent when not empty, [is_acknowledged] when set. *)
Theorem getAlerts_sends_filters (page pageSize : value) (filters : gmap string json)
    (s : State) :
  ∃ q,
    issued (run_block (Endpoints.getAlerts page pageSize filters) s).1 =
      [first_call ("/alerts?" ++ q) (mkOptions None ∅ None) s] ∧
    let sent := parse_query q in
    param "page" sent = Some (to_string (Endpoints.or_default (JNum 1) page)) ∧
    param "page_size" sent = Some (to_string (Endpoints.or_default (JNum 20) pageSize)) ∧
    (∀ name, name ∈ ["alert_type"; "severity"] →
       param name sent =
         (if truthy (filters !! name) then Some (to_string (filters !! name)) else None)) ∧
    param "is_acknowledged" sent =
      (λ v, to_string (Some v)) <$> filters !! "is_acknowledged" ∧
    (∀ name, is_Some (param name sent) →
       name ∈ ["page"; "page_size"; "alert_type"; "severity"; "is_acknowledged"]).
Proof.
  eexists. split; [apply request_first_call|].
  rewrite parse_query_of_query. apply getAlerts_params_lookup.
Qed.

(** * The device list *)

(** X18.  [setFilter] reloads the list from page 1 with the filter as
    set: a flag is sent with the value given and left out after [''] or
    [undefined], a search text is sent unless it is empty (or another
    falsy value), and every other parameter is sent as before. *)
Theorem setFilter_reaches_query (key : string) (v : value) (m : DevicesManager.t)
    (s : State) :
  let m' := DevicesManager.setFilter key v m in
  ∃ q,
    issued (run_block (DevicesManager.loadDevices_call m') s).1 =
      [first_call ("/devices?" ++ q) (mkOptions None ∅ None) s] ∧
    let sent := parse_query q in
    param "page" sent = Some "1" ∧
    (key ∈ ["is_trusted"; "is_suspicious"; "is_online"] →
       param key sent =
         match v with
         | None | Some (JStr "") => None
         | Some j => Some (json_to_string j)
         end) ∧
    (key = "search" →
       param "search" sent = if truthy v then Some (to_string v) else None) ∧
    (∀ name, name ≠ key → name ≠ "page" →
       param name sent =
         param name (Endpoints.getDevices_params (DevicesManager.currentPage m)
                       (DevicesManager.pageSize m) (DevicesManager.filters m))).
Proof.
  intros m'. eexists. split; [apply request_first_call|].
  rewrite parse_query_of_query. cbn zeta.
  set (f' := DevicesManager.filters m').
  assert (Hkey : f' !! key =
                 match v with None | Some (JStr "") => None | Some j => Some j end).
  { subst f' m'. unfold DevicesManager.setFilter. cbn [DevicesManager.filters].
    destruct v as [[| | |[|]| |]|]; by simplify_map_eq. }
  assert (Hother : ∀ name, name ≠ key → f' !! name = DevicesManager.filters m !! name).
  { intros name Hne. subst f' m'. unfold DevicesManager.setFilter.
    cbn [DevicesManager.filters].
    destruct v as [[| | |[|]| |]|]; by simplify_map_eq. }
  assert (Hpage : DevicesManager.currentPage m' = Some (JNum 1)) by done.
  rewrite Hpage. fold f'. clearbody f'. clear Hpage.
  split_and!.
  - by rewrite getDevices_param.
  - intros Hflag. rewrite getDevices_param.
    repeat (apply elem_of_cons in Hflag as [->|Hflag];
            [cbn; rewrite Hkey; by destruct v as [[| | |[|]| |]|]|]).
    by apply elem_of_nil in Hflag.
  - intros ->. rewrite getDevices_param. cbn. rewrite Hkey.
    by destruct v as [[| | |[|]| |]|].
  - intros name Hne Hpage. rewrite !getDevices_param.
    destruct (String.eqb_spec "page" name) as [|_]; [done|].
    destruct (String.eqb_spec "page_size" name) as [|_]; [done|].
    destruct (String.eqb_spec "search" name) as [<-|_]; [by rewrite Hother|].
    by rewrite Hother.
Qed.

Lemma handle_keeps_page m ev :
  DevicesManager.currentPage m = Some (JNum 1) →
  DevicesManager.pageSize m = Some (JNum 20) →
  DevicesManager.currentPage (DevicesManager.handle m ev) = Some (JNum 1) ∧
  DevicesManager.pageSize (DevicesManager.handle m ev) = Some (JNum 20).
Proof.
  intros Hp Hs. destruct ev as [text|choice]; cbn; [done|].
  by repeat case_match.
Qed.

Lemma after_keeps_page evs :
  DevicesManager.currentPage (DevicesManager.after evs) = Some (JNum 1) ∧
  DevicesManager.pageSize (DevicesManager.after evs) = Some (JNum 20).
Proof.
  unfold DevicesManager.after.
  assert (G : ∀ m, DevicesManager.currentPage m = Some (JNum 1) →
                   DevicesManager.pageSize m = Some (JNum 20) →
                   DevicesManager.currentPage (foldl DevicesManager.handle m evs)
                     = Some (JNum 1) ∧
                   DevicesManager.pageSize (foldl DevicesManager.handle m evs)
                     = Some (JNum 20)).
  { induction evs as [|ev evs IH]; intros m Hp Hs; [done|].
    cbn [foldl]. by apply IH; apply handle_keeps_page. }
  by apply G.
Qed.

(** X19.  A choice of the filter menu drops the search text: whatever
    was typed or chosen before, the list is then asked for with page 1,
    page size 20 and the one flag chosen, or no filter at all for any
    other choice; no [search] parameter is sent, and no two flags ever
    are. *)
Theorem filter_choice_drops_search (evs : list DevicesManager.event) (choice : string)
    (s : State) :
  let m := DevicesManager.after (evs ++ [DevicesManager.Change choice]) in
  ∃ q,
    issued (run_block (DevicesManager.loadDevices_call m) s).1 =
      [first_call ("/devices?" ++ q) (mkOptions None ∅ None) s] ∧
    parse_query q =
      ([("page", "1"); ("page_size", "20")] ++ DevicesManager.flag_of choice)%list.
Proof.
  intros m. eexists. split; [apply request_first_call|].
  rewrite parse_query_of_query. subst m.
  unfold DevicesManager.after. rewrite foldl_app. cbn [foldl].
  fold (DevicesManager.after evs).
  destruct (after_keeps_page evs) as [Hp Hs].
  unfold DevicesManager.handle, DevicesManager.flag_of.
  repeat case_match;
    cbn [DevicesManager.setFilter DevicesManager.currentPage DevicesManager.pageSize
         DevicesManager.filters];
    rewrite ?Hp, ?Hs; reflexivity.
Qed.

(** * The endpoint methods *)

(** X20.  [getDeviceHistory] is declared twice, and the later
    declaration, the history of one device, is the one every call
    reaches: the first argument is taken as a device id.  The call of
    the dashboard chart, [getDeviceHistory(7)], thus asks for
    [/devices/7/history?days=7], and none of the methods that only fill
    in an endpoint ever asks for [/dashboard/device-history]. *)
Theorem getDeviceHistory_is_per_device (s : State) :
  (∀ id days, ∃ p,
     Methods.call "getDeviceHistory" [id; days] = Some p ∧
     issued (run_block p s).1 =
       [first_call ("/devices/" ++ to_string id ++ "/history?days="
                    ++ to_string (Endpoints.or_default (JNum 7) days))
          (mkOptions None ∅ None) s]) ∧
  (∃ p, initActivityChart_call = Some p ∧
     issued (run_block p s).1 =
       [first_call "/devices/7/history?days=7" (mkOptions None ∅ None) s]) ∧
  (∀ name args p c,
     Methods.call name args = Some p → c ∈ issued (run_block p s).1 →
     String.prefix (ApiClient.baseUrl ++ "/dashboard/device-history") (url c) = false).
Proof.
  split_and!.
  - intros id days. eexists. split; [reflexivity|]. reflexivity.
  - eexists. split; [reflexivity|]. reflexivity.
  - intros name args p c Hcall Hc.
    unfold Methods.call, Methods.method, Methods.declared in Hcall.
    repeat match type of Hcall with
           | context [filter _ ((?k, _) :: _)] =>
               destruct (decide (k = name)) as [<-|Hne];
               [ cbv -[Methods.read Methods.send to_string Endpoints.or_default
                       Methods.arg String.append] in Hcall;
                 injection Hcall as <-;
                 apply list_elem_of_singleton in Hc as ->; reflexivity
               | rewrite filter_cons_False in Hcall by exact Hne; clear Hne ]
           end.
    done.
Qed.

(** * Signing in *)


Lemma login_succeeds username password response rest s access refresh :
  credentials response = Some (access, refresh) →
  ∃ data, run_alone (ApiClient.login username password) (Resolved response :: rest) s =
    Some (mkRun (Returned data) (store_credentials access refresh s)
            [ApiClient.login_call username password] rest).
Proof.
  intros Hc. unfold ApiClient.login, credentials in *. cbn.
  destruct (json_body response) as [data|]; [|by destruct (ok response)]. cbn.
  destruct (ok response); [|done]. cbn.
  destruct data; cbn in *; try done; injection Hc as <- <-; by eexists.
Qed.

Lemma getCurrentUser_run rs s :
  run_alone Methods.getCurrentUser rs s =
  run_alone (ApiClient.request "/auth/me" (mkOptions None ∅ None)) rs s.
Proof. apply run_alone_await_call. Qed.



(** X22.  A sign-in whose login call is answered with a credential pair
    but whose profile request then fails (no answer, or an answer that is
    neither ok nor a 401) shows the error text and not the app, yet the
    pair stays stored: the profile request went out with the new access
    credential and nothing clears it. *)
Theorem handleLogin_keeps_pair_on_profile_failure
    username password response access refresh r2 rest s :
  credentials response = Some (access, refresh) →
  match r2 with
  | Resolved profile => status profile ≠ 401 ∧ ok profile = false
  | Rejected _ => True
  end →
  let s' := store_credentials access refresh s in
  ∃ text,
    run_alone (AuthManager.handleLogin username password)
      (Resolved response :: r2 :: rest) s =
      Some (mkRun (Returned (AuthManager.LoginError text)) s'
              [ApiClient.login_call username password;
               first_call "/auth/me" (mkOptions None ∅ None) s'] rest) ∧
    stored_pair s' = pair_of access refresh ∧
    (truthy access = true →
     headers (first_call "/auth/me" (mkOptions None ∅ None) s') !! "Authorization" =
       Some (ApiClient.bearer access)).
Proof.
  intros Hc Hr2 s'.
  destruct (login_succeeds username password response (r2 :: rest) s access refresh Hc)
    as [data Hlogin].
  fold s' in Hlogin.
  assert (Hprofile : ∃ e,
    run_alone (ApiClient.request "/auth/me" (mkOptions None ∅ None)) (r2 :: rest) s' =
    Some (mkRun (Threw e) s' [first_call "/auth/me" (mkOptions None ∅ None) s'] rest)).
  { destruct r2 as [profile|e].
    - destruct Hr2 as [H401 Hok]. rewrite request_not_401 by done.
      rewrite handleResponse_rejects; [by eexists| |done].
      intros H. unfold ok in Hok. by rewrite H in Hok.
    - rewrite request_rejected. by eexists. }
  destruct Hprofile as [e He].
  unfold AuthManager.handleLogin.
  rewrite run_alone_try_catch, run_alone_bind, run_alone_await_call, Hlogin.
  cbn [result final calls unused mbind option_bind].
  rewrite run_alone_bind, run_alone_await_call, getCurrentUser_run, He.
  cbn. eexists. split; [reflexivity|]. split.
  - apply stored_pair_store_credentials.
  - intros Ht. subst s'.
    unfold first_call, ApiClient.request_headers, ApiClient.request_call,
      store_credentials, setItem, set_token.
    cbn [token headers opt_headers]. rewrite Ht. by simplify_map_eq.
Qed.

Lemma handleLogin_keeps_pair_on_profile_failure_witness :
  let s' := store_credentials (Some (JStr "A1")) (Some (JStr "R1")) Sample.logged_out in
  ∃ text,
    run_alone (AuthManager.handleLogin "admin" "admin123")
      [Resolved (Sample.token_pair "A1" "R1");
       Resolved (mkResponse 500 (Some "text/plain") None "Internal Server Error")]
      Sample.logged_out =
      Some (mkRun (Returned (AuthManager.LoginError text)) s'
              [ApiClient.login_call "admin" "admin123";
               first_call "/auth/me" (mkOptions None ∅ None) s'] []) ∧
    stored_pair s' = pair_of (Some (JStr "A1")) (Some (JStr "R1")) ∧
    (truthy (Some (JStr "A1")) = true →
     headers (first_call "/auth/me" (mkOptions None ∅ None) s') !! "Authorization" =
       Some (ApiClient.bearer (Some (JStr "A1")))).
Proof.
  apply (handleLogin_keeps_pair_on_profile_failure "admin" "admin123"
           (Sample.token_pair "A1" "R1") (Some (JStr "A1")) (Some (JStr "R1"))
           (Resolved (mkResponse 500 (Some "text/plain") None "Internal Server Error"))
           [] Sample.logged_out).
  - reflexivity.
  - split; [discriminate|reflexivity].
Defined.





(** * Scanning *)

Lemma perform_started options σ call :
  call ∈ Scanner.started (Scanner.perform options σ) →
  call ∈ Scanner.started σ ∨ call = options.
Proof.
  unfold Scanner.perform, Scanner.performScan_begin.
  destruct (Scanner.isScanning (Scanner.page σ)); cbn; [by left|].
  intros [H|H%list_elem_of_singleton]%elem_of_app; [by left|by right].
Qed.

Lemma startScan_options_validated networkRange scanType :
  match networkRange with
  | None => True
  | Some range => regex_test cidrPattern range = true
  end →
  Scanner.validated (Scanner.startScan_payload (Scanner.startScan_options networkRange scanType)).
Proof.
  intros Hr. unfold Scanner.startScan_payload, Scanner.startScan_options.
  rewrite lookup_insert_eq, lookup_insert_ne, lookup_insert_ne by done.
  rewrite lookup_singleton_eq, lookup_singleton_ne by done.
  exists (match networkRange with Some r => JStr r | None => JNull end),
         (if String.eqb scanType "" then "arp" else scanType).
  split; [|split].
  - unfold Scanner.or_else, truthy. destruct networkRange as [r|]; cbn.
    + destruct (String.eqb_spec r "") as [->|_]; [by vm_compute in Hr|]. cbn.
      by destruct (String.eqb scanType "").
    + by destruct (String.eqb scanType "").
  - by destruct (String.eqb_spec scanType "").
  - destruct networkRange as [r|]; [right; by exists r|by left].
Qed.

Lemma act_started range scanType call : ∀ actions σ,
  (∀ a, a ∈ actions → a ∈ ScanPage.startScan range scanType) →
  call ∈ Scanner.started (foldl Scanner.act σ actions) →
  call ∈ Scanner.started σ ∨ Scanner.validated (Scanner.startScan_payload call).
Proof.
  induction actions as [|a actions IH]; intros σ Hsub Hin; [by left|].
  cbn [foldl] in Hin. apply IH in Hin as [Hin|Hv]; [|by right|].
  2: { intros a' Ha'. apply Hsub. by right. }
  destruct a as [message type|networkRange ty]; [by left|].
  cbn [Scanner.act] in Hin. apply perform_started in Hin as [Hin| ->]; [by left|].
  right. apply startScan_options_validated.
  destruct (startScan_ranges range scanType networkRange ty) as [_ Hr].
  { apply Hsub. by left. }
  by destruct networkRange.
Qed.

Lemma step_started σ ev call :
  call ∈ Scanner.started (Scanner.step σ ev) →
  call ∈ Scanner.started σ ∨ Scanner.validated (Scanner.startScan_payload call).
Proof.
  destruct ev as [|range scanType|o|data]; cbn [Scanner.step].
  - intros [H| ->]%perform_started; [by left|]. right.
    exists JNull, "arp". split; [reflexivity|]. split; [done|by left].
  - by apply (act_started range scanType call (ScanPage.startScan range scanType) σ).
  - destruct (Scanner.pending σ); by left.
  - by left.
Qed.

(** X24.  Whatever is clicked, typed, answered or received, every body
    sent to the scan endpoint is a validated one: its range is [null] or
    a text the range pattern accepts, its scan type is not empty ([arp]
    stands in for an empty one), and its timeout is 3. *)
Theorem scan_requests_are_validated (evs : list Scanner.event) (σ : Scanner.session)
    (call : gmap string json) :
  call ∈ Scanner.started (Scanner.run σ evs) →
  call ∈ Scanner.started σ ∨ Scanner.validated (Scanner.startScan_payload call).
Proof.
  unfold Scanner.run. revert σ.
  induction evs as [|ev evs IH]; intros σ Hin; [by left|].
  cbn [foldl] in Hin. apply IH in Hin as [Hin|Hv]; [|by right].
  by apply (step_started σ ev).
Qed.

Lemma scan_requests_are_validated_witness :
  Scanner.validated
    (Scanner.startScan_payload (Scanner.startScan_options (Some "10.0.12.0/24") "")).
Proof.
  assert (E : Scanner.started
                (Scanner.run (Scanner.mkSession (Scanner.mk false [] true "Idle" false 0) [] 0)
                   [Scanner.Scan "10.0.12.250" ""]) =
              [Scanner.startScan_options (Some "10.0.12.0/24") ""]) by reflexivity.
  destruct (scan_requests_are_validated
              [Scanner.Scan "10.0.12.250" ""]
              (Scanner.mkSession (Scanner.mk false [] true "Idle" false 0) [] 0)
              (Scanner.startScan_options (Some "10.0.12.0/24") ""))
    as [H|H].
  - rewrite E. by apply list_elem_of_singleton.
  - by apply elem_of_nil in H.
  - exact H.
Defined.

Lemma quiet_step σ ev :
  Scanner.isScanning (Scanner.page σ) = true → Scanner.quiet ev = true →
  Scanner.started (Scanner.step σ ev) = Scanner.started σ ∧
  Scanner.isScanning (Scanner.page (Scanner.step σ ev)) = true.
Proof.
  intros Hs Hq. destruct ev as [|range scanType|o|data]; cbn [Scanner.step].
  - unfold Scanner.perform, Scanner.performScan_begin. by rewrite Hs.
  - assert (G : ∀ actions σ, Scanner.isScanning (Scanner.page σ) = true →
                Scanner.started (foldl Scanner.act σ actions) = Scanner.started σ ∧
                Scanner.isScanning (Scanner.page (foldl Scanner.act σ actions)) = true).
    { induction actions as [|a actions IH]; intros σ' Hs'; [done|].
      cbn [foldl]. destruct a as [message type|networkRange ty]; cbn [Scanner.act].
      - destruct (IH (Scanner.mkSession
                        (Scanner.showToast message type (Scanner.page σ'))
                        (Scanner.started σ') (Scanner.pending σ'))) as [H1 H2]; done.
      - unfold Scanner.perform, Scanner.performScan_begin. rewrite Hs'.
        destruct (IH (Scanner.mkSession
                        (Scanner.showToast "Scan already in progress" "warning"
                           (Scanner.page σ'))
                        (Scanner.started σ') (Scanner.pending σ'))) as [H1 H2]; done. }
    by apply G.
  - destruct (Scanner.pending σ); [done|]. by destruct o.
  - cbn in Hq. apply negb_true_iff in Hq. split; [done|]. cbn [Scanner.page].
    unfold Scanner.handleScanUpdate, Scanner.terminal in *.
    destruct data as [d|]; [|done].
    destruct (get_prop d "status") as [e|status]; [done|].
    by rewrite Hq.
Qed.

(** X25.  The scan lock.  While [isScanning] is set, no click starts a
    scan: as long as no start fails and no [scan_update] with status
    [completed] or [failed] arrives, no call of [api.startScan] is made
    and the flag stays set, however often the buttons are clicked.  A
    started scan whose final message is lost thus blocks scanning for the
    life of the page. *)
Theorem scan_lock_holds (evs : list Scanner.event) (σ : Scanner.session) :
  Scanner.isScanning (Scanner.page σ) = true →
  forallb Scanner.quiet evs = true →
  Scanner.started (Scanner.run σ evs) = Scanner.started σ ∧
  Scanner.isScanning (Scanner.page (Scanner.run σ evs)) = true.
Proof.
  unfold Scanner.run. revert σ.
  induction evs as [|ev evs IH]; intros σ Hs Hq; [done|].
  cbn in Hq. apply andb_prop in Hq as [Hev Hq].
  destruct (quiet_step σ ev Hs Hev) as [H1 H2].
  cbn [foldl]. destruct (IH _ H2 Hq) as [H3 H4]. by rewrite H3, H1.
Qed.

Lemma scan_lock_holds_witness :
  let σ := Scanner.run (Scanner.mkSession (Scanner.mk false [] true "Idle" false 0) [] 0)
             [Scanner.QuickScan; Scanner.StartSettled (Returned null)] in
  let evs := [Scanner.Scan "10.0.12.0/24" "arp";
              Scanner.Update (Some (JObj [("status", JStr "running")]));
              Scanner.QuickScan] in
  Scanner.started (Scanner.run σ evs) = Scanner.started σ ∧
  Scanner.isScanning (Scanner.page (Scanner.run σ evs)) = true.
Proof.
  apply (scan_lock_holds
           [Scanner.Scan "10.0.12.0/24" "arp";
            Scanner.Update (Some (JObj [("status", JStr "running")]));
            Scanner.QuickScan]
           (Scanner.run (Scanner.mkSession (Scanner.mk false [] true "Idle" false 0) [] 0)
              [Scanner.QuickScan; Scanner.StartSettled (Returned null)]));
    reflexivity.
Defined.

Lemma get_prop_defined d k v k' :
  get_prop d k = inr v → ∃ v', get_prop d k' = inr v'.
Proof. unfold get_prop. destruct d; try done; by eexists. Qed.

Lemma terminal_update data p :
  Scanner.terminal data = true →
  ∃ text type,
    (Scanner.handleScanUpdate data p).1 =
    Scanner.mk false (Scanner.toasts p ++ [(text, type)]) true "Idle" false
      (Scanner.dashboard_loads (Scanner.handleScanUpdate data p).1).
Proof.
  unfold Scanner.handleScanUpdate, Scanner.terminal.
  destruct data as [d|]; [|done].
  destruct (get_prop d "status") as [e|status] eqn:Hst; [done|].
  intros ->.
  destruct (get_prop_defined d "status" status "total_devices" Hst) as [v1 ->].
  destruct (get_prop_defined d "status" status "new_devices" Hst) as [v2 ->].
  destruct (get_prop_defined d "status" status "error" Hst) as [v3 ->].
  destruct (Scanner.is_str "completed" status); cbn; by do 2 eexists.
Qed.

(** X26.  What releases the lock.  A [scan_update] with status
    [completed] or [failed] clears the flag, hides the progress, sets
    the badge to Idle and shows one toast; the failure of a start
    clears the flag and shows an error toast whose text is never empty.
    After either, the next click starts a scan. *)
Theorem scan_lock_released (σ : Scanner.session) (ev : Scanner.event) :
  match ev with
  | Scanner.Update data => Scanner.terminal data = true
  | Scanner.StartSettled (Threw _) => Scanner.pending σ ≠ 0%nat
  | _ => False
  end →
  let σ' := Scanner.step σ ev in
  Scanner.isScanning (Scanner.page σ') = false ∧
  Scanner.started σ' = Scanner.started σ ∧
  (∀ data, ev = Scanner.Update data →
     Scanner.scanProgress_hidden (Scanner.page σ') = true ∧
     Scanner.badge_text (Scanner.page σ') = "Idle" ∧
     Scanner.badge_warning (Scanner.page σ') = false ∧
     (length (Scanner.toasts (Scanner.page σ')) = S (length (Scanner.toasts (Scanner.page σ))))) ∧
  (∀ error, ev = Scanner.StartSettled (Threw error) →
     ∃ text, Scanner.toasts (Scanner.page σ') =
               (Scanner.toasts (Scanner.page σ) ++ [(text, "error")])%list ∧
             text ≠ "") ∧
  Scanner.started (Scanner.step σ' Scanner.QuickScan) =
    (Scanner.started σ ++ [Scanner.startQuickScan_options])%list.
Proof.
  intros Hev σ'.
  assert (H : Scanner.isScanning (Scanner.page σ') = false ∧
              Scanner.started σ' = Scanner.started σ).
  { subst σ'. destruct ev as [| |[|e]|data]; try done; cbn [Scanner.step].
    - destruct (Scanner.pending σ) eqn:Hp; [congruence|done].
    - cbn [Scanner.page Scanner.started]. split; [|done].
      destruct (terminal_update data (Scanner.page σ) Hev) as (text & type & ->). done. }
  destruct H as [H1 H2]. split; [done|]. split; [done|]. split; [|split].
  - intros data ->. subst σ'. cbn [Scanner.step Scanner.page].
    destruct (terminal_update data (Scanner.page σ) Hev) as (text & type & ->).
    cbn. rewrite length_app. cbn. split_and!; [done..|lia].
  - intros error ->. subst σ'. cbn [Scanner.step].
    destruct (Scanner.pending σ) eqn:Hp; [congruence|]. cbn.
    eexists. split; [reflexivity|]. by destruct (String.eqb_spec (message error) "").
  - cbn [Scanner.step]. unfold Scanner.perform, Scanner.performScan_begin.
    rewrite H1. cbn. by rewrite H2.
Qed.

Lemma scan_lock_released_witness :
  let σ := Scanner.run (Scanner.mkSession (Scanner.mk false [] true "Idle" false 0) [] 0)
             [Scanner.QuickScan; Scanner.StartSettled (Returned null)] in
  let σ' := Scanner.step σ
              (Scanner.Update (Some (JObj [("status", JStr "completed");
                                           ("total_devices", JNum 12);
                                           ("new_devices", JNum 1)]))) in
  Scanner.isScanning (Scanner.page σ') = false ∧
  Scanner.toasts (Scanner.page σ') =
    [("Starting network scan...", "info");
     ("Scan complete: 12 devices found, 1 new", "success")].
Proof.
  intros σ σ'.
  split; [|reflexivity].
  apply (scan_lock_released σ
           (Scanner.Update (Some (JObj [("status", JStr "completed");
                                        ("total_devices", JNum 12);
                                        ("new_devices", JNum 1)])))).
  reflexivity.
Defined.


(** * Relative times *)

(** X27.  What [formatTime] can say.  A time less than a minute ago, and
    also any time in the future, reads "Just now"; otherwise the text
    counts whole minutes from 1 to 59 or whole hours from 1 to 23, and
    from 24 hours on, or for an invalid date, it is the locale's text.  A
    missing time gives the fixed text of the class. *)
Theorem formatTime_cases (f : formatter) (clock : Clock) (isoString : value) :
  let text := formatTime f clock isoString in
  (truthy isoString = false → text = missing_text f) ∧
  (∀ iso t, isoString = Some iso → truthy isoString = true → date_of clock iso = Some t →
     let diff := now clock - t in
     (diff < 60000 → text = "Just now") ∧
     (60000 ≤ diff < 3600000 →
        ∃ n, 1 ≤ n ≤ 59 ∧ n = diff / 60000 ∧ text = pretty n ++ minutes_text f) ∧
     (3600000 ≤ diff < 86400000 →
        ∃ n, 1 ≤ n ≤ 23 ∧ n = diff / 3600000 ∧ text = pretty n ++ hours_text f) ∧
     (86400000 ≤ diff → text = locale clock (Some t))) ∧
  (∀ iso, isoString = Some iso → truthy isoString = true → date_of clock iso = None →
     text = locale clock None).
Proof.
  intros text. subst text. unfold formatTime.
  split; [|split].
  - intros Hf. destruct isoString as [iso|]; [|done]. by rewrite Hf.
  - intros iso t -> Ht Hd. rewrite Ht, Hd. cbn [negb].
    set (diff := now clock - t).
    split; [|split; [|split]].
    + intros H. by rewrite (proj2 (Z.ltb_lt _ _) H).
    + intros [H1 H2].
      rewrite (proj2 (Z.ltb_ge _ _) H1), (proj2 (Z.ltb_lt _ _) H2).
      exists (diff / 60000). split; [|done].
      split; [apply Z.div_le_lower_bound; lia|].
      assert (diff / 60000 < 60) by (apply Z.div_lt_upper_bound; lia). lia.
    + intros [H1 H2].
      rewrite (proj2 (Z.ltb_ge diff 60000)) by lia.
      rewrite (proj2 (Z.ltb_ge _ _) H1), (proj2 (Z.ltb_lt _ _) H2).
      exists (diff / 3600000). split; [|done].
      split; [apply Z.div_le_lower_bound; lia|].
      assert (diff / 3600000 < 24) by (apply Z.div_lt_upper_bound; lia). lia.
    + intros H.
      rewrite (proj2 (Z.ltb_ge diff 60000)), (proj2 (Z.ltb_ge diff 3600000)) by lia.
      by rewrite (proj2 (Z.ltb_ge _ _) H).
  - intros iso -> Ht Hd. by rewrite Ht, Hd.
Qed.


(** * Signing out during a renewal *)

Lemma stored_pair_cleared s : stored_pair (cleared s) = (None, None).
Proof. unfold stored_pair, cleared, removeItem, set_token. cbn. by simplify_map_eq. Qed.

(** X28.  A sign-out does not stop a renewal in flight.  [logout] does
    to the client what [clearToken] does; when it runs after a request
    has started its renewal, nothing is stored for a while, but once the
    renewal is answered with a new pair that pair is stored, the token
    field holds the new access credential, and the request replays with
    it: the session is back although the user signed out. *)
Theorem logout_undone_by_renewal e o s r1 rr access refresh :
  status r1 = 401 →
  truthy (getItem "refresh_token" s) = true →
  credentials rr = Some (access, refresh) →
  let rt := to_string (getItem "refresh_token" s) in
  let σ1 := exec [Call (Request e o); Respond 0 (Resolved r1); Call ClearToken] (boot s) in
  let σ2 := exec [Respond 0 (Resolved rr); Resume 0; Resume 0] σ1 in
  (run_block AuthManager.logout s).2 = (run_block (program ClearToken) s).2 ∧
  state σ1 = cleared s ∧
  stored_pair (state σ1) = (None, None) ∧
  network σ1 = [first_call e o s; ApiClient.refresh_call rt] ∧
  state σ2 = store_credentials access refresh (cleared s) ∧
  stored_pair (state σ2) = pair_of access refresh ∧
  token (state σ2) = access ∧
  network σ2 = [first_call e o s; ApiClient.refresh_call rt;
                replay_call e o s (store_credentials access refresh (cleared s))].
Proof.
  intros H1 Ht Hc rt σ1 σ2.
  apply Z.eqb_eq in H1.
  unfold credentials in Hc.
  destruct (ok rr) eqn:Hok; [|done].
  destruct (json_body rr) as [data|] eqn:Hbody; [|done].
  destruct (get_prop data "access_token") as [?|a] eqn:Ha; [done|].
  destruct (get_prop data "refresh_token") as [?|rf] eqn:Hr; [done|].
  injection Hc as <- <-.
  assert (Hσ1 : ∃ ts d,
    σ1 = mkSystem (cleared s) ts [first_call e o s; ApiClient.refresh_call rt] d).
  { subst σ2 σ1 rt. unfold exec, boot. cbn [foldl].
    unfold await_call, ApiClient.refreshToken, ApiClient.request.
    repeat match goal with
    | |- context [step ?ev (mkSystem ?x ?y ?z ?w)] =>
        let σ' := fresh "σ" in
        let E := fresh "E" in
        remember (step ev (mkSystem x y z w)) as σ' eqn:E;
        cbn in E;
        repeat (first [progress unfold await_call, ApiClient.refreshToken,
                         ApiClient.clearToken in E
                      | rewrite H1 in E | rewrite Ht in E]; cbn in E);
        subst σ'
    end.
    eexists _, _. reflexivity. }
  assert (Hσ2 : ∃ ts d,
    σ2 = mkSystem (store_credentials a rf (cleared s)) ts
           [first_call e o s; ApiClient.refresh_call rt;
            replay_call e o s (store_credentials a rf (cleared s))] d).
  { clear Hσ1. subst σ2 σ1 rt. unfold exec, boot. cbn [foldl].
    unfold await_call, ApiClient.refreshToken, ApiClient.request.
    repeat match goal with
    | |- context [step ?ev (mkSystem ?x ?y ?z ?w)] =>
        let σ' := fresh "σ" in
        let E := fresh "E" in
        remember (step ev (mkSystem x y z w)) as σ' eqn:E;
        cbn in E;
        repeat (first [progress unfold await_call, ApiClient.refreshToken,
                         ApiClient.clearToken in E
                      | rewrite H1 in E | rewrite Ht in E
                      | rewrite Hok in E | rewrite Hbody in E | rewrite Ha in E
                      | rewrite Hr in E]; cbn in E);
        subst σ'
    end.
    eexists _, _. reflexivity. }
  destruct Hσ1 as (ts1 & d1 & E1). destruct Hσ2 as (ts2 & d2 & E2).
  rewrite E1, E2. cbn [state network].
  split; [reflexivity|]. split; [reflexivity|].
  split; [apply stored_pair_cleared|].
  split; [reflexivity|]. split; [reflexivity|].
  split; [apply stored_pair_store_credentials|].
  split; reflexivity.
Qed.

Lemma logout_undone_by_renewal_witness :
  let σ1 := exec [Call (Request "/devices" Sample.plain);
                  Respond 0 (Resolved Sample.unauthorized);
                  Call ClearToken] (boot Sample.logged_in) in
  let σ2 := exec [Respond 0 (Resolved (Sample.token_pair "A1" "R1")); Resume 0; Resume 0] σ1 in
  stored_pair (state σ1) = (None, None) ∧
  stored_pair (state σ2) = pair_of (Some (JStr "A1")) (Some (JStr "R1")) ∧
  token (state σ2) = Some (JStr "A1").
Proof.
  intros σ1 σ2.
  pose proof (logout_undone_by_renewal "/devices" Sample.plain Sample.logged_in
                Sample.unauthorized (Sample.token_pair "A1" "R1")
                (Some (JStr "A1")) (Some (JStr "R1")) eq_refl eq_refl eq_refl)
    as (_ & _ & H1 & _ & _ & Hp & Ht & _).
  split; [exact H1|]. split; [exact Hp|exact Ht].
Defined.
